(** * ShopSync: a shallow embedding of [scripts/sync.py]

    The catalogue synchroniser pages two remote collections (products and
    variants), joins them, projects them into rows, upserts the rows into a
    relational store, removes rows that disappeared upstream and writes an
    audit row per shop.

    The embedding follows the Python source function by function.  Python
    values that arrive as JSON are kept as JSON; dictionaries are insertion
    ordered association lists; Python sets of identifiers are [gset]s of
    hashable keys; the store is a finite map from table names to lists of
    rows.  Exceptions are values of [exn] and every function that may raise
    returns a [result].  The [while True] paging loop of the two fetch
    functions takes fuel. *)

From Stdlib Require Import ZArith List Ascii String Bool Lia.
From stdpp Require Import base gmap strings list.
Import ListNotations.

Local Open Scope string_scope.
Local Open Scope Z_scope.
Local Open Scope nat_scope.
Local Open Scope list_scope.

Set Warnings "-register-all".

(** ** JSON values and Python dictionaries *)

(** Numbers are integers: fractional numbers take part in no decision of the
    program and are left out of the model. *)
Inductive json : Type :=
| JNull
| JBool (b : bool)
| JInt (n : Z)
| JStr (s : string)
| JList (l : list json)
| JDict (d : list (string * json)).

Abbreviation pydict := (list (string * json)).

(** [d.get(k)] as an option. *)
Fixpoint dict_lookup (d : pydict) (k : string) : option json :=
  match d with
  | [] => None
  | (k', v) :: rest => if String.eqb k' k then Some v else dict_lookup rest k
  end.

(** [d.get(k, default)]; [d.get(k)] is [dict_get d k JNull]. *)
Definition dict_get (d : pydict) (k : string) (default : json) : json :=
  match dict_lookup d k with
  | Some v => v
  | None => default
  end.

(** [d[k] = v]: an existing key keeps its position, a new key goes last. *)
Fixpoint dict_set (d : pydict) (k : string) (v : json) : pydict :=
  match d with
  | [] => [(k, v)]
  | (k', v') :: rest =>
      if String.eqb k' k then (k', v) :: rest else (k', v') :: dict_set rest k v
  end.

(** [d.pop(k, None)], the popped value dropped. *)
Definition dict_pop (d : pydict) (k : string) : pydict :=
  List.filter (fun kv => negb (String.eqb (fst kv) k)) d.

(** Python truth value of a JSON value ([if x:]). *)
Definition truthy (j : json) : bool :=
  match j with
  | JNull => false
  | JBool b => b
  | JInt n => negb (Z.eqb n 0)
  | JStr s => negb (String.eqb s "")
  | JList l => match l with [] => false | _ => true end
  | JDict d => match d with [] => false | _ => true end
  end.

(** Hashable values up to Python equality: [True == 1] and [False == 0] share
    a key; lists and dictionaries are unhashable. *)
Inductive pykey : Type :=
| KNone
| KInt (n : Z)
| KStr (s : string).

Definition key_of (j : json) : option pykey :=
  match j with
  | JNull => Some KNone
  | JBool b => Some (KInt (if b then 1 else 0)%Z)
  | JInt n => Some (KInt n)
  | JStr s => Some (KStr s)
  | JList _ => None
  | JDict _ => None
  end.

Definition json_of_key (k : pykey) : json :=
  match k with
  | KNone => JNull
  | KInt n => JInt n
  | KStr s => JStr s
  end.

Definition key_truthy (k : pykey) : bool := truthy (json_of_key k).

#[global] Instance pykey_eq_dec : EqDecision pykey.
Proof. solve_decision. Defined.

#[global] Instance pykey_countable : Countable pykey.
Proof.
  refine (inj_countable'
    (fun k => match k with
              | KNone => inl tt
              | KInt n => inr (inl n)
              | KStr s => inr (inr s)
              end)
    (fun x => match x with
              | inl _ => KNone
              | inr (inl n) => KInt n
              | inr (inr s) => KStr s
              end) _).
  intros []; reflexivity.
Defined.

(** ** Exceptions and results *)

Inductive exn : Type :=
| RequestException (msg : string)   (* transport failure, timeout or HTTP error status *)
| KeyError (key : string)
| AttributeError (type_name attr : string)
| TypeError (msg : string)
| UnboundLocalError (name : string)
| RuntimeError (msg : string)
| StopIteration
| ValueError (msg : string)
| IndexError (msg : string)
| APIError (msg : string).          (* raised by the store client *)

(** [str(e)]. *)
Definition exn_str (e : exn) : string :=
  match e with
  | RequestException m => m
  | KeyError k => "'" +:+ k +:+ "'"
  | AttributeError t a => "'" +:+ t +:+ "' object has no attribute '" +:+ a +:+ "'"
  | TypeError m => m
  | UnboundLocalError n =>
      "cannot access local variable '" +:+ n +:+ "' where it is not associated with a value"
  | RuntimeError m => m
  | StopIteration => ""
  | ValueError m => m
  | IndexError m => m
  | APIError m => m
  end.

Inductive result (A : Type) : Type :=
| Ok (a : A)
| Raise (e : exn).
Arguments Ok {A} a.
Arguments Raise {A} e.

Definition rbind {A B} (r : result A) (f : A -> result B) : result B :=
  match r with
  | Ok a => f a
  | Raise e => Raise e
  end.

(** [d[k]]. *)
Definition dict_getitem (d : pydict) (k : string) : result json :=
  match dict_lookup d k with
  | Some v => Ok v
  | None => Raise (KeyError k)
  end.

(** [type(x).__name__] of a decoded JSON value. *)
Definition type_name (x : json) : string :=
  match x with
  | JNull => "NoneType"
  | JBool _ => "bool"
  | JInt _ => "int"
  | JStr _ => "str"
  | JList _ => "list"
  | JDict _ => "dict"
  end.

(** [x.get(k, default)] on an arbitrary value: only dictionaries have [get]. *)
Definition json_get (x : json) (k : string) (default : json) : result json :=
  match x with
  | JDict d => Ok (dict_get d k default)
  | _ => Raise (AttributeError (type_name x) "get")
  end.

(** Hashing a value, as a set or dictionary key must. *)
Definition hash_key (j : json) : result pykey :=
  match key_of j with
  | Some k => Ok k
  | None => Raise (TypeError ("unhashable type: '" +:+ type_name j +:+ "'"))
  end.

(** ** Console output *)

Inductive msg : Type :=
| MsgRetry (retry max_retries : nat) (wait_time : Z) (err : string)
| MsgOrphanVariants (shop_name : option string) (count : nat) (pid : pykey)
    (variant_ids : list json)
| MsgUpsertFailed (count : nat) (table : string) (err : string)
| MsgSyncing (shop_name : string)
| MsgFetched (shop_name : string) (products variants : nat)
| MsgBuilt (shop_name : string) (products variants : nat)
| MsgDeletedProducts (count : nat)
| MsgDeletedVariants (count : nat)
| MsgLanguage (shop_name lang : string)
| MsgFilteredProducts (shop_name : string) (count : Z)
| MsgFilteredVariants (shop_name : string) (count : Z)
| MsgShopError (shop_name : string) (err : string)
| MsgComplete.

(** ** API helpers *)

Definition LIMIT : nat := 250.
Definition MAX_RETRIES : nat := 3.

Definition normalize_image (img : json) : json :=
  match img with
  | JDict d =>
      JDict [("title", dict_get d "title" JNull);
             ("thumb", dict_get d "thumb" JNull);
             ("src", dict_get d "src" JNull)]
  | _ => JNull
  end.

(** What the request of a page comes to.  [HttpFail]: [requests.get] or
    [raise_for_status] raised, which the retry handler catches.  Otherwise the
    retry loop is left and the body is read outside of it: [HttpOk] is the
    list of objects found under the collection key of the JSON body (an
    absent key, or a falsy value such as null, reads as the empty list);
    [HttpBad] is the exception raised by [r.json()], by [.get] on a body that
    is not an object, or by the loop over a collection that is not a list of
    objects.  Nothing catches it and no further attempt is made. *)
Inductive response : Type :=
| HttpFail (err : string)
| HttpOk (batch : list pydict)
| HttpBad (e : exn).

(** A remote collection answers the request for a page at a given attempt.
    One fetch asks for every (page, attempt) pair at most once. *)
Definition source : Type := nat -> nat -> response.

Inductive event : Type :=
| Request (page attempt : nat)
| Sleep (seconds : Z)
| Print (m : msg).

(** The [for attempt in range(MAX_RETRIES)] loop around one page request. *)
Fixpoint request_page (src : source) (page : nat) (attempts : list nat)
  : list event * result (list pydict) :=
  match attempts with
  | [] => ([], Raise (UnboundLocalError "r"))
  | attempt :: rest =>
      match src page attempt with
      | HttpOk batch => ([Request page attempt], Ok batch)
      | HttpBad e => ([Request page attempt], Raise e)
      | HttpFail e =>
          if Nat.eqb attempt (MAX_RETRIES - 1)
          then ([Request page attempt], Raise (RequestException e))
          else
            let wait_time := (2 ^ Z.of_nat attempt)%Z in
            let '(tr, r) := request_page src page rest in
            (Request page attempt
               :: Print (MsgRetry (attempt + 1) MAX_RETRIES wait_time e)
               :: Sleep wait_time :: tr, r)
      end
  end.

Definition normalize_entity (p : pydict) : pydict :=
  dict_set p "image" (normalize_image (dict_get p "image" JNull)).

(** The [while True] paging loop.  [None] is the loop still running when the
    fuel is spent. *)
Fixpoint fetch_pages (fuel : nat) (src : source) (page : nat) (acc : list pydict)
  : option (list event * result (list pydict)) :=
  match fuel with
  | O => None
  | S fuel' =>
      let '(tr, r) := request_page src page (seq 0 MAX_RETRIES) in
      match r with
      | Raise e => Some (tr, Raise e)
      | Ok batch =>
          match batch with
          | [] => Some (tr, Ok acc)
          | _ :: _ =>
              let acc' := acc ++ List.map normalize_entity batch in
              if Nat.ltb (List.length batch) LIMIT
              then Some (tr, Ok acc')
              else
                match fetch_pages fuel' src (S page) acc' with
                | None => None
                | Some (tr', r') => Some (tr ++ tr', r')
                end
          end
      end
  end.

Inductive collection : Type := Products | Variants.

(** The remote API: language, collection and credentials select a source. *)
Definition remote : Type := string -> collection -> string * string -> source.

Definition fetch_products (api : remote) (fuel : nat) (lang api_key api_secret : string) :=
  fetch_pages fuel (api lang Products (api_key, api_secret)) 1 [].

Definition fetch_variants (api : remote) (fuel : nat) (lang api_key api_secret : string) :=
  fetch_pages fuel (api lang Variants (api_key, api_secret)) 1 [].

(** ** Joining variants to products *)

(** [result] versions of a list comprehension that may raise. *)
Fixpoint map_result {A B} (f : A -> result B) (l : list A) : result (list B) :=
  match l with
  | [] => Ok []
  | a :: rest =>
      rbind (f a) (fun b => rbind (map_result f rest) (fun bs => Ok (b :: bs)))
  end.

(** [v.get("product", {}).get("resource", {}).get("id")]. *)
Definition variant_pid (v : pydict) : result json :=
  rbind (json_get (dict_get v "product" (JDict [])) "resource" (JDict []))
        (fun resource => json_get resource "id" JNull).

(** [by_product], a [defaultdict(list)]: groups in order of first insertion. *)
Abbreviation groups := (list (pykey * list pydict)).

(** [by_product[k].append(v)]. *)
Fixpoint group_append (g : groups) (k : pykey) (v : pydict) : groups :=
  match g with
  | [] => [(k, [v])]
  | (k', vs) :: rest =>
      if decide (k' = k) then (k', vs ++ [v]) :: rest
      else (k', vs) :: group_append rest k v
  end.

(** [by_product.get(k, [])]. *)
Fixpoint group_get (g : groups) (k : pykey) : list pydict :=
  match g with
  | [] => []
  | (k', vs) :: rest => if decide (k' = k) then vs else group_get rest k
  end.

(** The first loop of [attach_variants].  It returns the groups together with
    the caller's [variants] list as the loop leaves it: a grouped variant has
    lost its "product" entry, the others are unchanged. *)
Fixpoint group_variants (variants : list pydict) (by_product : groups)
  : result (groups * list pydict) :=
  match variants with
  | [] => Ok (by_product, [])
  | v :: rest =>
      rbind (variant_pid v) (fun pid =>
        if truthy pid then
          let v' := dict_pop v "product" in
          rbind (hash_key pid) (fun k =>
            rbind (group_variants rest (group_append by_product k v'))
                  (fun '(g, vs) => Ok (g, v' :: vs)))
        else
          rbind (group_variants rest by_product)
                (fun '(g, vs) => Ok (g, v :: vs)))
  end.

(** [p["id"]] used as a set element or dictionary key. *)
Definition entity_key (p : pydict) : result pykey :=
  rbind (dict_getitem p "id") hash_key.

(** [{p["id"] for p in products}]. *)
Definition id_set (products : list pydict) : result (gset pykey) :=
  rbind (map_result entity_key products) (fun ks => Ok (list_to_set ks)).

(** A product after [p["variants"] = ...]: the dictionary and the list now
    stored under its "variants" key. *)
Record attached : Type := Attached {
  product : pydict;
  variants_of : list pydict
}.

Definition attach_one (by_product : groups) (p : pydict) : result attached :=
  rbind (entity_key p) (fun k => Ok (Attached p (group_get by_product k))).

(** [f"[{shop_name}] " if shop_name else ""]: the name that gets printed. *)
Definition shop_prefix (shop_name : option string) : option string :=
  match shop_name with
  | Some s => if String.eqb s "" then None else Some s
  | None => None
  end.

(** The warning loop over [by_product.items()]. *)
Fixpoint report_orphans (shop_name : option string) (product_ids : gset pykey)
    (by_product : groups) : list msg * result unit :=
  match by_product with
  | [] => ([], Ok tt)
  | (pid, variants_list) :: rest =>
      if decide (pid ∈ product_ids) then report_orphans shop_name product_ids rest
      else
        match map_result (fun v => dict_getitem v "id") variants_list with
        | Raise e => ([], Raise e)
        | Ok ids =>
            let '(out, r) := report_orphans shop_name product_ids rest in
            (MsgOrphanVariants (shop_prefix shop_name) (List.length variants_list) pid ids
               :: out, r)
        end
  end.

(** [attach_variants(products, variants, shop_name)].  The result carries the
    returned products and the caller's [variants] list after the call. *)
Definition attach_variants (products variants : list pydict) (shop_name : option string)
  : list msg * result (list attached * list pydict) :=
  match group_variants variants [] with
  | Raise e => ([], Raise e)
  | Ok (by_product, variants') =>
      match id_set products with
      | Raise e => ([], Raise e)
      | Ok product_ids =>
          match map_result (attach_one by_product) products with
          | Raise e => ([], Raise e)
          | Ok products' =>
              let '(out, r) := report_orphans shop_name product_ids by_product in
              (out, rbind r (fun _ => Ok (products', variants')))
          end
      end
  end.

(** ** The store

    A table is a list of rows and a row is a dictionary.  Column values are
    compared through [key_of].  The store has no triggers, cascades or
    constraints of its own; a request fails when the environment says so. *)

Abbreviation row := pydict.

Inductive db_op : Type :=
| DbUpsert (table : string) (rows : list row) (on_conflict : list string)
| DbSelect (table column : string) (shop_id : pykey)
| DbDelete (table : string) (shop_id : pykey) (column : string) (ids : list pykey)
| DbInsert (table : string) (r : row)
| DbUpdate (table : string) (fields : row) (id : json).

Definition table_rows (d : gmap string (list row)) (t : string) : list row :=
  default [] (d !! t).

Definition column_key (r : row) (c : string) : option pykey :=
  match dict_lookup r c with
  | Some v => key_of v
  | None => None
  end.

Definition column_is (r : row) (c : string) (k : pykey) : bool :=
  bool_decide (column_key r c = Some k).

Definition column_in (r : row) (c : string) (ks : list pykey) : bool :=
  match column_key r c with
  | Some k => bool_decide (k ∈ ks)
  | None => false
  end.

Definition merge_row (old new : row) : row :=
  fold_left (fun acc kv => dict_set acc (fst kv) (snd kv)) new old.

Fixpoint upsert_row (cols : list string) (new : row) (tbl : list row) : list row :=
  match tbl with
  | [] => [new]
  | r :: rest =>
      if decide (List.map (column_key r) cols = List.map (column_key new) cols)
      then merge_row r new :: rest
      else r :: upsert_row cols new rest
  end.

Definition upsert_rows (cols : list string) (rows tbl : list row) : list row :=
  fold_left (fun t r => upsert_row cols r t) rows tbl.

(** A serial identifier that no row of the table carries. *)
Definition fresh_id (tbl : list row) : Z :=
  fold_left (fun m r => match column_key r "id" with
                        | Some (KInt n) => Z.max m (n + 1)
                        | _ => m
                        end) tbl 1%Z.

Definition deleted_by (shop_id : pykey) (column : string) (ids : list pykey) (r : row) : bool :=
  column_is r "shop_id" shop_id && column_in r column ids.

Definition updated_by (id : json) (r : row) : bool :=
  match key_of id with
  | Some k => column_is r "id" k
  | None => false
  end.

(** The effect of a request that succeeds: returned data and new tables. *)
Definition db_apply (op : db_op) (d : gmap string (list row))
  : list row * gmap string (list row) :=
  match op with
  | DbUpsert t rows cols =>
      (rows, <[t := upsert_rows cols rows (table_rows d t)]> d)
  | DbSelect t column shop_id =>
      (List.map (fun r => [(column, dict_get r column JNull)])
         (List.filter (fun r => column_is r "shop_id" shop_id) (table_rows d t)), d)
  | DbDelete t shop_id column ids =>
      ([], <[t := List.filter (fun r => negb (deleted_by shop_id column ids r))
                    (table_rows d t)]> d)
  | DbInsert t r =>
      let r' := dict_set r "id" (JInt (fresh_id (table_rows d t))) in
      ([r'], <[t := table_rows d t ++ [r']]> d)
  | DbUpdate t fields id =>
      ([], <[t := List.map (fun r => if updated_by id r then merge_row r fields else r)
                    (table_rows d t)]> d)
  end.

(** ** The environment of a run and its state *)

Record environment : Type := Environment {
  getenv : string -> option string;
  api : remote;
  (** The [n]-th request sent to the store fails with this message. *)
  db_fault : nat -> db_op -> option string
}.

(** The [metrics] dictionary of [sync_shop]: its seven keys never change. *)
Inductive metric : Type :=
| ProductsFetched | VariantsFetched | ProductsSynced | VariantsSynced
| ProductsDeleted | VariantsDeleted | VariantsFiltered.

Record counters : Type := Counters {
  products_fetched : Z;
  variants_fetched : Z;
  products_synced : Z;
  variants_synced : Z;
  products_deleted : Z;
  variants_deleted : Z;
  variants_filtered : Z
}.

Definition set_counter (k : metric) (v : Z) (c : counters) : counters :=
  match k with
  | ProductsFetched =>
      Counters v (variants_fetched c) (products_synced c) (variants_synced c)
               (products_deleted c) (variants_deleted c) (variants_filtered c)
  | VariantsFetched =>
      Counters (products_fetched c) v (products_synced c) (variants_synced c)
               (products_deleted c) (variants_deleted c) (variants_filtered c)
  | ProductsSynced =>
      Counters (products_fetched c) (variants_fetched c) v (variants_synced c)
               (products_deleted c) (variants_deleted c) (variants_filtered c)
  | VariantsSynced =>
      Counters (products_fetched c) (variants_fetched c) (products_synced c) v
               (products_deleted c) (variants_deleted c) (variants_filtered c)
  | ProductsDeleted =>
      Counters (products_fetched c) (variants_fetched c) (products_synced c)
               (variants_synced c) v (variants_deleted c) (variants_filtered c)
  | VariantsDeleted =>
      Counters (products_fetched c) (variants_fetched c) (products_synced c)
               (variants_synced c) (products_deleted c) v (variants_filtered c)
  | VariantsFiltered =>
      Counters (products_fetched c) (variants_fetched c) (products_synced c)
               (variants_synced c) (products_deleted c) (variants_deleted c) v
  end.

(** [**metrics] inside a dictionary display. *)
Definition metrics_fields (c : counters) : pydict :=
  [("products_fetched", JInt (products_fetched c));
   ("variants_fetched", JInt (variants_fetched c));
   ("products_synced", JInt (products_synced c));
   ("variants_synced", JInt (variants_synced c));
   ("products_deleted", JInt (products_deleted c));
   ("variants_deleted", JInt (variants_deleted c));
   ("variants_filtered", JInt (variants_filtered c))].

Record state : Type := State {
  db : gmap string (list row);
  requests : list db_op;     (* requests sent to the store, oldest first *)
  output : list msg;         (* printed lines, oldest first *)
  metrics : counters         (* the [metrics] of the shop that is running *)
}.

(** Computations over the state that may raise; [None] is a paging loop that
    outlives the fuel.  A raised exception keeps the state reached. *)
Definition M (A : Type) : Type := state -> option (result A * state).

Definition ret {A} (a : A) : M A := fun st => Some (Ok a, st).

Definition raise {A} (e : exn) : M A := fun st => Some (Raise e, st).

Definition bind {A B} (m : M A) (k : A -> M B) : M B := fun st =>
  match m st with
  | None => None
  | Some (Raise e, st') => Some (Raise e, st')
  | Some (Ok a, st') => k a st'
  end.

(** [try: m  except Exception as e: h e]. *)
Definition try_except {A} (m : M A) (h : exn -> M A) : M A := fun st =>
  match m st with
  | Some (Raise e, st') => h e st'
  | other => other
  end.

Definition lift {A} (r : result A) : M A := fun st => Some (r, st).

Notation "x <- c1 ;; c2" := (bind c1 (fun x => c2))
  (at level 100, c1 at next level, right associativity).
Notation "c1 ;; c2" := (bind c1 (fun _ => c2))
  (at level 100, right associativity).

Definition print (m : msg) : M unit := fun st =>
  Some (Ok tt, State (db st) (requests st) (output st ++ [m]) (metrics st)).

Definition print_all (ms : list msg) : M unit := fun st =>
  Some (Ok tt, State (db st) (requests st) (output st ++ ms) (metrics st)).

(** [metrics[k] = v]. *)
Definition set_metric (k : metric) (v : Z) : M unit := fun st =>
  Some (Ok tt, State (db st) (requests st) (output st) (set_counter k v (metrics st))).

Definition get_metrics : M counters := fun st => Some (Ok (metrics st), st).

Definition init_metrics : M unit := fun st =>
  Some (Ok tt, State (db st) (requests st) (output st) (Counters 0 0 0 0 0 0 0)).

(** [....execute()]: the request is sent; it fails or takes effect. *)
Definition db_execute (env : environment) (op : db_op) : M (list row) := fun st =>
  let sent := requests st ++ [op] in
  match db_fault env (List.length (requests st)) op with
  | Some err => Some (Raise (APIError err), State (db st) sent (output st) (metrics st))
  | None =>
      let '(data, d') := db_apply op (db st) in
      Some (Ok data, State d' sent (output st) (metrics st))
  end.

(** ** DB helpers *)

Definition bulk_upsert (env : environment) (table : string) (rows : list row)
    (conflict_cols : list string) : M unit :=
  match rows with
  | [] => ret tt
  | _ :: _ =>
      try_except
        (_ <- db_execute env (DbUpsert table rows conflict_cols) ;; ret tt)
        (fun e =>
           print (MsgUpsertFailed (List.length rows) table (exn_str e)) ;;
           raise e)
  end.

(** ** Sync one shop *)

Record language : Type := Language {
  code : string;
  is_active : bool;
  is_default : bool
}.

Record shop : Type := Shop {
  shop_id : pykey;
  shop_name : string;
  tld : string;
  shop_languages : list language
}.

Definition upper_ascii (c : ascii) : ascii :=
  let n := nat_of_ascii c in
  if Nat.leb 97 n && Nat.leb n 122 then ascii_of_nat (n - 32) else c.

(** [str.upper()] on ASCII text: the letters a to z are mapped to A to Z and
    every other character is kept.  On text with other characters
    [str.upper()] does more, and [upper] does not follow it. *)
Fixpoint upper (s : string) : string :=
  match s with
  | EmptyString => EmptyString
  | String c rest => String (upper_ascii c) (upper rest)
  end.

(** The text on which [upper] is [str.upper()]. *)
Fixpoint ascii_text (s : string) : bool :=
  match s with
  | EmptyString => true
  | String c rest => Nat.ltb (nat_of_ascii c) 128 && ascii_text rest
  end.

(** [not x] for the value of [os.getenv]. *)
Definition env_missing (v : option string) : bool :=
  match v with
  | None => true
  | Some s => String.eqb s ""
  end.

Definition resolve_credentials (env : environment) (s : shop) : result (string * string) :=
  let t := upper (tld s) in
  let api_key := getenv env ("LIGHTSPEED_API_KEY_" +:+ t) in
  let api_secret := getenv env ("LIGHTSPEED_API_SECRET_" +:+ t) in
  if env_missing api_key || env_missing api_secret
  then Raise (RuntimeError ("Missing API credentials for shop TLD=" +:+ t))
  else Ok (default "" api_key, default "" api_secret).

(** [next(l["code"] for l in languages if l["is_default"])]. *)
Definition base_language (languages : list language) : result string :=
  match List.find is_default languages with
  | Some l => Ok (code l)
  | None => Raise StopIteration
  end.

Definition active_languages (languages : list language) : list string :=
  List.map code (List.filter is_active languages).

Definition prints (tr : list event) : list msg :=
  flat_map (fun ev => match ev with Print m => [m] | _ => [] end) tr.

(** The two fetches of one language run on two threads and the block waits
    for both; the products result is read first.  The retry warnings of the
    products fetch are listed before those of the variants fetch. *)
Definition fetch_both (env : environment) (fuel : nat) (lang api_key api_secret : string)
  : M (list pydict * list pydict) := fun st =>
  match fetch_products (api env) fuel lang api_key api_secret,
        fetch_variants (api env) fuel lang api_key api_secret with
  | Some (trp, rp), Some (trv, rv) =>
      Some (rbind rp (fun products => rbind rv (fun variants => Ok (products, variants))),
            State (db st) (requests st) (output st ++ prints trp ++ prints trv) (metrics st))
  | _, _ => None
  end.

Definition product_row (s : shop) (p : pydict) : result row :=
  rbind (dict_getitem p "id") (fun pid =>
  Ok [("shop_id", json_of_key (shop_id s));
      ("lightspeed_product_id", pid);
      ("visibility", dict_get p "visibility" JNull);
      ("image", dict_get p "image" JNull);
      ("ls_created_at", dict_get p "createdAt" JNull);
      ("ls_updated_at", dict_get p "updatedAt" JNull)]).

Definition content_row (s : shop) (lang : string) (p : pydict) : result row :=
  rbind (dict_getitem p "id") (fun pid =>
  Ok [("shop_id", json_of_key (shop_id s));
      ("lightspeed_product_id", pid);
      ("language_code", JStr lang);
      ("url", dict_get p "url" JNull);
      ("title", dict_get p "title" JNull);
      ("fulltitle", dict_get p "fulltitle" JNull);
      ("description", dict_get p "description" JNull);
      ("content", dict_get p "content" JNull)]).

Definition variant_row (s : shop) (p v : pydict) : result row :=
  rbind (dict_getitem p "id") (fun pid =>
  rbind (dict_getitem v "id") (fun vid =>
  rbind (dict_getitem v "sku") (fun sku =>
  Ok [("shop_id", json_of_key (shop_id s));
      ("lightspeed_product_id", pid);
      ("lightspeed_variant_id", vid);
      ("sku", sku);
      ("is_default", dict_get v "isDefault" JNull);
      ("price_excl", dict_get v "priceExcl" JNull);
      ("image", dict_get v "image" JNull)]))).

Definition variant_content_row (s : shop) (lang : string) (v : pydict) : result row :=
  rbind (dict_getitem v "id") (fun vid =>
  Ok [("shop_id", json_of_key (shop_id s));
      ("lightspeed_variant_id", vid);
      ("language_code", JStr lang);
      ("title", dict_get v "title" JNull)]).

Record built_rows : Type := Built {
  product_rows : list row;
  content_rows : list row;
  variant_rows : list row;
  variant_content_rows : list row
}.

(** The inner [for v in p["variants"]] loop: both rows of every variant. *)
Fixpoint build_variant_rows (s : shop) (base_lang : string) (p : pydict) (vs : list pydict)
  : result (list row * list row) :=
  match vs with
  | [] => Ok ([], [])
  | v :: rest =>
      rbind (variant_row s p v) (fun vr =>
      rbind (variant_content_row s base_lang v) (fun vcr =>
      rbind (build_variant_rows s base_lang p rest) (fun '(vrs, vcrs) =>
      Ok (vr :: vrs, vcr :: vcrs))))
  end.

(** The [for p in products] loop that fills the four row lists. *)
Fixpoint build_rows (s : shop) (base_lang : string) (products : list attached)
  : result built_rows :=
  match products with
  | [] => Ok (Built [] [] [] [])
  | p :: rest =>
      rbind (product_row s (product p)) (fun pr =>
      rbind (content_row s base_lang (product p)) (fun cr =>
      rbind (build_variant_rows s base_lang (product p) (variants_of p)) (fun '(vrs, vcrs) =>
      rbind (build_rows s base_lang rest) (fun b =>
      Ok (Built (pr :: product_rows b) (cr :: content_rows b)
                (vrs ++ variant_rows b) (vcrs ++ variant_content_rows b))))))
  end.

(** [{r[column] for r in rows}]. *)
Definition column_set (column : string) (rows : list row) : result (gset pykey) :=
  rbind (map_result (fun r => rbind (dict_getitem r column) hash_key) rows)
        (fun ks => Ok (list_to_set ks)).

(** One cleanup block: read the stored ids of the shop, subtract the ids of
    this run, delete the difference when it is not empty. *)
Definition cleanup (env : environment) (s : shop) (table column : string) (metric : metric)
    (deleted : nat -> msg) (api_ids : gset pykey) : M unit :=
  existing <- db_execute env (DbSelect table column (shop_id s)) ;;
  existing_ids <- lift (column_set column existing) ;;
  let orphaned := existing_ids ∖ api_ids in
  if decide (orphaned = ∅) then ret tt
  else
    _ <- db_execute env (DbDelete table (shop_id s) column (elements orphaned)) ;;
    set_metric metric (Z.of_nat (size orphaned)) ;;
    print (deleted (size orphaned)).

(** The cleanup section.  It returns the two id sets it computed, which the
    source goes on to use as [valid_product_ids] and [valid_variant_ids]. *)
Definition cleanup_orphans (env : environment) (s : shop) (products : list attached)
    (b : built_rows) : M (gset pykey * gset pykey) :=
  api_product_ids <- lift (id_set (List.map product products)) ;;
  cleanup env s "products" "lightspeed_product_id" ProductsDeleted
          MsgDeletedProducts api_product_ids ;;
  api_variant_ids <- lift (column_set "lightspeed_variant_id" (variant_rows b)) ;;
  cleanup env s "variants" "lightspeed_variant_id" VariantsDeleted
          MsgDeletedVariants api_variant_ids ;;
  ret (api_product_ids, api_variant_ids).

(** A list comprehension with a membership condition on [x["id"]]. *)
Fixpoint rows_if_valid (valid : gset pykey) (mk : pydict -> result row) (xs : list pydict)
  : result (list row) :=
  match xs with
  | [] => Ok []
  | x :: rest =>
      rbind (entity_key x) (fun k =>
        if decide (k ∈ valid)
        then rbind (mk x) (fun r =>
             rbind (rows_if_valid valid mk rest) (fun rs => Ok (r :: rs)))
        else rows_if_valid valid mk rest)
  end.

Definition filtered_count (fetched : list pydict) (rows : list row) : Z :=
  (Z.of_nat (List.length fetched) - Z.of_nat (List.length rows))%Z.

(** The body of the secondary language loop for a language other than the
    base language. *)
Definition sync_language (env : environment) (fuel : nat) (s : shop)
    (api_key api_secret : string) (valid_product_ids valid_variant_ids : gset pykey)
    (lang : string) : M unit :=
  print (MsgLanguage (shop_name s) lang) ;;
  fetched <- fetch_both env fuel lang api_key api_secret ;;
  let '(localized_products, localized_variants) := fetched in
  localized_product_rows <-
    lift (rows_if_valid valid_product_ids (content_row s lang) localized_products) ;;
  localized_variant_rows <-
    lift (rows_if_valid valid_variant_ids (variant_content_row s lang) localized_variants) ;;
  let filtered_products := filtered_count localized_products localized_product_rows in
  let filtered_variants := filtered_count localized_variants localized_variant_rows in
  (if Z.ltb 0 filtered_products
   then print (MsgFilteredProducts (shop_name s) filtered_products) else ret tt) ;;
  (if Z.ltb 0 filtered_variants
   then print (MsgFilteredVariants (shop_name s) filtered_variants) else ret tt) ;;
  bulk_upsert env "product_content" localized_product_rows
    ["shop_id"; "lightspeed_product_id"; "language_code"] ;;
  bulk_upsert env "variant_content" localized_variant_rows
    ["shop_id"; "lightspeed_variant_id"; "language_code"].

Fixpoint sync_languages (env : environment) (fuel : nat) (s : shop)
    (api_key api_secret base_lang : string) (valid_product_ids valid_variant_ids : gset pykey)
    (langs : list string) : M unit :=
  match langs with
  | [] => ret tt
  | lang :: rest =>
      (if String.eqb lang base_lang then ret tt
       else sync_language env fuel s api_key api_secret
              valid_product_ids valid_variant_ids lang) ;;
      sync_languages env fuel s api_key api_secret base_lang
        valid_product_ids valid_variant_ids rest
  end.

(** [len(variants) - sum(len(p["variants"]) for p in products)]. *)
Definition variants_filtered_count (variants : list pydict) (products : list attached) : Z :=
  (Z.of_nat (List.length variants)
   - fold_right Z.add 0%Z (List.map (fun p => Z.of_nat (List.length (variants_of p))) products))%Z.

(** The call of [attach_variants] inside the run: its warnings are printed,
    then it returns or raises. *)
Definition run_attach (products variants : list pydict) (name : string)
  : M (list attached * list pydict) := fun st =>
  let '(out, r) := attach_variants products variants (Some name) in
  Some (r, State (db st) (requests st) (output st ++ out) (metrics st)).

(** The [try] block of [sync_shop] up to the end of the language loop. *)
Definition sync_catalogue (env : environment) (fuel : nat) (s : shop) : M unit :=
  creds <- lift (resolve_credentials env s) ;;
  let '(api_key, api_secret) := creds in
  let languages := shop_languages s in
  base_lang <- lift (base_language languages) ;;
  let active_langs := active_languages languages in
  fetched <- fetch_both env fuel base_lang api_key api_secret ;;
  let '(products, variants) := fetched in
  set_metric ProductsFetched (Z.of_nat (List.length products)) ;;
  set_metric VariantsFetched (Z.of_nat (List.length variants)) ;;
  print (MsgFetched (shop_name s) (List.length products) (List.length variants)) ;;
  joined <- run_attach products variants (shop_name s) ;;
  let '(products, variants) := joined in
  set_metric VariantsFiltered (variants_filtered_count variants products) ;;
  b <- lift (build_rows s base_lang products) ;;
  print (MsgBuilt (shop_name s) (List.length (product_rows b)) (List.length (variant_rows b))) ;;
  set_metric ProductsSynced (Z.of_nat (List.length (product_rows b))) ;;
  set_metric VariantsSynced (Z.of_nat (List.length (variant_rows b))) ;;
  bulk_upsert env "products" (product_rows b) ["shop_id"; "lightspeed_product_id"] ;;
  bulk_upsert env "product_content" (content_rows b)
    ["shop_id"; "lightspeed_product_id"; "language_code"] ;;
  bulk_upsert env "variants" (variant_rows b) ["shop_id"; "lightspeed_variant_id"] ;;
  bulk_upsert env "variant_content" (variant_content_rows b)
    ["shop_id"; "lightspeed_variant_id"; "language_code"] ;;
  valid <- cleanup_orphans env s products b ;;
  let '(valid_product_ids, valid_variant_ids) := valid in
  sync_languages env fuel s api_key api_secret base_lang
    valid_product_ids valid_variant_ids active_langs.

Definition success_fields (m : counters) : row :=
  [("status", JStr "success"); ("completed_at", JStr "now()")] ++ metrics_fields m.

(** The update that ends the [try] block. *)
Definition close_success (env : environment) (log_id : json) : M unit :=
  m <- get_metrics ;;
  _ <- db_execute env (DbUpdate "sync_logs" (success_fields m) log_id) ;;
  ret tt.

(** The body of the [try] block of [sync_shop]. *)
Definition sync_shop_body (env : environment) (fuel : nat) (s : shop) (log_id : json)
  : M unit :=
  sync_catalogue env fuel s ;;
  close_success env log_id.

Definition error_fields (e : exn) (m : counters) : row :=
  [("status", JStr "error"); ("completed_at", JStr "now()");
   ("error_message", JStr (exn_str e))] ++ metrics_fields m.

(** The [except Exception as e] block of [sync_shop]. *)
Definition sync_shop_handler (env : environment) (log_id : json) (e : exn) : M unit :=
  m <- get_metrics ;;
  _ <- db_execute env (DbUpdate "sync_logs" (error_fields e m) log_id) ;;
  raise e.

Definition running_row (s : shop) : row :=
  [("shop_id", json_of_key (shop_id s)); ("status", JStr "running")].

(** [log_result.data[0]["id"]]. *)
Definition first_id (data : list row) : result json :=
  match data with
  | r :: _ => dict_getitem r "id"
  | [] => Raise (IndexError "list index out of range")
  end.

Definition sync_shop (env : environment) (fuel : nat) (s : shop) : M unit :=
  print (MsgSyncing (shop_name s)) ;;
  log_result <- db_execute env (DbInsert "sync_logs" (running_row s)) ;;
  log_id <- lift (first_id log_result) ;;
  init_metrics ;;
  try_except (sync_shop_body env fuel s log_id) (sync_shop_handler env log_id).

(** ** Entry point: all shops

    The shops run on one thread each.  The model runs them one after the
    other in roster order, each followed by the handling of its future: one
    of the schedules the thread pool admits. *)

Definition run_one (env : environment) (fuel : nat) (s : shop) : M unit :=
  try_except (sync_shop env fuel s)
    (fun e => print (MsgShopError (shop_name s) (exn_str e))).

Fixpoint run_shops (env : environment) (fuel : nat) (shops : list shop) : M unit :=
  match shops with
  | [] => ret tt
  | s :: rest => run_one env fuel s ;; run_shops env fuel rest
  end.

(** From the creation of the thread pool to the final banner; the roster has
    been read.  [ThreadPoolExecutor(max_workers=0)] raises. *)
Definition run_fleet (env : environment) (fuel : nat) (shops : list shop) : M unit :=
  match shops with
  | [] => raise (ValueError "max_workers must be greater than 0")
  | _ :: _ => run_shops env fuel shops ;; print MsgComplete
  end.

(** ** Vocabulary of the properties *)

(** What a fetch did, read off its trace. *)
Definition requests_of (tr : list event) : list (nat * nat) :=
  flat_map (fun ev => match ev with Request p a => [(p, a)] | _ => [] end) tr.

Definition sleeps_of (tr : list event) : list Z :=
  flat_map (fun ev => match ev with Sleep n => [n] | _ => [] end) tr.

(** A source on which every request fails. *)
Definition always_failing : source := fun _ _ => HttpFail "timed out".

(** A source with three full pages and nothing after them. *)
Definition three_full_pages : source := fun page _ =>
  if Nat.leb page 3 then HttpOk (repeat [("id", JInt (Z.of_nat page))] LIMIT)
  else HttpOk [].

(** The product key a variant is grouped under: its relation id when the
    [if pid:] test lets it through. *)
Definition relation_key (v : pydict) : option pykey :=
  match variant_pid v with
  | Ok pid => if truthy pid then key_of pid else None
  | Raise _ => None
  end.

Definition refers_to (k : pykey) (v : pydict) : bool :=
  bool_decide (relation_key v = Some k).

(** The relation id equals [k], whatever its truth value. *)
Definition pid_equals (k : pykey) (v : pydict) : bool :=
  match variant_pid v with
  | Ok pid => bool_decide (key_of pid = Some k)
  | Raise _ => false
  end.

(** The relation id is read without error and fails the [if pid:] test. *)
Definition unlinked (v : pydict) : bool :=
  match variant_pid v with
  | Ok pid => negb (truthy pid)
  | Raise _ => false
  end.

Definition strip (v : pydict) : pydict := dict_pop v "product".

Definition id_key (p : pydict) : option pykey :=
  match dict_lookup p "id" with
  | Some j => key_of j
  | None => None
  end.

Definition refers_to_product (p v : pydict) : bool :=
  match id_key p with
  | Some k => refers_to k v
  | None => false
  end.

(** Inputs on which [attach_variants] does not raise.  A product, or any
    entity looked up by id, carries a hashable id. *)
Definition has_id_key (p : pydict) : bool :=
  match id_key p with Some _ => true | None => false end.

(** A variant carries an id, and its relation, when present, is an object
    whose resource, when present, is an object with a hashable or false id. *)
Definition well_formed_variant (v : pydict) : bool :=
  match dict_lookup v "id", variant_pid v with
  | Some _, Ok pid => negb (truthy pid) || match key_of pid with Some _ => true | None => false end
  | _, _ => false
  end.

(** A variant as [attach_variants] leaves it in the caller's list. *)
Definition after_attach (v : pydict) : pydict :=
  match relation_key v with
  | Some _ => strip v
  | None => v
  end.

(** The line [attach_variants] prints for the variants that refer to [k]. *)
Definition orphan_warning (name : option string) (variants : list pydict) (k : pykey) : msg :=
  MsgOrphanVariants (shop_prefix name)
    (List.length (List.filter (refers_to k) variants)) k
    (List.map (fun w => dict_get w "id" JNull) (List.filter (refers_to k) variants)).

(** The product with the list [attach_variants] stores under "variants". *)
Definition joined (variants : list pydict) (p : pydict) : attached :=
  Attached p (List.map strip (List.filter (refers_to_product p) variants)).

(** A variant that no product of the list takes. *)
Definition unattached (products : list pydict) (v : pydict) : bool :=
  negb (existsb (fun p => refers_to_product p v) products).

(** Sample catalogue: five products and seven variants, two of which point
    to a sixth product that is not there. *)
Definition mk_product (n : Z) : pydict := [("id", JInt n); ("title", JStr "t")].

Definition mk_variant (n pid : Z) : pydict :=
  [("id", JInt n); ("sku", JStr "s");
   ("product", JDict [("resource", JDict [("id", JInt pid)])])].

Definition sample_products : list pydict := List.map mk_product [1; 2; 3; 4; 5]%Z.

Definition sample_variants : list pydict :=
  [mk_variant 11 1; mk_variant 12 1; mk_variant 13 2; mk_variant 14 3;
   mk_variant 15 5; mk_variant 16 6; mk_variant 17 6].

(** A variant without relation, and one whose relation id is 0. *)
Definition loose_variant : pydict := [("id", JInt 21); ("sku", JStr "s")].
Definition zero_variant : pydict := mk_variant 22 0.

(** A variant whose relation is [false], the way the remote API writes an
    absent sub-object. *)
Definition false_relation_variant : pydict :=
  [("id", JInt 23); ("sku", JStr "s"); ("product", JBool false)].

(** [sum(len(p["variants"]) for p in products)] after the join. *)
Definition attached_total (variants products : list pydict) : Z :=
  fold_right Z.add 0%Z
    (List.map (fun p => Z.of_nat (List.length (List.filter (refers_to_product p) variants)))
       products).

(** The table a request addresses. *)
Definition op_table (op : db_op) : string :=
  match op with
  | DbUpsert t _ _ => t
  | DbSelect t _ _ => t
  | DbDelete t _ _ _ => t
  | DbInsert t _ => t
  | DbUpdate t _ _ => t
  end.

(** [m] relates every state it starts in to the state it ends in. *)
Definition respects {A} (R : state -> state -> Prop) (m : M A) : Prop :=
  forall st r st', m st = Some (r, st') -> R st st'.

(** [m] ends, by returning or raising. *)
Definition total {A} (m : M A) : Prop := forall st, m st <> None.

(** The ids, in [column], of the rows of a shop in a table: what the cleanup
    reads back. *)
Definition stored_ids (d : gmap string (list row)) (table column : string) (shop : pykey)
  : gset pykey :=
  list_to_set
    (flat_map (fun r => match column_key r column with Some k => [k] | None => [] end)
       (List.filter (fun r => column_is r "shop_id" shop) (table_rows d table))).

(** The rows a delete with the id set [orphaned] leaves in place. *)
Definition surviving (shop : pykey) (column : string) (orphaned : gset pykey)
    (rows : list row) : list row :=
  List.filter (fun r => negb (deleted_by shop column (elements orphaned) r)) rows.

(** The row belongs to the shop and its id is in [orphaned]. *)
Definition doomed (shop : pykey) (column : string) (orphaned : gset pykey) (r : row) : Prop :=
  column_is r "shop_id" shop = true /\
  exists k, column_key r column = Some k /\ k ∈ orphaned.

(** The delete request of a cleanup block, if any. *)
Definition delete_request (table : string) (shop : pykey) (column : string)
    (orphaned : gset pykey) : list db_op :=
  if decide (orphaned = ∅) then [] else [DbDelete table shop column (elements orphaned)].

(** Every row of the shop carries a scalar id in [column]. *)
Definition keyed (d : gmap string (list row)) (table column : string) (shop : pykey) : Prop :=
  forall r, In r (table_rows d table) -> column_is r "shop_id" shop = true ->
            column_key r column <> None.

(** A store for the cleanup example: shop 1 holds products 1 to 5 (product 5
    just upserted) and variants 41 and 42, shop 2 holds products 1 and 4. *)
Definition stored_product (shop pid : Z) : row :=
  [("shop_id", JInt shop); ("lightspeed_product_id", JInt pid)].

Definition stored_variant (shop vid : Z) : row :=
  [("shop_id", JInt shop); ("lightspeed_variant_id", JInt vid)].

Definition cleanup_db : gmap string (list row) :=
  <["products" := [stored_product 1 1; stored_product 2 1; stored_product 1 2;
                   stored_product 1 3; stored_product 2 4; stored_product 1 4;
                   stored_product 1 5]]>
  (<["variants" := [stored_variant 1 41; stored_variant 1 42]]> ∅).

Definition cleanup_state : state := State cleanup_db [] [] (Counters 0 0 0 0 0 0 0).

Definition healthy_env : environment :=
  Environment (fun _ => None) (fun _ _ _ _ _ => HttpOk []) (fun _ _ => None).

Definition shop_one : shop :=
  Shop (KInt 1) "Shop NL" "nl" [Language "nl" true true; Language "de" true false].

(** The products fetched in the example: 2, 3 and 5, with one variant, 42. *)
Definition fetched_235 : list attached :=
  [Attached (mk_product 2) [[("id", JInt 42); ("sku", JStr "s")]];
   Attached (mk_product 3) []; Attached (mk_product 5) []].

Definition built_235 : built_rows :=
  match build_rows shop_one "nl" fetched_235 with
  | Ok b => b
  | Raise _ => Built [] [] [] []
  end.



(** The request of a [bulk_upsert], if any, and its effect on the tables. *)
Definition upsert_request (table : string) (rows : list row) (cols : list string)
  : list db_op :=
  match rows with
  | [] => []
  | _ :: _ => [DbUpsert table rows cols]
  end.

Definition after_upsert (table : string) (rows : list row) (cols : list string)
    (d : gmap string (list row)) : gmap string (list row) :=
  match rows with
  | [] => d
  | _ :: _ => <[table := upsert_rows cols rows (table_rows d table)]> d
  end.


(** The remote of the language example: the base language "nl" has products
    10 and 11 and three variants, one of them of an unknown product 12; the
    language "de" has products 10, 11 and 12 and the same variants. *)
Definition demo_getenv (k : string) : option string :=
  if String.eqb k "LIGHTSPEED_API_KEY_NL" then Some "key"
  else if String.eqb k "LIGHTSPEED_API_SECRET_NL" then Some "secret"
  else None.

Definition demo_api : remote := fun lang coll _ page _ =>
  if Nat.eqb page 1 then
    match coll with
    | Products =>
        if String.eqb lang "nl" then HttpOk [mk_product 10; mk_product 11]
        else HttpOk [mk_product 10; mk_product 11; mk_product 12]
    | Variants =>
        HttpOk [mk_variant 100 10; mk_variant 101 11; mk_variant 102 12]
    end
  else HttpOk [].

Definition demo_env : environment := Environment demo_getenv demo_api (fun _ _ => None).

Definition empty_state : state := State ∅ [] [] (Counters 0 0 0 0 0 0 0).

(** The identifier the store gives the audit row of a run that starts in
    [st], the row as inserted, and the state in which the [try] block is
    entered. *)
Definition audit_id (st : state) : json :=
  JInt (fresh_id (table_rows (db st) "sync_logs")).

Definition audit_row (s : shop) (st : state) : row :=
  dict_set (running_row s) "id" (audit_id st).

Definition opened (s : shop) (st : state) : state :=
  State (<["sync_logs" := table_rows (db st) "sync_logs" ++ [audit_row s st]]> (db st))
        (requests st ++ [DbInsert "sync_logs" (running_row s)])
        (output st ++ [MsgSyncing (shop_name s)])
        (Counters 0 0 0 0 0 0 0).

(** The audit row of a failed run. *)
Definition error_row (s : shop) (id : json) (e : exn) (m : counters) : row :=
  [("shop_id", json_of_key (shop_id s)); ("status", JStr "error"); ("id", id);
   ("completed_at", JStr "now()"); ("error_message", JStr (exn_str e))]
  ++ metrics_fields m.

(** The relation "the audit table is left as it was". *)
Definition same_logs (a b : state) : Prop :=
  table_rows (db b) "sync_logs" = table_rows (db a) "sync_logs".

(** A variant that lacks one of the two required keys. *)
Definition lacks_required (v : pydict) : bool :=
  match dict_lookup v "id", dict_lookup v "sku" with
  | Some _, Some _ => false
  | _, _ => true
  end.

(** Environments of the failure examples: the remote of the language
    example with a store that rejects every upsert into [variants], and a
    remote on which every request fails. *)
Definition failing_upsert_env : environment :=
  Environment demo_getenv demo_api
    (fun _ op => match op with
                 | DbUpsert t _ _ => if String.eqb t "variants" then Some "constraint violated"
                                     else None
                 | _ => None
                 end).

Definition failing_fetch_env : environment :=
  Environment demo_getenv (fun _ _ _ => always_failing) (fun _ _ => None).

(** The state in which the [try] block of the upsert example raises. *)
Definition upsert_failure_state : state :=
  match sync_shop_body failing_upsert_env 2 shop_one (audit_id empty_state)
          (opened shop_one empty_state) with
  | Some (_, st1) => st1
  | None => empty_state
  end.

(** A catalogue whose second variant has no SKU. *)
Definition no_sku_api : remote := fun lang coll _ page _ =>
  if Nat.eqb page 1 then
    match coll with
    | Products => HttpOk [mk_product 10]
    | Variants =>
        HttpOk [mk_variant 100 10;
                [("id", JInt 101);
                 ("product", JDict [("resource", JDict [("id", JInt 10)])])]]
    end
  else HttpOk [].

Definition no_sku_env : environment := Environment demo_getenv no_sku_api (fun _ _ => None).

(** The request of this page ends the paging loop: it raises, or it returns
    fewer entities than a full page. *)
Definition page_ends (src : source) (page : nat) : bool :=
  match snd (request_page src page (seq 0 MAX_RETRIES)) with
  | Raise _ => true
  | Ok batch => Nat.ltb (List.length batch) LIMIT
  end.

Definition ends_within (src : source) (fuel : nat) : Prop :=
  exists page, 1 <= page <= fuel /\ page_ends src page = true.

(** Every collection of the remote ends within [fuel] pages. *)
Definition finite_api (env : environment) (fuel : nat) : Prop :=
  forall lang coll creds, ends_within (api env lang coll creds) fuel.

(** The state after the entry point has handled the future of a shop. *)
Definition after_handling (s : shop) (r : result unit) (st : state) : state :=
  match r with
  | Ok _ => st
  | Raise e =>
      State (db st) (requests st)
            (output st ++ [MsgShopError (shop_name s) (exn_str e)]) (metrics st)
  end.

(** The run of a roster, shop by shop, with the outcome of every pipeline. *)
Inductive fleet_run (env : environment) (fuel : nat)
  : list shop -> state -> list (shop * result unit) -> state -> Prop :=
| fleet_done (st : state) : fleet_run env fuel [] st [] st
| fleet_step (s : shop) (rest : list shop) (st st1 st2 : state) (r : result unit)
    (outcomes : list (shop * result unit)) :
    sync_shop env fuel s st = Some (r, st1) ->
    fleet_run env fuel rest (after_handling s r st1) outcomes st2 ->
    fleet_run env fuel (s :: rest) st ((s, r) :: outcomes) st2.

(** Requests and printed lines are only ever added. *)
Definition grows (a b : state) : Prop :=
  (forall op, In op (requests a) -> In op (requests b)) /\
  (forall m, In m (output a) -> In m (output b)).

(** Three shops; the remote refuses every request made with the credentials
    of the second. *)
Definition fleet_getenv (k : string) : option string :=
  if String.eqb k "LIGHTSPEED_API_KEY_NL" then Some "key_nl"
  else if String.eqb k "LIGHTSPEED_API_KEY_DE" then Some "key_de"
  else if String.eqb k "LIGHTSPEED_API_KEY_FR" then Some "key_fr"
  else if String.eqb k "LIGHTSPEED_API_SECRET_NL" then Some "secret"
  else if String.eqb k "LIGHTSPEED_API_SECRET_DE" then Some "secret"
  else if String.eqb k "LIGHTSPEED_API_SECRET_FR" then Some "secret"
  else None.

Definition fleet_api : remote := fun lang coll creds =>
  if String.eqb (fst creds) "key_de" then always_failing else demo_api lang coll creds.

Definition fleet_env : environment := Environment fleet_getenv fleet_api (fun _ _ => None).

Definition fleet_shops : list shop :=
  [Shop (KInt 1) "Shop NL" "nl" [Language "nl" true true];
   Shop (KInt 2) "Shop DE" "de" [Language "de" true true];
   Shop (KInt 3) "Shop FR" "fr" [Language "fr" true true]].

(** A store that still holds variant 102 of shop 1 from an earlier run. *)
Definition orphan_store : state :=
  State (<["variants" := [stored_variant 1 100; stored_variant 1 102]]> ∅) [] []
        (Counters 0 0 0 0 0 0 0).

(** The remote of the language example with two more variants in the base
    language: one without relation and one whose relation id is 0. *)
Definition unlinked_api : remote := fun lang coll creds page attempt =>
  match coll with
  | Variants =>
      if Nat.eqb page 1
      then HttpOk [mk_variant 100 10; mk_variant 101 11; mk_variant 102 12;
                   loose_variant; zero_variant]
      else HttpOk []
  | Products => demo_api lang coll creds page attempt
  end.

Definition unlinked_env : environment :=
  Environment demo_getenv unlinked_api (fun _ _ => None).

(** The language example on a store that refuses every delete. *)
Definition failing_delete_env : environment :=
  Environment demo_getenv demo_api
    (fun _ op => match op with
                 | DbDelete _ _ _ _ => Some "permission denied"
                 | _ => None
                 end).

(** ** Vocabulary of the further properties *)

(** An image as [normalize_image] leaves it: null, or an object with exactly
    the keys title, thumb and src, in that order. *)
Definition image_normal (j : json) : Prop :=
  j = JNull \/
  exists title thumb src, j = JDict [("title", title); ("thumb", thumb); ("src", src)].

(** An entity as a fetch returns it: the "image" key is there and normal. *)
Definition entity_normal (p : pydict) : Prop :=
  exists img, dict_lookup p "image" = Some img /\ image_normal img.

(** The answer that counts for a page: the first success among the three
    attempts, or else the failure of the third. *)
Definition first_success (src : source) (page : nat) : response :=
  match src page 0 with
  | HttpFail _ =>
      match src page 1 with
      | HttpFail _ => src page 2
      | answer => answer
      end
  | answer => answer
  end.

(** The source that gives that answer at every attempt. *)
Definition settled (src : source) : source := fun page _ => first_success src page.

(** A source that always has one more full page. *)
Definition endless : source := fun _ _ => HttpOk (repeat [("id", JInt 1)] LIMIT).

(** A source that fails once on every page, with two pages of data. *)
Definition flaky : source := fun page attempt =>
  match attempt with
  | 0 => HttpFail "connection reset"
  | _ => if Nat.eqb page 1 then HttpOk (repeat [("id", JInt 1)] LIMIT)
         else if Nat.eqb page 2 then HttpOk [[("id", JInt 2); ("image", JBool false)]]
         else HttpOk []
  end.

(** A row of the shop: its first entry is the shop id and no later entry
    names that column again. *)
Definition shop_row (s : shop) (r : row) : Prop :=
  exists rest, r = ("shop_id", json_of_key (shop_id s)) :: rest /\
               dict_lookup rest "shop_id" = None.

(** The keys of the groups after more variants: a new key goes last. *)
Definition add_key (ks : list pykey) (k : pykey) : list pykey :=
  if bool_decide (k ∈ ks) then ks else ks ++ [k].

(** The relation keys of the variants in order of first appearance. *)
Definition first_keys (variants : list pydict) : list pykey :=
  fold_left add_key
    (flat_map (fun v => match relation_key v with Some k => [k] | None => [] end) variants)
    [].

(** The keys among them that are the id of no product. *)
Definition orphan_keys (products variants : list pydict) : list pykey :=
  List.filter (fun k => negb (existsb (fun p => bool_decide (id_key p = Some k)) products))
    (first_keys variants).

(** The part of [sync_catalogue] that follows the row building: the four
    upserts, the cleanup and the secondary languages. *)
Definition persist (env : environment) (fuel : nat) (s : shop)
    (api_key api_secret base_lang : string) (active_langs : list string)
    (products : list attached) (b : built_rows) : M unit :=
  bulk_upsert env "products" (product_rows b) ["shop_id"; "lightspeed_product_id"] ;;
  bulk_upsert env "product_content" (content_rows b)
    ["shop_id"; "lightspeed_product_id"; "language_code"] ;;
  bulk_upsert env "variants" (variant_rows b) ["shop_id"; "lightspeed_variant_id"] ;;
  bulk_upsert env "variant_content" (variant_content_rows b)
    ["shop_id"; "lightspeed_variant_id"; "language_code"] ;;
  valid <- cleanup_orphans env s products b ;;
  let '(valid_product_ids, valid_variant_ids) := valid in
  sync_languages env fuel s api_key api_secret base_lang
    valid_product_ids valid_variant_ids active_langs.

(** The requests sent between two states all satisfy [Q]. *)
Definition sends (Q : db_op -> Prop) (a b : state) : Prop :=
  exists new, requests b = requests a ++ new /\ Forall Q new.

(** A request that names the shop: rows that carry its id and are matched on
    it, reads and deletes filtered by it, and the audit row of the shop. *)
Definition scoped (s : shop) (op : db_op) : Prop :=
  match op with
  | DbUpsert t rows cols =>
      In t ["products"; "product_content"; "variants"; "variant_content"] /\
      Forall (shop_row s) rows /\ In "shop_id" cols
  | DbSelect t _ k => k = shop_id s
  | DbDelete t k _ _ => (t = "products" \/ t = "variants") /\ k = shop_id s
  | DbInsert t r => t = "sync_logs" /\ r = running_row s
  | DbUpdate t _ _ => t = "sync_logs"
  end.

(** The rows of a table that belong to other shops. *)
Definition others (s : shop) (tbl : list row) : list row :=
  List.filter (fun r => negb (column_is r "shop_id" (shop_id s))) tbl.

(** Outside the audit table, the rows of the other shops are the same. *)
Definition isolated (s : shop) (a b : state) : Prop :=
  forall t, t <> "sync_logs" ->
    others s (table_rows (db b) t) = others s (table_rows (db a) t).

(** The state a run of the example shop ends in. *)
Definition final_state (env : environment) (fuel : nat) (s : shop) (st : state) : state :=
  match sync_shop env fuel s st with
  | Some (_, st') => st'
  | None => st
  end.

(** An upsert into one of the two content tables, with rows of the shop. *)
Definition content_upsert (s : shop) (op : db_op) : Prop :=
  match op with
  | DbUpsert t rows _ =>
      (t = "product_content" \/ t = "variant_content") /\ Forall (shop_row s) rows
  | _ => False
  end.

(** Between the two states only the content tables may have changed. *)
Definition content_only (s : shop) (a b : state) : Prop :=
  metrics b = metrics a /\
  (forall t, t <> "product_content" -> t <> "variant_content" ->
     table_rows (db b) t = table_rows (db a) t) /\
  sends (content_upsert s) a b.

(** The counters that the steps after the row building leave alone. *)
Definition same_counts (a b : state) : Prop :=
  products_fetched (metrics b) = products_fetched (metrics a) /\
  variants_fetched (metrics b) = variants_fetched (metrics a) /\
  products_synced (metrics b) = products_synced (metrics a) /\
  variants_synced (metrics b) = variants_synced (metrics a) /\
  variants_filtered (metrics b) = variants_filtered (metrics a).

(** The audit row of a run that succeeded. *)
Definition success_row (s : shop) (id : json) (m : counters) : row :=
  [("shop_id", json_of_key (shop_id s)); ("status", JStr "success"); ("id", id);
   ("completed_at", JStr "now()")] ++ metrics_fields m.

(** The insert requests among the requests sent. *)
Definition inserts (ops : list db_op) : list db_op :=
  List.filter (fun op => match op with DbInsert _ _ => true | _ => false end) ops.

Definition no_insert (op : db_op) : Prop :=
  match op with DbInsert _ _ => False | _ => True end.

Definition same_inserts (a b : state) : Prop :=
  inserts (requests b) = inserts (requests a).

(** The environment variables that hold the credentials of a shop. *)
Definition key_variable (s : shop) : string := "LIGHTSPEED_API_KEY_" +:+ upper (tld s).
Definition secret_variable (s : shop) : string := "LIGHTSPEED_API_SECRET_" +:+ upper (tld s).

(** A shop none of whose languages is the default one, and a store that
    refuses every update of the audit table. *)
Definition shop_no_default : shop :=
  Shop (KInt 1) "Shop NL" "nl" [Language "nl" true false; Language "de" true false].

Definition refusing_update_env : environment :=
  Environment (fun _ => None) (fun _ _ _ _ _ => HttpOk [])
    (fun _ op => match op with DbUpdate _ _ _ => Some "connection lost" | _ => None end).

Definition refusing_success_env : environment :=
  Environment demo_getenv demo_api
    (fun _ op => match op with
                 | DbUpdate _ fields _ =>
                     match dict_lookup fields "status" with
                     | Some (JStr status) =>
                         if String.eqb status "success" then Some "connection lost" else None
                     | _ => None
                     end
                 | _ => None
                 end).

Definition refusing_insert_env : environment :=
  Environment demo_getenv demo_api
    (fun _ op => match op with DbInsert _ _ => Some "connection lost" | _ => None end).

(** A source with one full page, whose second page times out once and then
    answers with a JSON array in place of an object. *)
Definition unreadable_second_page : source := fun page attempt =>
  if Nat.eqb page 1 then HttpOk (repeat [("id", JInt 1)] LIMIT)
  else match attempt with
       | 0 => HttpFail "timed out"
       | _ => HttpBad (AttributeError "list" "get")
       end.

(** A catalogue whose second variant has a SKU that is null. *)
Definition null_sku_api : remote := fun lang coll _ page _ =>
  if Nat.eqb page 1 then
    match coll with
    | Products => HttpOk [mk_product 10]
    | Variants =>
        HttpOk [mk_variant 100 10;
                [("id", JInt 101); ("sku", JNull);
                 ("product", JDict [("resource", JDict [("id", JInt 10)])])]]
    end
  else HttpOk [].

Definition null_sku_env : environment :=
  Environment demo_getenv null_sku_api (fun _ _ => None).

(** A variant without an id that refers to a product that is not there. *)
Definition nameless_orphan : pydict :=
  [("sku", JStr "s"); ("product", JDict [("resource", JDict [("id", JInt 6)])])].

(** * Properties *)

(** ** Paginated fetcher *)

Lemma request_page_first_try (src : source) (page : nat) (batch : list pydict) :
  src page 0 = HttpOk batch ->
  request_page src page (seq 0 MAX_RETRIES) = ([Request page 0], Ok batch).
Proof. intros H. simpl. rewrite H. reflexivity. Qed.

(** Three failures in a row: two waits, of 1s and 2s, and the third failure is
    raised at once. *)
Lemma request_page_exhausted (src : source) (page : nat) (e0 e1 e2 : string) :
  src page 0 = HttpFail e0 -> src page 1 = HttpFail e1 -> src page 2 = HttpFail e2 ->
  request_page src page (seq 0 MAX_RETRIES) =
    ([Request page 0; Print (MsgRetry 1 3 1 e0); Sleep 1;
      Request page 1; Print (MsgRetry 2 3 2 e1); Sleep 2;
      Request page 2],
     Raise (RequestException e2)).
Proof. intros H0 H1 H2. simpl. rewrite H0, H1, H2. reflexivity. Qed.

(** Wherever the paging loop stands, a page whose three attempts fail ends the
    fetch with the last error; the entities gathered so far are not returned. *)
Lemma fetch_pages_exhausted (src : source) (page fuel : nat) (acc : list pydict)
    (e0 e1 e2 : string) :
  src page 0 = HttpFail e0 -> src page 1 = HttpFail e1 -> src page 2 = HttpFail e2 ->
  fetch_pages (S fuel) src page acc =
    Some ([Request page 0; Print (MsgRetry 1 3 1 e0); Sleep 1;
           Request page 1; Print (MsgRetry 2 3 2 e1); Sleep 2;
           Request page 2],
          Raise (RequestException e2)).
Proof.
  intros H0 H1 H2. cbn [fetch_pages].
  rewrite (request_page_exhausted src page e0 e1 e2 H0 H1 H2). reflexivity.
Qed.

(** A short page, empty or not, is the last one requested. *)
Lemma fetch_pages_short (src : source) (page fuel : nat) (acc batch : list pydict) :
  src page 0 = HttpOk batch -> List.length batch < LIMIT ->
  fetch_pages (S fuel) src page acc =
    Some ([Request page 0], Ok (acc ++ List.map normalize_entity batch)).
Proof.
  intros H Hlen. cbn [fetch_pages]. rewrite (request_page_first_try _ _ _ H).
  destruct batch as [|b batch'].
  - simpl. rewrite app_nil_r. reflexivity.
  - apply Nat.ltb_lt in Hlen. rewrite Hlen. reflexivity.
Qed.

(** A full page is followed by the request of the next page. *)
Lemma fetch_pages_full (src : source) (page fuel : nat) (acc batch : list pydict) :
  src page 0 = HttpOk batch -> List.length batch = LIMIT ->
  fetch_pages (S fuel) src page acc =
    match fetch_pages fuel src (S page) (acc ++ List.map normalize_entity batch) with
    | None => None
    | Some (tr, r) => Some (Request page 0 :: tr, r)
    end.
Proof.
  intros H Hlen. cbn [fetch_pages]. rewrite (request_page_first_try _ _ _ H).
  destruct batch as [|b batch']; [discriminate Hlen|].
  assert (Hge : Nat.ltb (List.length (b :: batch')) LIMIT = false)
    by (apply Nat.ltb_ge; rewrite Hlen; reflexivity).
  rewrite Hge. destruct (fetch_pages fuel src (S page) _) as [[tr r]|]; reflexivity.
Qed.

(** The source claims three waits, of 1s, 2s and 4s; the loop waits twice. *)
Lemma retry_exhaustion_general (api_ : remote) (lang k sec : string) (fuel : nat)
    (e0 e1 e2 : string) :
  api_ lang Products (k, sec) 1 0 = HttpFail e0 ->
  api_ lang Products (k, sec) 1 1 = HttpFail e1 ->
  api_ lang Products (k, sec) 1 2 = HttpFail e2 ->
  exists tr,
    fetch_products api_ (S fuel) lang k sec = Some (tr, Raise (RequestException e2)) /\
    requests_of tr = [(1, 0); (1, 1); (1, 2)] /\
    sleeps_of tr = [1%Z; 2%Z].
Proof.
  intros H0 H1 H2. unfold fetch_products.
  rewrite (fetch_pages_exhausted _ 1 fuel [] e0 e1 e2 H0 H1 H2).
  eexists. split; [reflexivity|]. split; reflexivity.
Qed.

(** ** Join *)

Lemma group_get_append (g : groups) (k k' : pykey) (v : pydict) :
  group_get (group_append g k v) k' =
    if decide (k = k') then group_get g k' ++ [v] else group_get g k'.
Proof.
  induction g as [|[k0 vs] g IH]; simpl.
  - destruct (decide (k = k')); reflexivity.
  - destruct (decide (k0 = k)) as [->|Hne]; simpl.
    + destruct (decide (k = k')); reflexivity.
    + destruct (decide (k0 = k')) as [->|Hne'].
      * destruct (decide (k = k')); [congruence | reflexivity].
      * exact IH.
Qed.

Lemma group_append_keys (g : groups) (k : pykey) (v : pydict) (k' : pykey) :
  In k' (List.map fst (group_append g k v)) <-> k' = k \/ In k' (List.map fst g).
Proof.
  induction g as [|[k0 vs] g IH]; simpl.
  - intuition congruence.
  - destruct (decide (k0 = k)) as [->|Hne]; simpl; [intuition congruence|].
    rewrite IH. intuition congruence.
Qed.

Lemma group_append_nodup (g : groups) (k : pykey) (v : pydict) :
  List.NoDup (List.map fst g) -> List.NoDup (List.map fst (group_append g k v)).
Proof.
  induction g as [|[k0 vs] g IH]; simpl; intros Hnd.
  - constructor; [intros [] | constructor].
  - inversion Hnd as [|? ? Hnotin Hnd']; subst.
    destruct (decide (k0 = k)) as [->|Hne]; simpl.
    + constructor; assumption.
    + constructor; [|auto].
      rewrite group_append_keys. intros [->|Hin]; [congruence | contradiction].
Qed.

Lemma group_get_in (g : groups) (k : pykey) (vs : list pydict) :
  List.NoDup (List.map fst g) -> In (k, vs) g -> group_get g k = vs.
Proof.
  induction g as [|[k0 vs0] g IH]; simpl; intros Hnd Hin; [contradiction|].
  inversion Hnd as [|? ? Hnotin Hnd']; subst.
  destruct Hin as [Heq|Hin].
  - inversion Heq; subst. destruct (decide (k = k)); [reflexivity | congruence].
  - destruct (decide (k0 = k)) as [->|Hne]; [|auto].
    exfalso. apply Hnotin. apply (in_map fst) in Hin. exact Hin.
Qed.

Lemma group_key_in (g : groups) (k : pykey) :
  In k (List.map fst g) -> In (k, group_get g k) g.
Proof.
  induction g as [|[k0 vs0] g IH]; simpl; [tauto|].
  destruct (decide (k0 = k)) as [->|Hne]; [auto|].
  intros [Heq|Hin]; [congruence | right; auto].
Qed.

Lemma group_variants_cons_inv (v : pydict) (rest : list pydict) (g g' : groups)
    (vs' : list pydict) :
  group_variants (v :: rest) g = Ok (g', vs') ->
  (relation_key v = None /\ unlinked v = true /\
   exists vs'', group_variants rest g = Ok (g', vs'') /\ vs' = v :: vs'') \/
  (exists k, relation_key v = Some k /\
   exists vs'', group_variants rest (group_append g k (strip v)) = Ok (g', vs'') /\
                vs' = strip v :: vs'').
Proof.
  cbn [group_variants]. unfold relation_key, unlinked.
  destruct (variant_pid v) as [pid|e]; cbn [rbind]; [|discriminate].
  destruct (truthy pid) eqn:Ht.
  - unfold hash_key. destruct (key_of pid) as [k|]; cbn [rbind]; [|discriminate].
    fold (strip v).
    destruct (group_variants rest (group_append g k (strip v))) as [[g1 vs1]|e] eqn:Hrec;
      cbn [rbind]; [|discriminate].
    intros H. inversion H; subst. right. exists k. split; [reflexivity|].
    exists vs1. split; [exact Hrec | reflexivity].
  - destruct (group_variants rest g) as [[g1 vs1]|e] eqn:Hrec; cbn [rbind]; [|discriminate].
    intros H. inversion H; subst. left. split; [reflexivity|]. split; [reflexivity|].
    exists vs1. split; reflexivity.
Qed.

Lemma refers_to_some (k k' : pykey) (v : pydict) :
  relation_key v = Some k -> refers_to k' v = bool_decide (k = k').
Proof.
  intros H. unfold refers_to. rewrite H.
  destruct (decide (k = k')) as [->|Hne].
  - rewrite !bool_decide_eq_true_2; [reflexivity | reflexivity | reflexivity].
  - rewrite !bool_decide_eq_false_2; [reflexivity | assumption | congruence].
Qed.

Lemma refers_to_none (k : pykey) (v : pydict) :
  relation_key v = None -> refers_to k v = false.
Proof.
  intros H. unfold refers_to. rewrite H. apply bool_decide_eq_false_2. discriminate.
Qed.

(** What the first loop builds: every group is the list of the stripped
    variants that refer to its key, in input order. *)
Lemma group_variants_get (vs : list pydict) :
  forall (g g' : groups) (vs' : list pydict),
    group_variants vs g = Ok (g', vs') ->
    forall k, group_get g' k = group_get g k ++ List.map strip (List.filter (refers_to k) vs).
Proof.
  induction vs as [|v rest IH]; intros g g' vs' H k.
  - simpl in H. inversion H; subst. simpl. rewrite app_nil_r. reflexivity.
  - apply group_variants_cons_inv in H.
    destruct H as [(Hnone & _ & vs'' & Hrec & _) | (k0 & Hsome & vs'' & Hrec & _)].
    + rewrite (IH _ _ _ Hrec k). simpl. rewrite (refers_to_none k v Hnone). reflexivity.
    + rewrite (IH _ _ _ Hrec k). rewrite group_get_append. simpl.
      rewrite (refers_to_some k0 k v Hsome).
      destruct (decide (k0 = k)) as [->|Hne].
      * rewrite bool_decide_eq_true_2 by reflexivity. simpl.
        rewrite <- app_assoc. reflexivity.
      * rewrite bool_decide_eq_false_2 by assumption. reflexivity.
Qed.

Lemma group_variants_after (vs : list pydict) :
  forall (g g' : groups) (vs' : list pydict),
    group_variants vs g = Ok (g', vs') -> vs' = List.map after_attach vs.
Proof.
  induction vs as [|v rest IH]; intros g g' vs' H.
  - simpl in H. inversion H; reflexivity.
  - apply group_variants_cons_inv in H.
    destruct H as [(Hnone & _ & vs'' & Hrec & ->) | (k0 & Hsome & vs'' & Hrec & ->)];
      simpl; unfold after_attach at 1.
    + rewrite Hnone. f_equal. eauto.
    + rewrite Hsome. f_equal. eauto.
Qed.

Lemma group_variants_keys (vs : list pydict) :
  forall (g g' : groups) (vs' : list pydict),
    group_variants vs g = Ok (g', vs') ->
    forall k, In k (List.map fst g') <->
              In k (List.map fst g) \/ exists v, In v vs /\ relation_key v = Some k.
Proof.
  induction vs as [|v rest IH]; intros g g' vs' H k.
  - simpl in H. inversion H; subst. split; [auto|]. intros [Hin|(v & [] & _)]. exact Hin.
  - apply group_variants_cons_inv in H.
    destruct H as [(Hnone & _ & vs'' & Hrec & _) | (k0 & Hsome & vs'' & Hrec & _)].
    + rewrite (IH _ _ _ Hrec k). split.
      * intros [Hin|(w & Hw & Hk)]; [auto|]. right. exists w. split; [right; exact Hw | exact Hk].
      * intros [Hin|(w & [->|Hw] & Hk)]; [auto | congruence |]. right. exists w. auto.
    + rewrite (IH _ _ _ Hrec k). rewrite group_append_keys. split.
      * intros [[->|Hin]|(w & Hw & Hk)].
        -- right. exists v. split; [left; reflexivity | exact Hsome].
        -- auto.
        -- right. exists w. split; [right; exact Hw | exact Hk].
      * intros [Hin|(w & [->|Hw] & Hk)].
        -- left. right. exact Hin.
        -- left. left. congruence.
        -- right. exists w. auto.
Qed.

Lemma group_variants_nodup (vs : list pydict) :
  forall (g g' : groups) (vs' : list pydict),
    group_variants vs g = Ok (g', vs') ->
    List.NoDup (List.map fst g) -> List.NoDup (List.map fst g').
Proof.
  induction vs as [|v rest IH]; intros g g' vs' H Hnd.
  - simpl in H. inversion H; subst. exact Hnd.
  - apply group_variants_cons_inv in H.
    destruct H as [(_ & _ & vs'' & Hrec & _) | (k0 & _ & vs'' & Hrec & _)].
    + eauto.
    + eapply IH; [exact Hrec|]. apply group_append_nodup. exact Hnd.
Qed.

Lemma group_variants_total (vs : list pydict) :
  forallb well_formed_variant vs = true ->
  forall g, exists g' vs', group_variants vs g = Ok (g', vs').
Proof.
  induction vs as [|v rest IH]; intros Hwf g.
  - exists g, []. reflexivity.
  - simpl in Hwf. apply andb_true_iff in Hwf. destruct Hwf as [Hv Hrest].
    cbn [group_variants]. unfold well_formed_variant in Hv.
    destruct (dict_lookup v "id"); [|discriminate].
    destruct (variant_pid v) as [pid|e]; [|discriminate]. cbn [rbind].
    destruct (truthy pid) eqn:Ht; simpl in Hv.
    + unfold hash_key. destruct (key_of pid) as [k|]; [|discriminate]. cbn [rbind].
      destruct (IH Hrest (group_append g k (dict_pop v "product"))) as (g' & vs' & ->).
      cbn [rbind]. eauto.
    + destruct (IH Hrest g) as (g' & vs' & ->). cbn [rbind]. eauto.
Qed.

Lemma map_result_ext {A B} (f : A -> result B) (g : A -> B) (l : list A) :
  (forall a, In a l -> f a = Ok (g a)) -> map_result f l = Ok (List.map g l).
Proof.
  induction l as [|a l IH]; intros H; [reflexivity|].
  simpl. rewrite (H a (or_introl eq_refl)). cbn [rbind].
  rewrite IH by (intros; apply H; right; assumption). reflexivity.
Qed.

Lemma map_result_inv {A B} (f : A -> result B) (l : list A) (bs : list B) :
  map_result f l = Ok bs -> Forall2 (fun a b => f a = Ok b) l bs.
Proof.
  revert bs. induction l as [|a l IH]; intros bs H; simpl in H.
  - inversion H. constructor.
  - destruct (f a) as [b|e] eqn:Hf; cbn [rbind] in H; [|discriminate].
    destruct (map_result f l) as [bs'|e]; cbn [rbind] in H; [|discriminate].
    inversion H; subst. constructor; [exact Hf | apply IH; reflexivity].
Qed.

Lemma entity_key_product_key (p : pydict) (k : pykey) :
  entity_key p = Ok k <-> id_key p = Some k.
Proof.
  unfold entity_key, id_key, dict_getitem, hash_key.
  destruct (dict_lookup p "id") as [j|]; cbn [rbind].
  - destruct (key_of j); split; intros H; inversion H; reflexivity.
  - split; discriminate.
Qed.

Lemma has_id_key_some (p : pydict) :
  has_id_key p = true -> exists k, id_key p = Some k.
Proof. unfold has_id_key. destruct (id_key p); [eauto | discriminate]. Qed.

Lemma dict_lookup_pop_ne (d : pydict) (k k' : string) :
  k <> k' -> dict_lookup (dict_pop d k) k' = dict_lookup d k'.
Proof.
  intros Hne. unfold dict_pop. induction d as [|[k0 v0] d IH]; [reflexivity|].
  simpl. destruct (String.eqb k0 k) eqn:E0; simpl.
  - apply String.eqb_eq in E0. subst k0.
    destruct (String.eqb k k') eqn:E1; [apply String.eqb_eq in E1; congruence | exact IH].
  - destruct (String.eqb k0 k'); [reflexivity | exact IH].
Qed.

Lemma strip_id (v : pydict) : dict_lookup (strip v) "id" = dict_lookup v "id".
Proof. apply dict_lookup_pop_ne. discriminate. Qed.

Lemma id_set_elem (products : list pydict) (ids : gset pykey) (k : pykey) :
  id_set products = Ok ids ->
  k ∈ ids <-> exists p, In p products /\ id_key p = Some k.
Proof.
  unfold id_set. destruct (map_result entity_key products) as [ks|e] eqn:Hks;
    cbn [rbind]; [|discriminate].
  intros H. inversion H; subst. rewrite elem_of_list_to_set, list_elem_of_In.
  apply map_result_inv in Hks. clear H. induction Hks as [|p k0 ps ks Hp Hrest IH].
  - split; [intros [] | intros (p & [] & _)].
  - simpl. rewrite IH. apply entity_key_product_key in Hp. split.
    + intros [->|(q & Hq & Hk)]; [exists p; auto | exists q; auto].
    + intros (q & [->|Hq] & Hk); [left; congruence | right; exists q; auto].
Qed.

Lemma id_set_total (products : list pydict) :
  forallb has_id_key products = true -> exists ids, id_set products = Ok ids.
Proof.
  intros Hwf. unfold id_set.
  assert (H : exists ks, map_result entity_key products = Ok ks).
  { induction products as [|p ps IH]; [exists []; reflexivity|].
    simpl in Hwf. apply andb_true_iff in Hwf. destruct Hwf as [Hp Hps].
    destruct (has_id_key_some p Hp) as (k & Hk).
    apply entity_key_product_key in Hk. destruct (IH Hps) as (ks & Hks).
    exists (k :: ks). simpl. rewrite Hk, Hks. reflexivity. }
  destruct H as (ks & ->). cbn [rbind]. eauto.
Qed.

Lemma refers_to_product_key (p : pydict) (k : pykey) :
  id_key p = Some k -> forall v, refers_to_product p v = refers_to k v.
Proof. intros H v. unfold refers_to_product. rewrite H. reflexivity. Qed.

Lemma attach_all (g : groups) (variants vs' products : list pydict) :
  group_variants variants [] = Ok (g, vs') ->
  forallb has_id_key products = true ->
  map_result (attach_one g) products = Ok (List.map (joined variants) products).
Proof.
  intros Hg Hwf. apply map_result_ext. intros p Hin.
  rewrite forallb_forall in Hwf. destruct (has_id_key_some p (Hwf p Hin)) as (k & Hk).
  unfold attach_one. rewrite (proj2 (entity_key_product_key p k) Hk). cbn [rbind].
  rewrite (group_variants_get _ _ _ _ Hg k). simpl. unfold joined.
  rewrite (List.filter_ext _ _ (refers_to_product_key p k Hk)). reflexivity.
Qed.

(** The warning loop on groups whose members all carry an id. *)
Lemma report_orphans_ok (name : option string) (pids : gset pykey) (g : groups) :
  (forall k vs v, In (k, vs) g -> In v vs -> dict_lookup v "id" <> None) ->
  exists out,
    report_orphans name pids g = (out, Ok tt) /\
    forall m, In m out <->
      exists k vs, In (k, vs) g /\ (k ∉ pids) /\
        m = MsgOrphanVariants (shop_prefix name) (List.length vs) k
              (List.map (fun w => dict_get w "id" JNull) vs).
Proof.
  induction g as [|[k vs] g IH]; intros Hid.
  - exists []. split; [reflexivity|]. intros m. split; [intros [] | intros (k & vs & [] & _)].
  - destruct IH as (out & Hout & Hchar).
    { intros k0 vs0 v Hin Hv. apply (Hid k0 vs0 v); [right; exact Hin | exact Hv]. }
    cbn [report_orphans]. destruct (decide (k ∈ pids)) as [Hk|Hk].
    + exists out. split; [exact Hout|]. intros m. rewrite Hchar. split.
      * intros (k0 & vs0 & Hin & Hnot & ->). exists k0, vs0. split; [right; exact Hin | auto].
      * intros (k0 & vs0 & [Heq|Hin] & Hnot & ->).
        -- inversion Heq; subst. contradiction.
        -- exists k0, vs0. auto.
    + rewrite (map_result_ext (fun v => dict_getitem v "id") (fun w => dict_get w "id" JNull)).
      2:{ intros v Hv. unfold dict_getitem, dict_get.
          specialize (Hid k vs v (or_introl eq_refl) Hv).
          destruct (dict_lookup v "id"); [reflexivity | congruence]. }
      rewrite Hout. eexists. split; [reflexivity|]. intros m. simpl. rewrite Hchar. split.
      * intros [<-|(k0 & vs0 & Hin & Hnot & ->)].
        -- exists k, vs. auto.
        -- exists k0, vs0. auto.
      * intros (k0 & vs0 & [Heq|Hin] & Hnot & ->).
        -- inversion Heq; subst. left. reflexivity.
        -- right. exists k0, vs0. auto.
Qed.

Lemma well_formed_variant_id (v : pydict) :
  well_formed_variant v = true -> dict_lookup v "id" <> None.
Proof. unfold well_formed_variant. destruct (dict_lookup v "id"); [discriminate | discriminate]. Qed.

Lemma orphan_ids_strip (l : list pydict) :
  List.map (fun w => dict_get w "id" JNull) (List.map strip l) =
  List.map (fun w => dict_get w "id" JNull) l.
Proof.
  rewrite List.map_map. apply List.map_ext. intros w. unfold dict_get.
  rewrite strip_id. reflexivity.
Qed.

(** [attach_variants] on well-formed input: the value it returns, the state it
    leaves the caller's variants in, and exactly which lines it prints. *)
Lemma attach_variants_ok (products variants : list pydict) (name : option string) :
  forallb has_id_key products = true ->
  forallb well_formed_variant variants = true ->
  exists out,
    attach_variants products variants name =
      (out, Ok (List.map (joined variants) products, List.map after_attach variants)) /\
    forall m, In m out <->
      exists k, (exists v, In v variants /\ relation_key v = Some k) /\
                (forall p, In p products -> id_key p <> Some k) /\
                m = orphan_warning name variants k.
Proof.
  intros Hp Hv. unfold attach_variants.
  destruct (group_variants_total variants Hv []) as (g & vs' & Hg). rewrite Hg.
  destruct (id_set_total products Hp) as (ids & Hids). rewrite Hids.
  rewrite (attach_all g variants vs' products Hg Hp).
  pose proof (group_variants_nodup _ _ _ _ Hg (List.NoDup_nil _)) as Hnd.
  pose proof (group_variants_get _ _ _ _ Hg) as Hget. simpl in Hget.
  pose proof (group_variants_keys _ _ _ _ Hg) as Hkeys.
  destruct (report_orphans_ok name ids g) as (out & Hout & Hchar).
  { intros k vs v Hin Hvin. rewrite <- (group_get_in g k vs Hnd Hin), Hget in Hvin.
    apply in_map_iff in Hvin. destruct Hvin as (w & <- & Hw). rewrite strip_id.
    apply filter_In in Hw. destruct Hw as [Hw _]. apply well_formed_variant_id.
    rewrite forallb_forall in Hv. apply Hv. exact Hw. }
  rewrite Hout. cbn [rbind]. exists out.
  rewrite (group_variants_after _ _ _ _ Hg). split; [reflexivity|].
  intros m. rewrite Hchar. split.
  - intros (k & vs & Hin & Hnot & ->). exists k.
    assert (Hk : In k (List.map fst g)) by (apply (in_map fst) in Hin; exact Hin).
    apply Hkeys in Hk. destruct Hk as [[]|Hex]. split; [exact Hex|]. split.
    + intros p Hpin Hkey. apply Hnot. apply (id_set_elem _ _ k Hids). exists p. auto.
    + unfold orphan_warning. rewrite <- (group_get_in g k vs Hnd Hin), Hget.
      rewrite List.length_map, orphan_ids_strip. reflexivity.
  - intros (k & Hex & Hnot & ->). exists k, (group_get g k). split.
    + apply group_key_in. apply Hkeys. right. exact Hex.
    + split.
      * intros Hin. apply (id_set_elem _ _ k Hids) in Hin. destruct Hin as (p & Hpin & Hkey).
        exact (Hnot p Hpin Hkey).
      * unfold orphan_warning. rewrite Hget.
        rewrite List.length_map, orphan_ids_strip. reflexivity.
Qed.

Lemma key_of_truthy (j : json) (k : pykey) :
  key_of j = Some k -> truthy j = key_truthy k.
Proof.
  unfold key_truthy. destruct j as [|b|n|t|l|d]; simpl; intros H; inversion H; subst; simpl;
    try reflexivity.
  destruct b; reflexivity.
Qed.

(** For a product whose id passes [if pid:], "refers to the product" is plain
    equality of the relation id with the product id. *)
Lemma refers_to_pid_equals (k : pykey) (v : pydict) :
  key_truthy k = true -> refers_to k v = pid_equals k v.
Proof.
  intros Hk. unfold refers_to, pid_equals, relation_key.
  destruct (variant_pid v) as [pid|e].
  - destruct (truthy pid) eqn:Ht; [reflexivity|].
    rewrite bool_decide_eq_false_2 by discriminate. symmetry.
    apply bool_decide_eq_false_2. intros Hkey.
    rewrite (key_of_truthy pid k Hkey), Hk in Ht. discriminate.
  - apply bool_decide_eq_false_2. discriminate.
Qed.

Lemma orphan_refers_to_no_product (products : list pydict) (v : pydict) (k : pykey) :
  relation_key v = Some k ->
  (forall p, In p products -> id_key p <> Some k) ->
  forall p, In p products -> refers_to_product p v = false.
Proof.
  intros Hv Hnone p Hin. unfold refers_to_product.
  destruct (id_key p) as [k'|] eqn:Hp; [|reflexivity].
  rewrite (refers_to_some k k' v Hv). apply bool_decide_eq_false_2.
  intros ->. exact (Hnone p Hin Hp).
Qed.

Lemma refers_to_falsy (k : pykey) (v : pydict) :
  key_truthy k = false -> refers_to k v = false.
Proof.
  intros Hk. unfold refers_to, relation_key. apply bool_decide_eq_false_2.
  destruct (variant_pid v) as [pid|e]; [|discriminate].
  destruct (truthy pid) eqn:Ht; [|discriminate].
  intros Hkey. rewrite (key_of_truthy pid k Hkey), Hk in Ht. discriminate.
Qed.

(** C2.  On well-formed input (every product has a hashable id, every
    variant has an id and a relation that is absent or an object, with a
    resource that is absent or an object) [attach_variants] returns, without raising,
    every input product in order, each with the list of the input variants
    (their relation field removed) whose relation id is present and equals
    the product id; the list may be empty, and it is empty for a product
    whose id is false (0, the empty string, null).  A variant whose present relation
    id is the id of no input product is in no product's list, and a warning
    line with the number and the ids of the variants sharing that relation id
    is printed. *)
Theorem attach_variants_joins_and_reports
    (products variants : list pydict) (name : option string) :
  forallb has_id_key products = true ->
  forallb well_formed_variant variants = true ->
  exists out,
    attach_variants products variants name =
      (out, Ok (List.map (joined variants) products, List.map after_attach variants)) /\
    (forall p k, In p products -> id_key p = Some k -> key_truthy k = true ->
       variants_of (joined variants p) =
         List.map strip (List.filter (pid_equals k) variants)) /\
    (forall p k, In p products -> id_key p = Some k -> key_truthy k = false ->
       variants_of (joined variants p) = []) /\
    (forall v k, In v variants -> relation_key v = Some k ->
       (forall p, In p products -> id_key p <> Some k) ->
       (forall p, In p products -> refers_to_product p v = false) /\
       In (orphan_warning name variants k) out /\
       In v (List.filter (refers_to k) variants)).
Proof.
  intros Hp Hv. destruct (attach_variants_ok products variants name Hp Hv) as (out & Hrun & Hout).
  exists out. split; [exact Hrun|]. split; [|split].
  - intros p k Hin Hkey Htruthy. simpl. f_equal. apply List.filter_ext. intros v.
    rewrite (refers_to_product_key p k Hkey). apply refers_to_pid_equals. exact Htruthy.
  - intros p k Hin Hkey Hfalsy. simpl.
    rewrite (List.filter_ext _ (fun _ => false)); [|intros v;
      rewrite (refers_to_product_key p k Hkey); apply refers_to_falsy; exact Hfalsy].
    clear. induction variants as [|v vs IH]; [reflexivity | exact IH].
  - intros v k Hin Hrel Hnone. split; [|split].
    + exact (orphan_refers_to_no_product products v k Hrel Hnone).
    + apply Hout. exists k. split; [exists v; auto|]. split; [exact Hnone | reflexivity].
    + apply filter_In. split; [exact Hin|]. rewrite (refers_to_some k k v Hrel).
      apply bool_decide_eq_true_2. reflexivity.
Qed.

Lemma attach_variants_joins_and_reports_witness :
  forallb has_id_key sample_products = true /\
  forallb well_formed_variant sample_variants = true /\
  exists out,
    attach_variants sample_products sample_variants (Some "nl") =
      (out, Ok (List.map (joined sample_variants) sample_products,
                List.map after_attach sample_variants)) /\
    In (orphan_warning (Some "nl") sample_variants (KInt 6)) out.
Proof.
  split; [reflexivity|]. split; [reflexivity|].
  destruct (attach_variants_joins_and_reports sample_products sample_variants (Some "nl")
              eq_refl eq_refl) as (out & Hrun & _ & _ & Horphan).
  exists out. split; [exact Hrun|].
  apply (Horphan (mk_variant 16 6) (KInt 6)).
  - simpl. tauto.
  - reflexivity.
  - intros p Hin. simpl in Hin.
    destruct Hin as [<-|[<-|[<-|[<-|[<-|[]]]]]]; discriminate.
Defined.

(** Outside well-formed input, and for an id that is false: a product whose
    id is 0 gets no variant, not even the one whose relation id is 0; and an
    orphan variant without an id makes the call raise while it builds the
    warning, so that nothing is returned. *)
Lemma falsy_product_id_is_never_matched :
  id_key (mk_product 0) = Some (KInt 0) /\
  pid_equals (KInt 0) zero_variant = true /\
  attach_variants [mk_product 0] [zero_variant] None =
    ([], Ok ([Attached (mk_product 0) []], [zero_variant])) /\
  attach_variants sample_products (sample_variants ++ [nameless_orphan]) None =
    ([], Raise (KeyError "id")).
Proof. split; [reflexivity|]. split; [reflexivity|]. split; reflexivity. Qed.

(** The sample catalogue, evaluated. *)
Example attach_variants_sample :
  attach_variants sample_products sample_variants (Some "nl") =
    ([MsgOrphanVariants (Some "nl") 2 (KInt 6) [JInt 16; JInt 17]],
     Ok ([Attached (mk_product 1) [[("id", JInt 11); ("sku", JStr "s")];
                                   [("id", JInt 12); ("sku", JStr "s")]];
          Attached (mk_product 2) [[("id", JInt 13); ("sku", JStr "s")]];
          Attached (mk_product 3) [[("id", JInt 14); ("sku", JStr "s")]];
          Attached (mk_product 4) [];
          Attached (mk_product 5) [[("id", JInt 15); ("sku", JStr "s")]]],
         List.map strip sample_variants)).
Proof. vm_compute. reflexivity. Qed.

(** ** Variants without a usable relation *)

Lemma unlinked_relation_key (v : pydict) : unlinked v = true -> relation_key v = None.
Proof.
  unfold unlinked, relation_key. destruct (variant_pid v) as [pid|e]; [|discriminate].
  destruct (truthy pid); [discriminate | reflexivity].
Qed.

(** The cases the source leaves out of the groups without raising. *)
Lemma unlinked_no_relation (v : pydict) :
  dict_lookup v "product" = None -> unlinked v = true.
Proof. intros H. unfold unlinked, variant_pid, dict_get. rewrite H. reflexivity. Qed.

Lemma unlinked_no_resource (v rel : pydict) :
  dict_lookup v "product" = Some (JDict rel) -> dict_lookup rel "resource" = None ->
  unlinked v = true.
Proof.
  intros H1 H2. unfold unlinked, variant_pid, dict_get. rewrite H1. simpl.
  unfold dict_get. rewrite H2. reflexivity.
Qed.

Lemma unlinked_false_id (v rel res : pydict) :
  dict_lookup v "product" = Some (JDict rel) ->
  dict_lookup rel "resource" = Some (JDict res) ->
  truthy (dict_get res "id" JNull) = false ->
  unlinked v = true.
Proof.
  intros H1 H2 H3. unfold unlinked, variant_pid, dict_get. rewrite H1. simpl.
  unfold dict_get at 1. rewrite H2. simpl. rewrite H3. reflexivity.
Qed.

(** A relation or resource that is present and is not an object raises. *)
Lemma variant_pid_non_object (v : pydict) (x : json) :
  dict_lookup v "product" = Some x ->
  (forall d, x <> JDict d) ->
  variant_pid v = Raise (AttributeError (type_name x) "get").
Proof.
  intros H Hx. unfold variant_pid, dict_get. rewrite H.
  destruct x; try reflexivity. exfalso. exact (Hx d eq_refl).
Qed.

Lemma filtered_count_formula (variants products : list pydict) :
  variants_filtered_count (List.map after_attach variants)
                          (List.map (joined variants) products) =
    (Z.of_nat (List.length variants) - attached_total variants products)%Z.
Proof.
  unfold variants_filtered_count, attached_total.
  rewrite List.length_map, List.map_map. f_equal. f_equal. apply List.map_ext.
  intros p. simpl. rewrite List.length_map. reflexivity.
Qed.

Lemma length_filter_disjoint {A} (f g : A -> bool) (l : list A) :
  (forall a, f a = true -> g a = false) ->
  List.length (List.filter (fun a => f a || g a) l) =
    List.length (List.filter f l) + List.length (List.filter g l).
Proof.
  intros Hfg. induction l as [|a l IH]; [reflexivity|].
  simpl. destruct (f a) eqn:Hf; simpl.
  - rewrite (Hfg a Hf). rewrite IH. reflexivity.
  - destruct (g a); simpl; rewrite IH; lia.
Qed.

Lemma length_filter_negb {A} (f : A -> bool) (l : list A) :
  List.length (List.filter f l) + List.length (List.filter (fun a => negb (f a)) l) =
    List.length l.
Proof.
  induction l as [|a l IH]; [reflexivity|].
  simpl. destruct (f a); simpl; lia.
Qed.

Lemma refers_to_product_true (p v : pydict) :
  refers_to_product p v = true ->
  exists k, id_key p = Some k /\ relation_key v = Some k.
Proof.
  unfold refers_to_product, refers_to. destruct (id_key p) as [k|]; [|discriminate].
  intros H. apply bool_decide_eq_true_1 in H. eauto.
Qed.

(** With pairwise distinct product ids every variant is attached at most
    once, and the attached total counts the attached variants. *)
Lemma attached_total_distinct (variants products : list pydict) :
  List.NoDup (List.map id_key products) ->
  attached_total variants products =
    Z.of_nat (List.length
      (List.filter (fun v => existsb (fun p => refers_to_product p v) products) variants)).
Proof.
  unfold attached_total. induction products as [|p ps IH]; intros Hnd.
  - simpl. induction variants as [|v vs IHv]; [reflexivity | exact IHv].
  - inversion Hnd as [|? ? Hnotin Hnd']; subst. simpl. rewrite (IH Hnd').
    rewrite length_filter_disjoint; [lia|].
    intros v Hv. destruct (existsb _ ps) eqn:Hex; [|reflexivity].
    exfalso. apply existsb_exists in Hex. destruct Hex as (q & Hq & Hqv).
    apply refers_to_product_true in Hv. destruct Hv as (k & Hpk & Hvk).
    apply refers_to_product_true in Hqv. destruct Hqv as (k' & Hqk & Hvk').
    apply Hnotin. rewrite Hpk. assert (k = k') by congruence. subst k'.
    rewrite <- Hqk. apply in_map. exact Hq.
Qed.

(** C10 (amended).  Take a variant whose relation field is missing, or is an
    object whose resource is missing, or whose resource is an object whose id
    is absent or false ([null], [0], ...).  On well-formed input
    [attach_variants] returns; the variant is in no product's list; every
    printed warning counts and lists only variants that refer to some key,
    which this one does not; its entry in the caller's list is unchanged, so
    the relation field is still there; and the filtered metric, the number of
    fetched variants minus the attached total, counts it: with distinct
    product ids the metric is the number of unattached variants, of which it
    is one. *)
Theorem unlinked_variant_counted_not_reported
    (products variants : list pydict) (name : option string) (i : nat) (v : pydict) :
  forallb has_id_key products = true ->
  forallb well_formed_variant variants = true ->
  nth_error variants i = Some v ->
  unlinked v = true ->
  exists out,
    attach_variants products variants name =
      (out, Ok (List.map (joined variants) products, List.map after_attach variants)) /\
    (forall p, refers_to_product p v = false) /\
    (forall m, In m out -> exists k, m = orphan_warning name variants k) /\
    (forall k, refers_to k v = false) /\
    nth_error (List.map after_attach variants) i = Some v /\
    variants_filtered_count (List.map after_attach variants)
                            (List.map (joined variants) products) =
      (Z.of_nat (List.length variants) - attached_total variants products)%Z /\
    unattached products v = true /\
    (List.NoDup (List.map id_key products) ->
     variants_filtered_count (List.map after_attach variants)
                             (List.map (joined variants) products) =
       Z.of_nat (List.length (List.filter (unattached products) variants))).
Proof.
  intros Hp Hv Hi Hun. pose proof (unlinked_relation_key v Hun) as Hnone.
  assert (Hrefers : forall k, refers_to k v = false) by (intros k; apply refers_to_none; exact Hnone).
  assert (Hprod : forall p, refers_to_product p v = false).
  { intros p. unfold refers_to_product. destruct (id_key p); [apply Hrefers | reflexivity]. }
  destruct (attach_variants_ok products variants name Hp Hv) as (out & Hrun & Hout).
  exists out. split; [exact Hrun|]. split; [exact Hprod|]. split.
  { intros m Hm. apply Hout in Hm. destruct Hm as (k & _ & _ & ->). exists k. reflexivity. }
  split; [exact Hrefers|]. split.
  { rewrite List.nth_error_map, Hi. simpl. unfold after_attach. rewrite Hnone. reflexivity. }
  split; [apply filtered_count_formula|]. split.
  { unfold unattached. apply negb_true_iff. apply not_true_iff_false. intros Hex.
    apply existsb_exists in Hex. destruct Hex as (p & _ & Hpv). rewrite Hprod in Hpv.
    discriminate. }
  intros Hnd. rewrite filtered_count_formula, (attached_total_distinct variants products Hnd).
  unfold unattached.
  pose proof (length_filter_negb (fun v => existsb (fun p => refers_to_product p v) products)
                variants) as Hlen.
  lia.
Qed.

Lemma unlinked_variant_counted_not_reported_witness :
  forallb has_id_key sample_products = true /\
  forallb well_formed_variant (sample_variants ++ [loose_variant; zero_variant]) = true /\
  nth_error (sample_variants ++ [loose_variant; zero_variant]) 8 = Some zero_variant /\
  unlinked zero_variant = true /\
  variants_filtered_count
    (List.map after_attach (sample_variants ++ [loose_variant; zero_variant]))
    (List.map (joined (sample_variants ++ [loose_variant; zero_variant])) sample_products) =
    4%Z.
Proof.
  split; [reflexivity|]. split; [reflexivity|]. split; [reflexivity|]. split; [reflexivity|].
  destruct (unlinked_variant_counted_not_reported sample_products
              (sample_variants ++ [loose_variant; zero_variant]) None 8 zero_variant
              eq_refl eq_refl eq_refl eq_refl)
    as (out & _ & _ & _ & _ & _ & Hcount & _ & _).
  rewrite Hcount. reflexivity.
Defined.

(** A relation that is present and is not an object is not skipped: the call
    raises and returns no products at all. *)
Lemma non_object_relation_raises :
  unlinked false_relation_variant = false /\
  attach_variants sample_products (sample_variants ++ [false_relation_variant]) (Some "nl") =
    ([], Raise (AttributeError "bool" "get")) /\
  exn_str (AttributeError "bool" "get") = "'bool' object has no attribute 'get'".
Proof. split; [reflexivity|]. split; reflexivity. Qed.

(** A whole run with an orphan (102), a variant without relation (21) and a
    variant whose relation id is 0 (22): one warning, for the orphan alone,
    and a filtered metric of three. *)
Example unlinked_variants_in_a_run :
  exists st',
    sync_shop unlinked_env 2 shop_one empty_state = Some (Ok tt, st') /\
    List.filter (fun m => match m with MsgOrphanVariants _ _ _ _ => true | _ => false end)
      (output st') = [MsgOrphanVariants (Some "Shop NL") 1 (KInt 12) [JInt 102]] /\
    variants_fetched (metrics st') = 5%Z /\
    variants_synced (metrics st') = 2%Z /\
    variants_filtered (metrics st') = 3%Z.
Proof.
  eexists. split; [vm_compute; reflexivity|]. split; [vm_compute; reflexivity|].
  split; [|split]; reflexivity.
Qed.

(** ** Retry exhaustion and the last page *)

(** C4.  A source whose every request fails: the first page is requested
    three times, the fetch raises the error of the third attempt and returns
    no entities; the waits are 1s and 2s.  The third failure is re-raised
    before any wait, so the 4s wait never happens. *)
Theorem retry_exhaustion_waits_twice :
  forall fuel : nat,
    exists tr,
      fetch_products (fun _ _ _ => always_failing) (S fuel) "nl" "key" "secret" =
        Some (tr, Raise (RequestException "timed out")) /\
      requests_of tr = [(1, 0); (1, 1); (1, 2)] /\
      sleeps_of tr = [1%Z; 2%Z] /\
      sleeps_of tr <> [1%Z; 2%Z; 4%Z].
Proof.
  intros fuel.
  destruct (retry_exhaustion_general (fun _ _ _ => always_failing) "nl" "key" "secret" fuel
              "timed out" "timed out" "timed out" eq_refl eq_refl eq_refl)
    as (tr & Hrun & Hreq & Hsleep).
  exists tr. split; [exact Hrun|]. split; [exact Hreq|]. split; [exact Hsleep|].
  rewrite Hsleep. discriminate.
Qed.

(** C5 (amended).  Three full pages followed by a page of [k < LIMIT]
    entities: the fetch returns the [3 * LIMIT + k] entities and sends exactly
    four page requests, also when [k = 0]; no fifth request is sent. *)
Theorem pagination_three_full_pages_then_short
    (src : source) (b1 b2 b3 b4 : list pydict) (fuel : nat) :
  src 1 0 = HttpOk b1 -> src 2 0 = HttpOk b2 -> src 3 0 = HttpOk b3 ->
  src 4 0 = HttpOk b4 ->
  List.length b1 = LIMIT -> List.length b2 = LIMIT -> List.length b3 = LIMIT ->
  List.length b4 < LIMIT ->
  4 <= fuel ->
  exists tr entities,
    fetch_pages fuel src 1 [] = Some (tr, Ok entities) /\
    entities = List.map normalize_entity (b1 ++ b2 ++ b3 ++ b4) /\
    List.length entities = 3 * LIMIT + List.length b4 /\
    requests_of tr = [(1, 0); (2, 0); (3, 0); (4, 0)].
Proof.
  intros H1 H2 H3 H4 L1 L2 L3 L4 Hfuel.
  destruct fuel as [|[|[|[|fuel]]]]; try lia.
  rewrite (fetch_pages_full src 1 _ [] b1 H1 L1).
  rewrite (fetch_pages_full src 2 _ _ b2 H2 L2).
  rewrite (fetch_pages_full src 3 _ _ b3 H3 L3).
  rewrite (fetch_pages_short src 4 _ _ b4 H4 L4).
  eexists. eexists. split; [reflexivity|]. split.
  - simpl. rewrite !List.map_app, <- !app_assoc. reflexivity.
  - split; [|reflexivity].
    rewrite !List.length_app, !List.length_map, L1, L2, L3. cbn [List.length]. lia.
Qed.

Lemma pagination_three_full_pages_then_short_witness :
  exists tr entities,
    fetch_pages 4 three_full_pages 1 [] = Some (tr, Ok entities) /\
    entities = List.map normalize_entity
                 (repeat [("id", JInt 1)] LIMIT ++ repeat [("id", JInt 2)] LIMIT
                  ++ repeat [("id", JInt 3)] LIMIT ++ []) /\
    List.length entities = 3 * LIMIT + 0 /\
    requests_of tr = [(1, 0); (2, 0); (3, 0); (4, 0)].
Proof.
  apply (pagination_three_full_pages_then_short three_full_pages
           (repeat [("id", JInt 1)] LIMIT) (repeat [("id", JInt 2)] LIMIT)
           (repeat [("id", JInt 3)] LIMIT) [] 4);
    first [reflexivity | unfold LIMIT; simpl; lia].
Defined.

(** Three full pages and an empty fourth: the fourth page is requested, and
    with fuel for three rounds only the loop is still running. *)
Lemma pagination_empty_page_is_requested :
  fetch_pages 3 three_full_pages 1 [] = None /\
  exists tr entities,
    fetch_pages 4 three_full_pages 1 [] = Some (tr, Ok entities) /\
    List.length entities = 3 * LIMIT /\
    List.length (requests_of tr) = 4 /\
    List.length (requests_of tr) <> 3.
Proof.
  split; [vm_compute; reflexivity|].
  eexists. eexists. split; [vm_compute; reflexivity|].
  split; [vm_compute; reflexivity|]. split; [reflexivity | discriminate].
Qed.

(** ** Reasoning about runs *)

Section Respects.
Variable R : state -> state -> Prop.
Variable P : db_op -> Prop.
Variable env : environment.
Hypothesis R_refl : forall st, R st st.
Hypothesis R_trans : forall a b c, R a b -> R b c -> R a c.
Hypothesis R_output :
  forall st ms, R st (State (db st) (requests st) (output st ++ ms) (metrics st)).
Hypothesis R_metrics : forall st m, R st (State (db st) (requests st) (output st) m).
Hypothesis R_execute : forall op, P op -> respects R (db_execute env op).

Lemma respects_ret {A} (a : A) : respects R (ret a).
Proof. intros st r st' H. inversion H; subst. apply R_refl. Qed.

Lemma respects_raise {A} (e : exn) : respects R (@raise A e).
Proof. intros st r st' H. inversion H; subst. apply R_refl. Qed.

Lemma respects_lift {A} (x : result A) : respects R (lift x).
Proof. intros st r st' H. inversion H; subst. apply R_refl. Qed.

Lemma respects_bind {A B} (m : M A) (k : A -> M B) :
  respects R m -> (forall a, respects R (k a)) -> respects R (bind m k).
Proof.
  intros Hm Hk st r st' H. unfold bind in H.
  destruct (m st) as [[[a|e] st1]|] eqn:Hrun; [| |discriminate].
  - eapply R_trans; [eapply Hm; exact Hrun | eapply Hk; exact H].
  - inversion H; subst. eapply Hm. exact Hrun.
Qed.

Lemma respects_try {A} (m : M A) (h : exn -> M A) :
  respects R m -> (forall e, respects R (h e)) -> respects R (try_except m h).
Proof.
  intros Hm Hh st r st' H. unfold try_except in H.
  destruct (m st) as [[[a|e] st1]|] eqn:Hrun; [| |discriminate].
  - inversion H; subst. eapply Hm. exact Hrun.
  - eapply R_trans; [eapply Hm; exact Hrun | eapply Hh; exact H].
Qed.

Lemma respects_print (m : msg) : respects R (print m).
Proof. intros st r st' H. inversion H; subst. apply R_output. Qed.

Lemma respects_print_all (ms : list msg) : respects R (print_all ms).
Proof. intros st r st' H. inversion H; subst. apply R_output. Qed.

Lemma respects_set_metric (k : metric) (v : Z) : respects R (set_metric k v).
Proof. intros st r st' H. inversion H; subst. apply R_metrics. Qed.

Lemma respects_init_metrics : respects R init_metrics.
Proof. intros st r st' H. inversion H; subst. apply R_metrics. Qed.

Lemma respects_get_metrics : respects R get_metrics.
Proof. intros st r st' H. inversion H; subst. apply R_refl. Qed.

Lemma respects_fetch_both (fuel : nat) (lang k sec : string) :
  respects R (fetch_both env fuel lang k sec).
Proof.
  intros st r st' H. unfold fetch_both in H.
  destruct (fetch_products _ _ _ _ _) as [[trp rp]|]; [|discriminate].
  destruct (fetch_variants _ _ _ _ _) as [[trv rv]|]; [|discriminate].
  inversion H; subst. apply (R_output st (prints trp ++ prints trv)).
Qed.

Lemma respects_run_attach (ps vs : list pydict) (name : string) :
  respects R (run_attach ps vs name).
Proof.
  intros st r st' H. unfold run_attach in H.
  destruct (attach_variants ps vs (Some name)) as [out res].
  inversion H; subst. apply R_output.
Qed.

Lemma respects_bulk_upsert (t : string) (rows : list row) (cols : list string) :
  (forall rs, P (DbUpsert t rs cols)) -> respects R (bulk_upsert env t rows cols).
Proof.
  intros HP. unfold bulk_upsert. destruct rows as [|r rows]; [apply respects_ret|].
  apply respects_try.
  - apply respects_bind; [apply R_execute, HP | intros; apply respects_ret].
  - intros e. apply respects_bind; [apply respects_print | intros; apply respects_raise].
Qed.

Lemma respects_cleanup (s : shop) (t column : string) (metric : metric)
    (deleted : nat -> msg) (ids : gset pykey) :
  (forall c k, P (DbSelect t c k)) -> (forall k c l, P (DbDelete t k c l)) ->
  respects R (cleanup env s t column metric deleted ids).
Proof.
  intros Hsel Hdel. unfold cleanup.
  apply respects_bind; [apply R_execute, Hsel|]. intros existing.
  apply respects_bind; [apply respects_lift|]. intros existing_ids.
  destruct (decide (existing_ids ∖ ids = ∅)); [apply respects_ret|].
  apply respects_bind; [apply R_execute, Hdel|]. intros _.
  apply respects_bind; [apply respects_set_metric | intros; apply respects_print].
Qed.

Lemma respects_cleanup_orphans (s : shop) (products : list attached) (b : built_rows) :
  (forall op, op_table op = "products" \/ op_table op = "variants" -> P op) ->
  respects R (cleanup_orphans env s products b).
Proof.
  intros HP. unfold cleanup_orphans.
  apply respects_bind; [apply respects_lift|]. intros pids.
  apply respects_bind.
  { apply respects_cleanup; intros; apply HP; left; reflexivity. }
  intros _. apply respects_bind; [apply respects_lift|]. intros vids.
  apply respects_bind.
  { apply respects_cleanup; intros; apply HP; right; reflexivity. }
  intros _. apply respects_ret.
Qed.

Lemma respects_sync_language (fuel : nat) (s : shop) (k sec : string)
    (vp vv : gset pykey) (lang : string) :
  (forall op, op_table op = "product_content" \/ op_table op = "variant_content" -> P op) ->
  respects R (sync_language env fuel s k sec vp vv lang).
Proof.
  intros HP. unfold sync_language.
  apply respects_bind; [apply respects_print|]. intros _.
  apply respects_bind; [apply respects_fetch_both|]. intros [lps lvs].
  apply respects_bind; [apply respects_lift|]. intros prows.
  apply respects_bind; [apply respects_lift|]. intros vrows.
  apply respects_bind.
  { destruct (Z.ltb 0 _); [apply respects_print | apply respects_ret]. }
  intros _. apply respects_bind.
  { destruct (Z.ltb 0 _); [apply respects_print | apply respects_ret]. }
  intros _. apply respects_bind.
  - apply respects_bulk_upsert. intros; apply HP; left; reflexivity.
  - intros _. apply respects_bulk_upsert. intros; apply HP; right; reflexivity.
Qed.

Lemma respects_sync_languages (fuel : nat) (s : shop) (k sec base : string)
    (vp vv : gset pykey) (langs : list string) :
  (forall op, op_table op = "product_content" \/ op_table op = "variant_content" -> P op) ->
  respects R (sync_languages env fuel s k sec base vp vv langs).
Proof.
  intros HP. induction langs as [|lang rest IH]; [apply respects_ret|].
  cbn [sync_languages]. apply respects_bind; [|intros _; exact IH].
  destruct (String.eqb lang base); [apply respects_ret|].
  apply respects_sync_language. exact HP.
Qed.

Lemma respects_sync_catalogue (fuel : nat) (s : shop) :
  (forall op, op_table op <> "sync_logs" -> P op) ->
  respects R (sync_catalogue env fuel s).
Proof.
  intros HP. unfold sync_catalogue.
  apply respects_bind; [apply respects_lift|]. intros [k sec].
  apply respects_bind; [apply respects_lift|]. intros base.
  apply respects_bind; [apply respects_fetch_both|]. intros [ps vs].
  apply respects_bind; [apply respects_set_metric|]. intros _.
  apply respects_bind; [apply respects_set_metric|]. intros _.
  apply respects_bind; [apply respects_print|]. intros _.
  apply respects_bind; [apply respects_run_attach|]. intros [aps vs'].
  apply respects_bind; [apply respects_set_metric|]. intros _.
  apply respects_bind; [apply respects_lift|]. intros b.
  apply respects_bind; [apply respects_print|]. intros _.
  apply respects_bind; [apply respects_set_metric|]. intros _.
  apply respects_bind; [apply respects_set_metric|]. intros _.
  apply respects_bind.
  { apply respects_bulk_upsert. intros; apply HP; discriminate. }
  intros _. apply respects_bind.
  { apply respects_bulk_upsert. intros; apply HP; discriminate. }
  intros _. apply respects_bind.
  { apply respects_bulk_upsert. intros; apply HP; discriminate. }
  intros _. apply respects_bind.
  { apply respects_bulk_upsert. intros; apply HP; discriminate. }
  intros _. apply respects_bind.
  { apply respects_cleanup_orphans. intros op [H|H]; apply HP; rewrite H; discriminate. }
  intros [vp vv]. apply respects_sync_languages.
  intros op [H|H]; apply HP; rewrite H; discriminate.
Qed.

Lemma respects_sync_shop (fuel : nat) (s : shop) :
  (forall op, P op) -> respects R (sync_shop env fuel s).
Proof.
  intros HP. unfold sync_shop.
  apply respects_bind; [apply respects_print|]. intros _.
  apply respects_bind; [apply R_execute, HP|]. intros data.
  apply respects_bind; [apply respects_lift|]. intros log_id.
  apply respects_bind; [apply respects_init_metrics|]. intros _.
  apply respects_try.
  - unfold sync_shop_body. apply respects_bind.
    + apply respects_sync_catalogue. intros; apply HP.
    + intros _. unfold close_success.
      apply respects_bind; [apply respects_get_metrics|]. intros m.
      apply respects_bind; [apply R_execute, HP | intros; apply respects_ret].
  - intros e. unfold sync_shop_handler.
    apply respects_bind; [apply respects_get_metrics|]. intros m.
    apply respects_bind; [apply R_execute, HP | intros; apply respects_raise].
Qed.

Lemma respects_run_one (fuel : nat) (s : shop) :
  (forall op, P op) -> respects R (run_one env fuel s).
Proof.
  intros HP. unfold run_one. apply respects_try.
  - apply respects_sync_shop. exact HP.
  - intros e. apply respects_print.
Qed.

Lemma respects_run_shops (fuel : nat) (shops : list shop) :
  (forall op, P op) -> respects R (run_shops env fuel shops).
Proof.
  intros HP. induction shops as [|s rest IH]; [apply respects_ret|].
  cbn [run_shops]. apply respects_bind; [apply respects_run_one; exact HP | intros _; exact IH].
Qed.
End Respects.

(** ** Cleanup *)

Lemma filter_all {A} (f : A -> bool) (l : list A) :
  (forall a, In a l -> f a = true) -> List.filter f l = l.
Proof.
  induction l as [|a l IH]; intros H; [reflexivity|].
  simpl. rewrite (H a (or_introl eq_refl)). f_equal. apply IH.
  intros b Hb. apply H. right. exact Hb.
Qed.

Lemma table_rows_insert (d : gmap string (list row)) (t : string) (rows : list row) :
  table_rows (<[t := rows]> d) t = rows.
Proof. unfold table_rows. rewrite lookup_insert_eq. reflexivity. Qed.

Lemma table_rows_insert_ne (d : gmap string (list row)) (t t' : string) (rows : list row) :
  t <> t' -> table_rows (<[t := rows]> d) t' = table_rows d t'.
Proof. intros H. unfold table_rows. rewrite lookup_insert_ne by exact H. reflexivity. Qed.

Lemma surviving_spec (shop : pykey) (column : string) (orphaned : gset pykey)
    (rows : list row) (r : row) :
  In r (surviving shop column orphaned rows) <->
  In r rows /\ ~ doomed shop column orphaned r.
Proof.
  unfold surviving, doomed, deleted_by, column_in. rewrite filter_In.
  split; intros [Hin H]; (split; [exact Hin|]).
  - intros [Hshop (k & Hk & Hor)]. rewrite Hshop, Hk in H. simpl in H.
    rewrite bool_decide_eq_true_2 in H by (apply elem_of_elements; exact Hor).
    discriminate.
  - apply negb_true_iff. apply not_true_iff_false. intros Hdel.
    apply andb_true_iff in Hdel. destruct Hdel as [Hshop Hcol]. apply H.
    split; [exact Hshop|]. destruct (column_key r column) as [k|]; [|discriminate].
    exists k. split; [reflexivity|]. apply bool_decide_eq_true_1 in Hcol.
    apply elem_of_elements. exact Hcol.
Qed.

Lemma surviving_empty (shop : pykey) (column : string) (rows : list row) :
  surviving shop column ∅ rows = rows.
Proof.
  unfold surviving. apply filter_all. intros r _. unfold deleted_by, column_in.
  rewrite elements_empty. destruct (column_key r column) as [k|].
  - rewrite bool_decide_eq_false_2 by (intros H; inversion H).
    rewrite andb_false_r. reflexivity.
  - rewrite andb_false_r. reflexivity.
Qed.

Lemma selected_row_key (r : row) (column : string) (k : pykey) :
  column_key r column = Some k ->
  rbind (dict_getitem [(column, dict_get r column JNull)] column) hash_key = Ok k.
Proof.
  unfold column_key, dict_getitem, dict_get, hash_key. simpl. rewrite String.eqb_refl.
  destruct (dict_lookup r column) as [v|]; [|discriminate]. cbn [rbind].
  intros ->. reflexivity.
Qed.

Lemma selected_keys (column : string) (rows : list row) :
  (forall r, In r rows -> column_key r column <> None) ->
  map_result (fun r => rbind (dict_getitem r column) hash_key)
    (List.map (fun r => [(column, dict_get r column JNull)]) rows) =
  Ok (flat_map (fun r => match column_key r column with Some k => [k] | None => [] end) rows).
Proof.
  induction rows as [|r rows IH]; intros Hk; [reflexivity|].
  cbn [List.map map_result flat_map].
  destruct (column_key r column) as [k|] eqn:Hr.
  - rewrite (selected_row_key r column k Hr). cbn [rbind].
    rewrite IH by (intros r' Hr'; apply Hk; right; exact Hr'). reflexivity.
  - exfalso. exact (Hk r (or_introl eq_refl) Hr).
Qed.

(** The set built from the answer of the select is the set of stored ids. *)
Lemma select_column_set (d : gmap string (list row)) (t column : string) (shop : pykey) :
  keyed d t column shop ->
  column_set column (fst (db_apply (DbSelect t column shop) d)) =
    Ok (stored_ids d t column shop).
Proof.
  intros Hkeyed. unfold column_set, stored_ids. cbn [db_apply fst].
  rewrite selected_keys; [reflexivity|].
  intros r Hr. apply filter_In in Hr. destruct Hr as [Hin Hshop].
  exact (Hkeyed r Hin Hshop).
Qed.

(** One cleanup block, run on a healthy store. *)
Lemma cleanup_run (env : environment) (s : shop) (t column : string) (metric : metric)
    (deleted : nat -> msg) (api_ids : gset pykey) (st : state) :
  (forall n t c k, db_fault env n (DbSelect t c k) = None) ->
  (forall n t k c ids, db_fault env n (DbDelete t k c ids) = None) ->
  keyed (db st) t column (shop_id s) ->
  exists st',
    cleanup env s t column metric deleted api_ids st = Some (Ok tt, st') /\
    table_rows (db st') t =
      surviving (shop_id s) column (stored_ids (db st) t column (shop_id s) ∖ api_ids)
                (table_rows (db st) t) /\
    (forall t', t' <> t -> table_rows (db st') t' = table_rows (db st) t') /\
    requests st' =
      requests st ++ [DbSelect t column (shop_id s)]
      ++ delete_request t (shop_id s) column
           (stored_ids (db st) t column (shop_id s) ∖ api_ids).
Proof.
  intros Hsel Hdel Hkeyed. unfold cleanup, bind, db_execute at 1. rewrite Hsel.
  pose proof (select_column_set (db st) t column (shop_id s) Hkeyed) as Hset.
  destruct (db_apply (DbSelect t column (shop_id s)) (db st)) as [data d'] eqn:Happly.
  assert (Hd : d' = db st) by (simpl in Happly; inversion Happly; reflexivity).
  subst d'. simpl in Hset. unfold lift. rewrite Hset.
  set (orphaned := stored_ids (db st) t column (shop_id s) ∖ api_ids).
  unfold delete_request. destruct (decide (orphaned = ∅)) as [Hempty|Hne].
  - eexists. split; [reflexivity|]. cbn [db requests].
    rewrite Hempty, surviving_empty. auto.
  - unfold db_execute. cbn [db requests output metrics]. rewrite Hdel.
    cbn [db_apply]. unfold set_metric, print. cbn [db requests output metrics].
    eexists. split; [reflexivity|]. cbn [db requests].
    split; [apply table_rows_insert|]. split.
    + intros t' Hne'. apply table_rows_insert_ne. congruence.
    + rewrite <- app_assoc. reflexivity.
Qed.

Lemma stored_ids_same_rows (d d' : gmap string (list row)) (t column : string) (shop : pykey) :
  table_rows d' t = table_rows d t -> stored_ids d' t column shop = stored_ids d t column shop.
Proof. intros H. unfold stored_ids. rewrite H. reflexivity. Qed.

Lemma keyed_same_rows (d d' : gmap string (list row)) (t column : string) (shop : pykey) :
  table_rows d' t = table_rows d t -> keyed d t column shop -> keyed d' t column shop.
Proof. intros H Hk r Hr. rewrite H in Hr. exact (Hk r Hr). Qed.

(** C1.  On a healthy store whose rows carry scalar ids, the cleanup section
    of a shop run sends one select per table, deletes from [products] exactly
    the rows of the shop whose id is stored and was not fetched, deletes from
    [variants] exactly the rows of the shop whose id is stored and is not the
    id of a variant row of this run, leaves every other table alone, and
    sends a delete request only for a non-empty difference. *)
Theorem cleanup_deletes_exactly_the_differences
    (env : environment) (s : shop) (products : list attached) (b : built_rows)
    (st : state) (fetched_products fetched_variants : gset pykey) :
  id_set (List.map product products) = Ok fetched_products ->
  column_set "lightspeed_variant_id" (variant_rows b) = Ok fetched_variants ->
  (forall n t c k, db_fault env n (DbSelect t c k) = None) ->
  (forall n t k c ids, db_fault env n (DbDelete t k c ids) = None) ->
  keyed (db st) "products" "lightspeed_product_id" (shop_id s) ->
  keyed (db st) "variants" "lightspeed_variant_id" (shop_id s) ->
  let orphaned_products :=
    stored_ids (db st) "products" "lightspeed_product_id" (shop_id s) ∖ fetched_products in
  let orphaned_variants :=
    stored_ids (db st) "variants" "lightspeed_variant_id" (shop_id s) ∖ fetched_variants in
  exists st',
    cleanup_orphans env s products b st = Some (Ok (fetched_products, fetched_variants), st') /\
    table_rows (db st') "products" =
      surviving (shop_id s) "lightspeed_product_id" orphaned_products
                (table_rows (db st) "products") /\
    table_rows (db st') "variants" =
      surviving (shop_id s) "lightspeed_variant_id" orphaned_variants
                (table_rows (db st) "variants") /\
    (forall r, In r (table_rows (db st') "products") <->
       In r (table_rows (db st) "products") /\
       ~ doomed (shop_id s) "lightspeed_product_id" orphaned_products r) /\
    (forall r, In r (table_rows (db st') "variants") <->
       In r (table_rows (db st) "variants") /\
       ~ doomed (shop_id s) "lightspeed_variant_id" orphaned_variants r) /\
    (forall t, t <> "products" -> t <> "variants" ->
       table_rows (db st') t = table_rows (db st) t) /\
    requests st' =
      requests st
      ++ [DbSelect "products" "lightspeed_product_id" (shop_id s)]
      ++ delete_request "products" (shop_id s) "lightspeed_product_id" orphaned_products
      ++ [DbSelect "variants" "lightspeed_variant_id" (shop_id s)]
      ++ delete_request "variants" (shop_id s) "lightspeed_variant_id" orphaned_variants.
Proof.
  intros Hp Hv Hsel Hdel Hkp Hkv orphaned_products orphaned_variants.
  destruct (cleanup_run env s "products" "lightspeed_product_id" ProductsDeleted
              MsgDeletedProducts fetched_products st Hsel Hdel Hkp)
    as (st1 & Hrun1 & Hrows1 & Hother1 & Hreq1).
  assert (Hvar1 : table_rows (db st1) "variants" = table_rows (db st) "variants")
    by (apply Hother1; discriminate).
  destruct (cleanup_run env s "variants" "lightspeed_variant_id" VariantsDeleted
              MsgDeletedVariants fetched_variants st1 Hsel Hdel
              (keyed_same_rows _ _ _ _ _ Hvar1 Hkv))
    as (st2 & Hrun2 & Hrows2 & Hother2 & Hreq2).
  rewrite (stored_ids_same_rows _ _ _ _ _ Hvar1), Hvar1 in Hrows2.
  rewrite (stored_ids_same_rows _ _ _ _ _ Hvar1) in Hreq2.
  assert (Hprod2 : table_rows (db st2) "products" =
                   surviving (shop_id s) "lightspeed_product_id" orphaned_products
                     (table_rows (db st) "products")).
  { rewrite Hother2 by discriminate. exact Hrows1. }
  exists st2. split.
  { unfold cleanup_orphans, bind, lift. rewrite Hp, Hrun1, Hv, Hrun2. reflexivity. }
  split; [exact Hprod2|]. split; [exact Hrows2|]. split.
  { intros r. rewrite Hprod2. apply surviving_spec. }
  split.
  { intros r. rewrite Hrows2. apply surviving_spec. }
  split.
  { intros t Htp Htv. rewrite Hother2 by exact Htv. apply Hother1. exact Htp. }
  rewrite Hreq2, Hreq1. rewrite <- !app_assoc. reflexivity.
Qed.

(** What the iff of the theorem says, read for one row. *)
Lemma doomed_reading (shop : pykey) (column : string) (stored fetched : gset pykey) (r : row) :
  (column_is r "shop_id" shop = false -> ~ doomed shop column (stored ∖ fetched) r) /\
  (forall k, column_key r column = Some k -> k ∈ fetched ->
             ~ doomed shop column (stored ∖ fetched) r) /\
  (forall k, column_is r "shop_id" shop = true -> column_key r column = Some k ->
             k ∈ stored -> k ∉ fetched -> doomed shop column (stored ∖ fetched) r).
Proof.
  unfold doomed. split; [|split].
  - intros Hshop [Hs _]. congruence.
  - intros k Hk Hin [_ (k' & Hk' & Hor)]. apply elem_of_difference in Hor.
    destruct Hor as [_ Hnot]. apply Hnot. congruence.
  - intros k Hshop Hk Hin Hnot. split; [exact Hshop|]. exists k. split; [exact Hk|].
    apply elem_of_difference. split; assumption.
Qed.

Lemma cleanup_deletes_exactly_the_differences_witness :
  exists st',
    cleanup_orphans healthy_env shop_one fetched_235 built_235 cleanup_state =
      Some (Ok ({[KInt 2; KInt 3; KInt 5]}, {[KInt 42]}), st') /\
    table_rows (db st') "products" =
      [stored_product 2 1; stored_product 1 2; stored_product 1 3;
       stored_product 2 4; stored_product 1 5] /\
    table_rows (db st') "variants" = [stored_variant 1 42] /\
    requests st' =
      [DbSelect "products" "lightspeed_product_id" (KInt 1);
       DbDelete "products" (KInt 1) "lightspeed_product_id" [KInt 4; KInt 1];
       DbSelect "variants" "lightspeed_variant_id" (KInt 1);
       DbDelete "variants" (KInt 1) "lightspeed_variant_id" [KInt 41]].
Proof.
  destruct (cleanup_deletes_exactly_the_differences healthy_env shop_one fetched_235
              built_235 cleanup_state {[KInt 2; KInt 3; KInt 5]} {[KInt 42]})
    as (st' & Hrun & Hp & Hv & _ & _ & _ & Hreq).
  - vm_compute. reflexivity.
  - vm_compute. reflexivity.
  - reflexivity.
  - reflexivity.
  - intros r Hin _. vm_compute in Hin.
    repeat (destruct Hin as [<-|Hin]; [discriminate|]). destruct Hin.
  - intros r Hin _. vm_compute in Hin.
    repeat (destruct Hin as [<-|Hin]; [discriminate|]). destruct Hin.
  - exists st'. split; [exact Hrun|]. split; [rewrite Hp; vm_compute; reflexivity|].
    split; [rewrite Hv; vm_compute; reflexivity|]. rewrite Hreq. vm_compute. reflexivity.
Defined.

(** The variant ids of a run are those of its variant rows.  A stored variant
    that was fetched again but whose product was not (variant 102 of the
    language example) is therefore deleted. *)
Example fetched_orphan_variant_is_deleted :
  exists st',
    sync_shop demo_env 2 shop_one orphan_store = Some (Ok tt, st') /\
    List.map (fun r => dict_get r "lightspeed_variant_id" JNull)
      (table_rows (db st') "variants") = [JInt 100; JInt 101] /\
    In (DbDelete "variants" (KInt 1) "lightspeed_variant_id" [KInt 102]) (requests st').
Proof.
  eexists. split; [vm_compute; reflexivity|]. split; [vm_compute; reflexivity|].
  vm_compute. tauto.
Qed.

(** ** Secondary languages *)









(** ** The valid id sets *)






(** ** The audit row *)

Lemma fresh_id_bound (tbl : list row) :
  forall (m : Z) (r : row) (n : Z),
    In r tbl -> column_key r "id" = Some (KInt n) ->
    (n < fold_left (fun m r => match column_key r "id" with
                               | Some (KInt n) => Z.max m (n + 1)
                               | _ => m
                               end) tbl m)%Z.
Proof.
  assert (Hmono : forall (l : list row) (m : Z),
            (m <= fold_left (fun m r => match column_key r "id" with
                                        | Some (KInt n) => Z.max m (n + 1)
                                        | _ => m
                                        end) l m)%Z).
  { induction l as [|r l IH]; intros m; simpl; [lia|].
    destruct (column_key r "id") as [[|n|]|]; try apply IH.
    eapply Z.le_trans; [|apply IH]. lia. }
  induction tbl as [|r0 tbl IH]; intros m r n Hin Hk; [destruct Hin|].
  simpl. destruct Hin as [->|Hin].
  - rewrite Hk. eapply Z.lt_le_trans; [|apply Hmono]. lia.
  - apply (IH _ r n Hin Hk).
Qed.

Lemma fresh_id_fresh (tbl : list row) (r : row) :
  In r tbl -> column_key r "id" <> Some (KInt (fresh_id tbl)).
Proof.
  intros Hin Hk. pose proof (fresh_id_bound tbl 1%Z r _ Hin Hk) as H.
  unfold fresh_id in H. lia.
Qed.

Lemma audit_row_updated (s : shop) (st : state) :
  updated_by (audit_id st) (audit_row s st) = true.
Proof. unfold updated_by, audit_id, audit_row, column_is. simpl. apply bool_decide_eq_true_2. reflexivity. Qed.

Lemma audit_row_closed (s : shop) (st : state) (e : exn) (m : counters) :
  merge_row (audit_row s st) (error_fields e m) = error_row s (audit_id st) e m.
Proof. reflexivity. Qed.

(** Updating by the fresh identifier rewrites the audit row and no other. *)
Lemma update_audit_row (s : shop) (st : state) (fields : row) :
  List.map (fun r => if updated_by (audit_id st) r then merge_row r fields else r)
    (table_rows (db st) "sync_logs" ++ [audit_row s st]) =
  table_rows (db st) "sync_logs" ++ [merge_row (audit_row s st) fields].
Proof.
  rewrite List.map_app. cbn [List.map]. rewrite audit_row_updated. f_equal.
  rewrite <- (List.map_id (table_rows (db st) "sync_logs")) at 2.
  apply List.map_ext_in. intros r Hin.
  destruct (updated_by (audit_id st) r) eqn:Hup; [|reflexivity].
  exfalso. unfold updated_by, audit_id in Hup. simpl in Hup. unfold column_is in Hup.
  apply bool_decide_eq_true_1 in Hup. exact (fresh_id_fresh _ r Hin Hup).
Qed.

Lemma same_logs_refl (st : state) : same_logs st st.
Proof. reflexivity. Qed.

Lemma same_logs_trans (a b c : state) : same_logs a b -> same_logs b c -> same_logs a c.
Proof. unfold same_logs. congruence. Qed.

Lemma same_logs_execute (env : environment) (op : db_op) :
  op_table op <> "sync_logs" -> respects same_logs (db_execute env op).
Proof.
  intros Ht st r st' H. unfold db_execute in H.
  destruct (db_fault env _ op); [inversion H; reflexivity|].
  destruct (db_apply op (db st)) as [data d'] eqn:Happly. inversion H; subst.
  unfold same_logs. cbn [db].
  destruct op; simpl in Happly, Ht; inversion Happly; subst;
    try reflexivity; apply table_rows_insert_ne; exact Ht.
Qed.

(** The catalogue steps never touch the audit table. *)
Lemma sync_catalogue_same_logs (env : environment) (fuel : nat) (s : shop) :
  respects same_logs (sync_catalogue env fuel s).
Proof.
  apply (respects_sync_catalogue same_logs (fun op => op_table op <> "sync_logs") env
           same_logs_refl same_logs_trans).
  - intros st ms. reflexivity.
  - intros st m. reflexivity.
  - intros op. apply same_logs_execute.
  - auto.
Qed.

(** A [try] block that raises leaves the audit table as it found it. *)
Lemma body_raise_same_logs (env : environment) (fuel : nat) (s : shop) (id : json)
    (st0 st1 : state) (e : exn) :
  sync_shop_body env fuel s id st0 = Some (Raise e, st1) -> same_logs st0 st1.
Proof.
  unfold sync_shop_body, bind. intros H.
  destruct (sync_catalogue env fuel s st0) as [[[[]|e0] stc]|] eqn:Hc; [| |discriminate].
  - apply (same_logs_trans st0 stc st1); [exact (sync_catalogue_same_logs _ _ _ _ _ _ Hc)|].
    unfold close_success, bind, get_metrics, db_execute in H.
    destruct (db_fault env _ _); [inversion H; reflexivity|].
    destruct (db_apply _ (db stc)). discriminate.
  - inversion H; subst. exact (sync_catalogue_same_logs _ _ _ _ _ _ Hc).
Qed.

Lemma sync_shop_opened (env : environment) (fuel : nat) (s : shop) (st : state) :
  db_fault env (List.length (requests st)) (DbInsert "sync_logs" (running_row s)) = None ->
  sync_shop env fuel s st =
    try_except (sync_shop_body env fuel s (audit_id st))
               (sync_shop_handler env (audit_id st)) (opened s st).
Proof.
  intros Hok. unfold sync_shop, bind, print, db_execute. cbn [db requests output metrics].
  rewrite Hok. reflexivity.
Qed.

(** The [except] block: with the update accepted, a raised exception leaves
    the run with its audit row rewritten and is raised again. *)
Lemma sync_shop_raise (env : environment) (fuel : nat) (s : shop) (st st1 : state) (e : exn) :
  db_fault env (List.length (requests st)) (DbInsert "sync_logs" (running_row s)) = None ->
  sync_shop_body env fuel s (audit_id st) (opened s st) = Some (Raise e, st1) ->
  db_fault env (List.length (requests st1))
    (DbUpdate "sync_logs" (error_fields e (metrics st1)) (audit_id st)) = None ->
  sync_shop env fuel s st =
    Some (Raise e,
          State (<["sync_logs" := table_rows (db st) "sync_logs"
                                  ++ [error_row s (audit_id st) e (metrics st1)]]> (db st1))
                (requests st1
                 ++ [DbUpdate "sync_logs" (error_fields e (metrics st1)) (audit_id st)])
                (output st1) (metrics st1)).
Proof.
  intros Hins Hbody Hupd. rewrite (sync_shop_opened env fuel s st Hins).
  unfold try_except. rewrite Hbody.
  unfold sync_shop_handler, bind, get_metrics, db_execute. rewrite Hupd. cbn [db_apply].
  pose proof (body_raise_same_logs _ _ _ _ _ _ _ Hbody) as Hlogs. unfold same_logs in Hlogs.
  rewrite Hlogs. unfold opened at 1. cbn [db]. rewrite table_rows_insert.
  rewrite update_audit_row, audit_row_closed. reflexivity.
Qed.

(** C6.  The audit row is open and the [try] block raises [e], leaving the
    state [st1].  The run then sends one more request, the update of its
    audit row with status "error", [str(e)] as message and the seven
    counters as they stand in [st1], the moment of the failure, and changes
    no other table.  If the store accepts that update, the audit row of the
    run becomes the error row and the run raises [e] again; if the store
    refuses it, the audit row stays as inserted, with status "running", and
    the run raises the error of the store in place of [e]. *)
Theorem failed_run_closes_audit_row
    (env : environment) (fuel : nat) (s : shop) (st st1 : state) (e : exn) :
  db_fault env (List.length (requests st)) (DbInsert "sync_logs" (running_row s)) = None ->
  sync_shop_body env fuel s (audit_id st) (opened s st) = Some (Raise e, st1) ->
  exists r st2,
    sync_shop env fuel s st = Some (r, st2) /\
    requests st2 =
      requests st1 ++ [DbUpdate "sync_logs" (error_fields e (metrics st1)) (audit_id st)] /\
    error_fields e (metrics st1) =
      [("status", JStr "error"); ("completed_at", JStr "now()");
       ("error_message", JStr (exn_str e));
       ("products_fetched", JInt (products_fetched (metrics st1)));
       ("variants_fetched", JInt (variants_fetched (metrics st1)));
       ("products_synced", JInt (products_synced (metrics st1)));
       ("variants_synced", JInt (variants_synced (metrics st1)));
       ("products_deleted", JInt (products_deleted (metrics st1)));
       ("variants_deleted", JInt (variants_deleted (metrics st1)));
       ("variants_filtered", JInt (variants_filtered (metrics st1)))] /\
    (forall m, e = RuntimeError m \/ e = RequestException m \/ e = APIError m ->
               exn_str e = m) /\
    (forall k, e = KeyError k -> exn_str e = "'" +:+ k +:+ "'") /\
    (forall t a, e = AttributeError t a ->
                 exn_str e = "'" +:+ t +:+ "' object has no attribute '" +:+ a +:+ "'") /\
    (forall t, t <> "sync_logs" -> table_rows (db st2) t = table_rows (db st1) t) /\
    match db_fault env (List.length (requests st1))
            (DbUpdate "sync_logs" (error_fields e (metrics st1)) (audit_id st)) with
    | None =>
        r = Raise e /\
        table_rows (db st2) "sync_logs" =
          table_rows (db st) "sync_logs"
          ++ [[("shop_id", json_of_key (shop_id s)); ("status", JStr "error");
               ("id", audit_id st); ("completed_at", JStr "now()");
               ("error_message", JStr (exn_str e));
               ("products_fetched", JInt (products_fetched (metrics st1)));
               ("variants_fetched", JInt (variants_fetched (metrics st1)));
               ("products_synced", JInt (products_synced (metrics st1)));
               ("variants_synced", JInt (variants_synced (metrics st1)));
               ("products_deleted", JInt (products_deleted (metrics st1)));
               ("variants_deleted", JInt (variants_deleted (metrics st1)));
               ("variants_filtered", JInt (variants_filtered (metrics st1)))]]
    | Some err =>
        r = Raise (APIError err) /\
        table_rows (db st2) "sync_logs" =
          table_rows (db st) "sync_logs"
          ++ [[("shop_id", json_of_key (shop_id s)); ("status", JStr "running");
               ("id", audit_id st)]]
    end.
Proof.
  intros Hins Hbody.
  pose proof (body_raise_same_logs _ _ _ _ _ _ _ Hbody) as Hlogs. unfold same_logs in Hlogs.
  destruct (db_fault env (List.length (requests st1))
              (DbUpdate "sync_logs" (error_fields e (metrics st1)) (audit_id st)))
    as [err|] eqn:Hupd.
  - exists (Raise (APIError err)). eexists. split.
    { rewrite (sync_shop_opened env fuel s st Hins). unfold try_except. rewrite Hbody.
      unfold sync_shop_handler, bind, get_metrics, db_execute. rewrite Hupd. reflexivity. }
    cbn [db requests]. split; [reflexivity|]. split; [reflexivity|].
    split; [intros m [->|[->| ->]]; reflexivity|].
    split; [intros k ->; reflexivity|]. split; [intros t a ->; reflexivity|].
    split; [reflexivity|]. split; [reflexivity|].
    rewrite Hlogs. unfold opened. cbn [db]. apply table_rows_insert.
  - exists (Raise e). eexists. split.
    { exact (sync_shop_raise env fuel s st st1 e Hins Hbody Hupd). }
    cbn [db requests]. split; [reflexivity|]. split; [reflexivity|].
    split; [intros m [->|[->| ->]]; reflexivity|].
    split; [intros k ->; reflexivity|]. split; [intros t a ->; reflexivity|].
    split; [intros t Ht; apply table_rows_insert_ne; congruence|].
    split; [reflexivity|]. apply table_rows_insert.
Qed.

Lemma failed_run_closes_audit_row_witness :
  exists st2,
    sync_shop failing_upsert_env 2 shop_one empty_state =
      Some (Raise (APIError "constraint violated"), st2) /\
    table_rows (db st2) "sync_logs" =
      [[("shop_id", JInt 1); ("status", JStr "error"); ("id", JInt 1);
        ("completed_at", JStr "now()"); ("error_message", JStr "constraint violated");
        ("products_fetched", JInt 2); ("variants_fetched", JInt 3);
        ("products_synced", JInt 2); ("variants_synced", JInt 2);
        ("products_deleted", JInt 0); ("variants_deleted", JInt 0);
        ("variants_filtered", JInt 1)]] /\
    List.map op_table (requests st2) =
      ["sync_logs"; "products"; "product_content"; "variants"; "sync_logs"].
Proof.
  destruct (failed_run_closes_audit_row failing_upsert_env 2 shop_one empty_state
              upsert_failure_state (APIError "constraint violated"))
    as (r & st2 & Hrun & Hreq & _ & _ & _ & _ & _ & Hend).
  - reflexivity.
  - vm_compute. reflexivity.
  - change (db_fault failing_upsert_env (List.length (requests upsert_failure_state))
              (DbUpdate "sync_logs"
                 (error_fields (APIError "constraint violated") (metrics upsert_failure_state))
                 (audit_id empty_state))) with (@None string) in Hend.
    destruct Hend as [-> Hlogs].
    exists st2. split; [exact Hrun|]. split.
    + rewrite Hlogs. vm_compute. reflexivity.
    + rewrite Hreq. vm_compute. reflexivity.
Defined.

(** The claim without the condition on the store: the credentials are
    missing, the store refuses the update, and the caller sees the error of
    the store while the audit row still says "running". *)
Lemma refused_update_hides_the_failure :
  sync_shop_body refusing_update_env 2 shop_one (JInt 1) (opened shop_one empty_state) =
    Some (Raise (RuntimeError "Missing API credentials for shop TLD=NL"),
          opened shop_one empty_state) /\
  exists st2,
    sync_shop refusing_update_env 2 shop_one empty_state =
      Some (Raise (APIError "connection lost"), st2) /\
    table_rows (db st2) "sync_logs" =
      [[("shop_id", JInt 1); ("status", JStr "running"); ("id", JInt 1)]].
Proof.
  split; [vm_compute; reflexivity|].
  eexists. split; [vm_compute; reflexivity|]. vm_compute. reflexivity.
Qed.

(** The other ways a run fails, evaluated: credentials that are not set, and
    a fetch that gives up.  The metrics are those gathered before the
    failure, here none. *)
Example missing_credentials_are_audited :
  exists st2,
    sync_shop healthy_env 2 shop_one empty_state =
      Some (Raise (RuntimeError "Missing API credentials for shop TLD=NL"), st2) /\
    table_rows (db st2) "sync_logs" =
      [error_row shop_one (JInt 1) (RuntimeError "Missing API credentials for shop TLD=NL")
         (Counters 0 0 0 0 0 0 0)].
Proof. eexists. split; vm_compute; reflexivity. Qed.

Example failed_fetch_is_audited :
  exists st2,
    sync_shop failing_fetch_env 2 shop_one empty_state =
      Some (Raise (RequestException "timed out"), st2) /\
    table_rows (db st2) "sync_logs" =
      [error_row shop_one (JInt 1) (RequestException "timed out") (Counters 0 0 0 0 0 0 0)] /\
    List.map op_table (requests st2) = ["sync_logs"; "sync_logs"].
Proof. eexists. split; [|split]; vm_compute; reflexivity. Qed.

Example failed_delete_is_audited :
  exists st2,
    sync_shop failing_delete_env 2 shop_one cleanup_state =
      Some (Raise (APIError "permission denied"), st2) /\
    List.map (fun r => dict_get r "status" JNull) (table_rows (db st2) "sync_logs") =
      [JStr "error"] /\
    metrics st2 = Counters 2 3 2 2 0 0 1.
Proof.
  eexists. split; [vm_compute; reflexivity|]. split; [vm_compute; reflexivity|].
  reflexivity.
Qed.

(** ** Required keys of a variant *)

Lemma build_variant_rows_ok (s : shop) (lang : string) (p : pydict) (vs : list pydict) :
  dict_lookup p "id" <> None -> existsb lacks_required vs = false ->
  exists r, build_variant_rows s lang p vs = Ok r.
Proof.
  intros Hp. induction vs as [|v vs IH]; intros Hvs; [eexists; reflexivity|].
  simpl in Hvs. apply orb_false_iff in Hvs. destruct Hvs as [Hv Hrest].
  destruct (IH Hrest) as ([vrs vcrs] & Hrec).
  cbn [build_variant_rows]. unfold variant_row, variant_content_row, dict_getitem.
  unfold lacks_required in Hv.
  destruct (dict_lookup p "id"); [|congruence].
  destruct (dict_lookup v "id"); [|discriminate].
  destruct (dict_lookup v "sku"); [|discriminate].
  cbn [rbind]. rewrite Hrec. cbn [rbind]. eauto.
Qed.

Lemma build_variant_rows_missing (s : shop) (lang : string) (p : pydict) (vs : list pydict) :
  dict_lookup p "id" <> None -> existsb lacks_required vs = true ->
  exists key, build_variant_rows s lang p vs = Raise (KeyError key) /\
              (key = "id" \/ key = "sku").
Proof.
  intros Hp. induction vs as [|v vs IH]; intros Hvs; [discriminate|].
  cbn [build_variant_rows]. unfold variant_row, variant_content_row, dict_getitem.
  simpl in Hvs. unfold lacks_required in Hvs at 1.
  destruct (dict_lookup p "id"); [|congruence]. cbn [rbind].
  destruct (dict_lookup v "id"); cbn [rbind].
  - destruct (dict_lookup v "sku"); cbn [rbind].
    + simpl in Hvs. destruct (IH Hvs) as (key & Hrec & Hkey).
      rewrite Hrec. cbn [rbind]. eauto.
    + exists "sku". auto.
  - exists "id". auto.
Qed.

Lemma build_rows_missing (s : shop) (lang : string) (ps : list attached) :
  Forall (fun a => dict_lookup (product a) "id" <> None) ps ->
  existsb (fun a => existsb lacks_required (variants_of a)) ps = true ->
  exists key, build_rows s lang ps = Raise (KeyError key) /\ (key = "id" \/ key = "sku").
Proof.
  induction ps as [|a ps IH]; intros Hall Hex; [discriminate|].
  inversion Hall as [|? ? Ha Hrest]; subst.
  cbn [build_rows]. unfold product_row, content_row.
  assert (Hid : exists pid, dict_getitem (product a) "id" = Ok pid).
  { unfold dict_getitem. destruct (dict_lookup (product a) "id"); [eauto | congruence]. }
  destruct Hid as (pid & Hpid). rewrite Hpid. cbn [rbind].
  simpl in Hex. destruct (existsb lacks_required (variants_of a)) eqn:Hbad.
  - destruct (build_variant_rows_missing s lang (product a) (variants_of a) Ha Hbad)
      as (key & Hrec & Hkey).
    rewrite Hrec. cbn [rbind]. eauto.
  - destruct (build_variant_rows_ok s lang (product a) (variants_of a) Ha Hbad)
      as ([vrs vcrs] & Hrec).
    rewrite Hrec. cbn [rbind]. simpl in Hex.
    destruct (IH Hrest Hex) as (key & Hrows & Hkey). rewrite Hrows. cbn [rbind]. eauto.
Qed.

Lemma attached_products_have_id (ps vs : list pydict) (name : option string)
    (out : list msg) (aps : list attached) (vs' : list pydict) :
  attach_variants ps vs name = (out, Ok (aps, vs')) ->
  Forall (fun a => dict_lookup (product a) "id" <> None) aps.
Proof.
  unfold attach_variants.
  destruct (group_variants vs []) as [[g vs0]|e]; [|discriminate].
  destruct (id_set ps) as [ids|e]; [|discriminate].
  destruct (map_result (attach_one g) ps) as [aps0|e] eqn:Hmap; [|discriminate].
  destruct (report_orphans name ids g) as [out0 [[]|e]]; cbn [rbind]; [|discriminate].
  intros H. inversion H; subst. apply map_result_inv in Hmap.
  clear H. induction Hmap as [|p a ps aps Hpa Hrest IH]; constructor; [|exact IH].
  unfold attach_one, entity_key, dict_getitem in Hpa.
  destruct (dict_lookup p "id") eqn:Hid; cbn [rbind] in Hpa; [|discriminate].
  destruct (hash_key j); cbn [rbind] in Hpa; [|discriminate].
  inversion Hpa; subst. simpl. congruence.
Qed.

(** The [try] block up to the row building, when the fetches and the join
    succeed and the row building raises. *)
Lemma body_raises_in_row_building (env : environment) (fuel : nat) (s : shop) (id : json)
    (st0 : state) (api_key api_secret base : string) (trp trv : list event)
    (ps vs : list pydict) (out : list msg) (aps : list attached) (vs' : list pydict) (e : exn) :
  resolve_credentials env s = Ok (api_key, api_secret) ->
  base_language (shop_languages s) = Ok base ->
  fetch_products (api env) fuel base api_key api_secret = Some (trp, Ok ps) ->
  fetch_variants (api env) fuel base api_key api_secret = Some (trv, Ok vs) ->
  attach_variants ps vs (Some (shop_name s)) = (out, Ok (aps, vs')) ->
  build_rows s base aps = Raise e ->
  exists st1,
    sync_shop_body env fuel s id st0 = Some (Raise e, st1) /\
    db st1 = db st0 /\ requests st1 = requests st0 /\
    metrics st1 =
      set_counter VariantsFiltered (variants_filtered_count vs' aps)
        (set_counter VariantsFetched (Z.of_nat (List.length vs))
           (set_counter ProductsFetched (Z.of_nat (List.length ps)) (metrics st0))).
Proof.
  intros Hc Hb Hfp Hfv Ha Hrows.
  unfold sync_shop_body, sync_catalogue, bind, lift. rewrite Hc, Hb.
  unfold fetch_both. rewrite Hfp, Hfv. cbn [rbind].
  unfold set_metric, print, run_attach. cbn [db requests output metrics].
  rewrite Ha, Hrows. eexists. split; [reflexivity|]. cbn [db requests metrics]. auto.
Qed.

(** C9.  The audit row is open, the base-language fetches and the join have
    succeeded, and some attached variant has no "sku" key or no "id" key.
    Then the row building raises a [KeyError] for that key and so does the
    run; the only requests the run sent are the insert of the audit row and
    the update that sets it to the error status: no upsert was attempted, and
    no table other than the audit table has changed. *)
Theorem variant_without_required_key_aborts_before_upsert
    (env : environment) (fuel : nat) (s : shop) (st : state)
    (api_key api_secret base : string) (trp trv : list event)
    (ps vs : list pydict) (out : list msg) (aps : list attached) (vs' : list pydict) :
  db_fault env (List.length (requests st)) (DbInsert "sync_logs" (running_row s)) = None ->
  (forall n fields id, db_fault env n (DbUpdate "sync_logs" fields id) = None) ->
  resolve_credentials env s = Ok (api_key, api_secret) ->
  base_language (shop_languages s) = Ok base ->
  fetch_products (api env) fuel base api_key api_secret = Some (trp, Ok ps) ->
  fetch_variants (api env) fuel base api_key api_secret = Some (trv, Ok vs) ->
  attach_variants ps vs (Some (shop_name s)) = (out, Ok (aps, vs')) ->
  existsb (fun a => existsb lacks_required (variants_of a)) aps = true ->
  exists key st2,
    (key = "id" \/ key = "sku") /\
    build_rows s base aps = Raise (KeyError key) /\
    sync_shop env fuel s st = Some (Raise (KeyError key), st2) /\
    requests st2 =
      requests st
      ++ [DbInsert "sync_logs" (running_row s);
          DbUpdate "sync_logs" (error_fields (KeyError key) (metrics st2)) (audit_id st)] /\
    table_rows (db st2) "sync_logs" =
      table_rows (db st) "sync_logs"
      ++ [error_row s (audit_id st) (KeyError key) (metrics st2)] /\
    (forall t, t <> "sync_logs" -> table_rows (db st2) t = table_rows (db st) t) /\
    metrics st2 =
      Counters (Z.of_nat (List.length ps)) (Z.of_nat (List.length vs)) 0 0 0 0
               (variants_filtered_count vs' aps).
Proof.
  intros Hins Hupd Hc Hb Hfp Hfv Ha Hbad.
  destruct (build_rows_missing s base aps (attached_products_have_id _ _ _ _ _ _ Ha) Hbad)
    as (key & Hrows & Hkey).
  destruct (body_raises_in_row_building env fuel s (audit_id st) (opened s st)
              api_key api_secret base trp trv ps vs out aps vs' (KeyError key)
              Hc Hb Hfp Hfv Ha Hrows)
    as (st1 & Hbody & Hdb & Hreq & Hm).
  exists key. eexists. split; [exact Hkey|]. split; [exact Hrows|]. split.
  { apply (sync_shop_raise env fuel s st st1 (KeyError key) Hins Hbody). apply Hupd. }
  cbn [db requests metrics]. rewrite Hreq, Hdb. unfold opened. cbn [db requests].
  split; [rewrite <- app_assoc; reflexivity|]. split; [apply table_rows_insert|]. split.
  - intros t Ht. rewrite !table_rows_insert_ne by congruence. reflexivity.
  - rewrite Hm. reflexivity.
Qed.

Lemma variant_without_required_key_aborts_before_upsert_witness :
  exists st2,
    sync_shop no_sku_env 2 shop_one empty_state = Some (Raise (KeyError "sku"), st2) /\
    List.map op_table (requests st2) = ["sync_logs"; "sync_logs"] /\
    table_rows (db st2) "sync_logs" =
      [error_row shop_one (JInt 1) (KeyError "sku") (Counters 1 2 0 0 0 0 0)].
Proof.
  edestruct (variant_without_required_key_aborts_before_upsert no_sku_env 2 shop_one
               empty_state "key" "secret" "nl")
    as (key & st2 & Hkey & Hrows & Hrun & Hreq & Hlogs & _ & Hm).
  - reflexivity.
  - reflexivity.
  - reflexivity.
  - reflexivity.
  - vm_compute. reflexivity.
  - vm_compute. reflexivity.
  - vm_compute. reflexivity.
  - vm_compute. reflexivity.
  - vm_compute in Hrows. inversion Hrows; subst key.
    exists st2. split; [exact Hrun|]. split.
    + rewrite Hreq. reflexivity.
    + rewrite Hlogs, Hm. vm_compute. reflexivity.
Defined.

(** A SKU that is present and null is not detected: the run returns, the
    variant is stored with a null SKU and the audit row says "success". *)
Lemma null_sku_variant_is_upserted :
  exists st2,
    sync_shop null_sku_env 2 shop_one empty_state = Some (Ok tt, st2) /\
    List.map (fun r => (dict_get r "lightspeed_variant_id" JNull, dict_get r "sku" JNull))
      (table_rows (db st2) "variants") = [(JInt 100, JStr "s"); (JInt 101, JNull)] /\
    List.map (fun r => dict_get r "status" JNull) (table_rows (db st2) "sync_logs") =
      [JStr "success"].
Proof.
  eexists. split; [vm_compute; reflexivity|]. split; vm_compute; reflexivity.
Qed.

(** A present but null SKU is not an absent key: the row is built. *)
Remark null_sku_builds_a_row :
  variant_row shop_one (mk_product 10) [("id", JInt 100); ("sku", JNull)] =
    Ok [("shop_id", JInt 1); ("lightspeed_product_id", JInt 10);
        ("lightspeed_variant_id", JInt 100); ("sku", JNull);
        ("is_default", JNull); ("price_excl", JNull); ("image", JNull)].
Proof. reflexivity. Qed.

(** ** Termination of a run *)

Lemma fetch_pages_ends (fuel : nat) :
  forall (src : source) (p : nat) (acc : list pydict),
    (exists page, p <= page < p + fuel /\ page_ends src page = true) ->
    fetch_pages fuel src p acc <> None.
Proof.
  induction fuel as [|fuel IH]; intros src p acc (page & Hrange & Hend); [lia|].
  cbn [fetch_pages].
  destruct (request_page src p (seq 0 MAX_RETRIES)) as [tr r] eqn:Hreq.
  destruct r as [batch|e]; [|discriminate].
  destruct batch as [|b batch]; [discriminate|].
  destruct (Nat.ltb (List.length (b :: batch)) LIMIT) eqn:Hlt; [discriminate|].
  assert (Hne : page <> p).
  { intros ->. unfold page_ends in Hend. rewrite Hreq in Hend. cbn [snd] in Hend. congruence. }
  specialize (IH src (S p) (acc ++ List.map normalize_entity (b :: batch))).
  destruct (fetch_pages fuel src (S p) _) as [[tr' r']|]; [discriminate|].
  exfalso. apply IH; [|reflexivity]. exists page. split; [lia | exact Hend].
Qed.

Section Total.
Variable env : environment.
Variable fuel : nat.
Hypothesis Hfinite : finite_api env fuel.

Lemma total_ret {A} (a : A) : total (ret a).
Proof. intros st. discriminate. Qed.

Lemma total_raise {A} (e : exn) : total (@raise A e).
Proof. intros st. discriminate. Qed.

Lemma total_lift {A} (x : result A) : total (lift x).
Proof. intros st. discriminate. Qed.

Lemma total_bind {A B} (m : M A) (k : A -> M B) :
  total m -> (forall a, total (k a)) -> total (bind m k).
Proof.
  intros Hm Hk st. unfold bind. specialize (Hm st).
  destruct (m st) as [[[a|e] st1]|]; [apply Hk | discriminate | congruence].
Qed.

Lemma total_try {A} (m : M A) (h : exn -> M A) :
  total m -> (forall e, total (h e)) -> total (try_except m h).
Proof.
  intros Hm Hh st. unfold try_except. specialize (Hm st).
  destruct (m st) as [[[a|e] st1]|]; [discriminate | apply Hh | congruence].
Qed.

Lemma total_print (m : msg) : total (print m).
Proof. intros st. discriminate. Qed.

Lemma total_set_metric (k : metric) (v : Z) : total (set_metric k v).
Proof. intros st. discriminate. Qed.

Lemma total_get_metrics : total get_metrics.
Proof. intros st. discriminate. Qed.

Lemma total_init_metrics : total init_metrics.
Proof. intros st. discriminate. Qed.

Lemma total_db_execute (op : db_op) : total (db_execute env op).
Proof.
  intros st. unfold db_execute. destruct (db_fault env _ op); [discriminate|].
  destruct (db_apply op (db st)). discriminate.
Qed.

Lemma total_fetch_both (lang k sec : string) : total (fetch_both env fuel lang k sec).
Proof.
  intros st. unfold fetch_both, fetch_products, fetch_variants.
  assert (Hends : forall coll, fetch_pages fuel (api env lang coll (k, sec)) 1 [] <> None).
  { intros coll. apply fetch_pages_ends. destruct (Hfinite lang coll (k, sec)) as (page & Hr & He).
    exists page. split; [lia | exact He]. }
  pose proof (Hends Products) as Hp. pose proof (Hends Variants) as Hv.
  destruct (fetch_pages fuel (api env lang Products (k, sec)) 1 []) as [[trp rp]|]; [|congruence].
  destruct (fetch_pages fuel (api env lang Variants (k, sec)) 1 []) as [[trv rv]|]; [|congruence].
  discriminate.
Qed.

Lemma total_run_attach (ps vs : list pydict) (name : string) : total (run_attach ps vs name).
Proof. intros st. unfold run_attach. destruct (attach_variants ps vs (Some name)). discriminate. Qed.

Lemma total_bulk_upsert (t : string) (rows : list row) (cols : list string) :
  total (bulk_upsert env t rows cols).
Proof.
  unfold bulk_upsert. destruct rows; [apply total_ret|]. apply total_try.
  - apply total_bind; [apply total_db_execute | intros; apply total_ret].
  - intros e. apply total_bind; [apply total_print | intros; apply total_raise].
Qed.

Lemma total_cleanup (s : shop) (t column : string) (metric : metric)
    (deleted : nat -> msg) (ids : gset pykey) :
  total (cleanup env s t column metric deleted ids).
Proof.
  unfold cleanup. apply total_bind; [apply total_db_execute|]. intros existing.
  apply total_bind; [apply total_lift|]. intros existing_ids.
  destruct (decide (existing_ids ∖ ids = ∅)); [apply total_ret|].
  apply total_bind; [apply total_db_execute|]. intros _.
  apply total_bind; [apply total_set_metric | intros; apply total_print].
Qed.

Lemma total_sync_languages (s : shop) (k sec base : string) (vp vv : gset pykey)
    (langs : list string) :
  total (sync_languages env fuel s k sec base vp vv langs).
Proof.
  induction langs as [|lang rest IH]; [apply total_ret|].
  cbn [sync_languages]. apply total_bind; [|intros _; exact IH].
  destruct (String.eqb lang base); [apply total_ret|]. unfold sync_language.
  apply total_bind; [apply total_print|]. intros _.
  apply total_bind; [apply total_fetch_both|]. intros [lps lvs].
  apply total_bind; [apply total_lift|]. intros prows.
  apply total_bind; [apply total_lift|]. intros vrows.
  apply total_bind.
  { destruct (Z.ltb 0 _); [apply total_print | apply total_ret]. }
  intros _. apply total_bind.
  { destruct (Z.ltb 0 _); [apply total_print | apply total_ret]. }
  intros _. apply total_bind; [apply total_bulk_upsert | intros; apply total_bulk_upsert].
Qed.

Lemma total_sync_catalogue (s : shop) : total (sync_catalogue env fuel s).
Proof.
  unfold sync_catalogue.
  apply total_bind; [apply total_lift|]. intros [k sec].
  apply total_bind; [apply total_lift|]. intros base.
  apply total_bind; [apply total_fetch_both|]. intros [ps vs].
  apply total_bind; [apply total_set_metric|]. intros _.
  apply total_bind; [apply total_set_metric|]. intros _.
  apply total_bind; [apply total_print|]. intros _.
  apply total_bind; [apply total_run_attach|]. intros [aps vs'].
  apply total_bind; [apply total_set_metric|]. intros _.
  apply total_bind; [apply total_lift|]. intros b.
  apply total_bind; [apply total_print|]. intros _.
  apply total_bind; [apply total_set_metric|]. intros _.
  apply total_bind; [apply total_set_metric|]. intros _.
  apply total_bind; [apply total_bulk_upsert|]. intros _.
  apply total_bind; [apply total_bulk_upsert|]. intros _.
  apply total_bind; [apply total_bulk_upsert|]. intros _.
  apply total_bind; [apply total_bulk_upsert|]. intros _.
  apply total_bind.
  { unfold cleanup_orphans.
    apply total_bind; [apply total_lift|]. intros pids.
    apply total_bind; [apply total_cleanup|]. intros _.
    apply total_bind; [apply total_lift|]. intros vids.
    apply total_bind; [apply total_cleanup | intros; apply total_ret]. }
  intros [vp vv]. apply total_sync_languages.
Qed.

(** With a remote whose collections end, the pipeline of a shop ends. *)
Lemma total_sync_shop (s : shop) : total (sync_shop env fuel s).
Proof.
  unfold sync_shop.
  apply total_bind; [apply total_print|]. intros _.
  apply total_bind; [apply total_db_execute|]. intros data.
  apply total_bind; [apply total_lift|]. intros log_id.
  apply total_bind; [apply total_init_metrics|]. intros _.
  apply total_try.
  - unfold sync_shop_body. apply total_bind; [apply total_sync_catalogue|]. intros _.
    unfold close_success. apply total_bind; [apply total_get_metrics|]. intros m.
    apply total_bind; [apply total_db_execute | intros; apply total_ret].
  - intros e. unfold sync_shop_handler.
    apply total_bind; [apply total_get_metrics|]. intros m.
    apply total_bind; [apply total_db_execute | intros; apply total_raise].
Qed.
End Total.

(** ** All shops *)

Lemma grows_refl (st : state) : grows st st.
Proof. split; auto. Qed.

Lemma grows_trans (a b c : state) : grows a b -> grows b c -> grows a c.
Proof. intros [H1 H2] [H3 H4]. split; auto. Qed.

Lemma grows_execute (env : environment) (op : db_op) : respects grows (db_execute env op).
Proof.
  intros st r st' H. unfold db_execute in H.
  destruct (db_fault env _ op).
  - inversion H; subst. split; cbn [requests output]; intros; [apply in_or_app|]; auto.
  - destruct (db_apply op (db st)). inversion H; subst.
    split; cbn [requests output]; intros; [apply in_or_app|]; auto.
Qed.

Lemma grows_output (st : state) (ms : list msg) :
  grows st (State (db st) (requests st) (output st ++ ms) (metrics st)).
Proof. split; cbn [requests output]; intros; [|apply in_or_app]; auto. Qed.

Lemma grows_metrics (st : state) (m : counters) :
  grows st (State (db st) (requests st) (output st) m).
Proof. split; auto. Qed.

Lemma sync_shop_grows (env : environment) (fuel : nat) (s : shop) :
  respects grows (sync_shop env fuel s).
Proof.
  apply (respects_sync_shop grows (fun _ => True) env grows_refl grows_trans
           grows_output grows_metrics).
  - intros op _. apply grows_execute.
  - auto.
Qed.

Lemma run_shops_grows (env : environment) (fuel : nat) (shops : list shop) :
  respects grows (run_shops env fuel shops).
Proof.
  apply (respects_run_shops grows (fun _ => True) env grows_refl grows_trans
           grows_output grows_metrics).
  - intros op _. apply grows_execute.
  - auto.
Qed.

(** Whatever its outcome, the pipeline of a shop has sent the insert of its
    audit row. *)
Lemma sync_shop_sends_insert (env : environment) (fuel : nat) (s : shop)
    (st st1 : state) (r : result unit) :
  sync_shop env fuel s st = Some (r, st1) ->
  In (DbInsert "sync_logs" (running_row s)) (requests st1).
Proof.
  intros H. unfold sync_shop in H. unfold bind at 1 in H. unfold print in H.
  unfold bind at 1 in H.
  destruct (db_execute env (DbInsert "sync_logs" (running_row s)) _)
    as [[[data|e] st0]|] eqn:Hexec; [| |discriminate].
  - assert (Hin : In (DbInsert "sync_logs" (running_row s)) (requests st0)).
    { unfold db_execute in Hexec. cbn [db requests output metrics] in Hexec.
      destruct (db_fault env _ _); [discriminate|].
      destruct (db_apply _ _). inversion Hexec; subst. cbn [requests].
      apply in_or_app. right. left. reflexivity. }
    assert (Hrest : grows st0 st1).
    { revert H. generalize st0 r st1.
      change (respects grows
                (log_id <- lift (first_id data) ;;
                 init_metrics ;;
                 try_except (sync_shop_body env fuel s log_id) (sync_shop_handler env log_id))).
      pose proof (fun op (_ : True) => grows_execute env op) as Hex.
      apply (respects_bind grows grows_trans).
      { apply (respects_lift grows grows_refl). }
      intros log_id. apply (respects_bind grows grows_trans).
      { apply (respects_init_metrics grows grows_metrics). }
      intros _. apply (respects_try grows grows_trans).
      - unfold sync_shop_body. apply (respects_bind grows grows_trans).
        + apply (respects_sync_catalogue grows (fun _ => True) env grows_refl grows_trans
                   grows_output grows_metrics Hex). auto.
        + intros _. unfold close_success. apply (respects_bind grows grows_trans).
          { apply (respects_get_metrics grows grows_refl). }
          intros m. apply (respects_bind grows grows_trans); [apply grows_execute|].
          intros. apply (respects_ret grows grows_refl).
      - intros e. unfold sync_shop_handler. apply (respects_bind grows grows_trans).
        { apply (respects_get_metrics grows grows_refl). }
        intros m. apply (respects_bind grows grows_trans); [apply grows_execute|].
        intros. apply (respects_raise grows grows_refl). }
    apply Hrest. exact Hin.
  - inversion H; subst. unfold db_execute in Hexec. cbn [db requests output metrics] in Hexec.
    destruct (db_fault env _ _).
    + inversion Hexec; subst. cbn [requests]. apply in_or_app. right. left. reflexivity.
    + destruct (db_apply _ _). discriminate.
Qed.

Lemma run_one_outcome (env : environment) (fuel : nat) (s : shop) (st : state) :
  sync_shop env fuel s st <> None ->
  exists r st1,
    sync_shop env fuel s st = Some (r, st1) /\
    run_one env fuel s st = Some (Ok tt, after_handling s r st1).
Proof.
  intros Hsome. unfold run_one, try_except.
  destruct (sync_shop env fuel s st) as [[[[]|e] st1]|]; [| |congruence].
  - exists (Ok tt), st1. split; reflexivity.
  - exists (Raise e), st1. split; reflexivity.
Qed.

Lemma grows_after_handling (s : shop) (r : result unit) (st : state) :
  grows st (after_handling s r st).
Proof. destruct r; [apply grows_refl | apply grows_output]. Qed.

(** The loop over the roster: every shop gets an outcome. *)
Lemma run_shops_outcomes (env : environment) (fuel : nat) (shops : list shop) :
  (forall s, total (sync_shop env fuel s)) ->
  forall st, exists outcomes st',
    run_shops env fuel shops st = Some (Ok tt, st') /\
    fleet_run env fuel shops st outcomes st' /\
    List.map fst outcomes = shops /\
    (forall s e, In (s, Raise e) outcomes ->
                 In (MsgShopError (shop_name s) (exn_str e)) (output st')) /\
    (forall s, In s shops -> In (DbInsert "sync_logs" (running_row s)) (requests st')).
Proof.
  intros Htotal. induction shops as [|s rest IH]; intros st.
  - exists [], st. split; [reflexivity|]. split; [constructor|]. split; [reflexivity|].
    split; [intros s e [] | intros s []].
  - destruct (run_one_outcome env fuel s st (Htotal s st)) as (r & st1 & Hsync & Hone).
    destruct (IH (after_handling s r st1)) as (outcomes & st' & Hrun & Hfleet & Hmap & Herr & Hins).
    pose proof (run_shops_grows env fuel rest _ _ _ Hrun) as [Hreqs Hout].
    exists ((s, r) :: outcomes), st'. split.
    { cbn [run_shops]. unfold bind. rewrite Hone. exact Hrun. }
    split; [econstructor; eassumption|]. split; [simpl; f_equal; exact Hmap|]. split.
    + intros s0 e [Heq|Hin]; [|apply (Herr s0 e Hin)].
      inversion Heq; subst. apply Hout. cbn [after_handling output].
      apply in_or_app. right. left. reflexivity.
    + intros s0 [<-|Hin]; [|apply (Hins s0 Hin)].
      apply Hreqs. apply (grows_after_handling s r st1).
      exact (sync_shop_sends_insert env fuel s st st1 r Hsync).
Qed.

(** C7.  A non-empty roster on a remote whose collections end: the fleet run
    returns normally; the pipeline of every shop of the roster is run to its
    own outcome, a return or a raise, each from the state its predecessors
    left; each has sent the insert of its audit row; and for every pipeline
    that raised, the line with the error of that shop is printed. *)
Theorem fleet_isolates_failures
    (env : environment) (fuel : nat) (shops : list shop) (st : state) :
  shops <> [] ->
  finite_api env fuel ->
  exists outcomes st',
    run_fleet env fuel shops st =
      Some (Ok tt, State (db st') (requests st') (output st' ++ [MsgComplete]) (metrics st')) /\
    fleet_run env fuel shops st outcomes st' /\
    List.map fst outcomes = shops /\
    (forall s e, In (s, Raise e) outcomes ->
                 In (MsgShopError (shop_name s) (exn_str e)) (output st')) /\
    (forall s, In s shops -> In (DbInsert "sync_logs" (running_row s)) (requests st')).
Proof.
  intros Hne Hfinite.
  destruct (run_shops_outcomes env fuel shops (total_sync_shop env fuel Hfinite) st)
    as (outcomes & st' & Hrun & Hrest).
  exists outcomes, st'. split; [|exact Hrest].
  destruct shops as [|s rest]; [congruence|].
  unfold run_fleet, bind. rewrite Hrun. reflexivity.
Qed.

Lemma fleet_api_finite : finite_api fleet_env 2.
Proof.
  intros lang coll [k sec]. exists 1. split; [lia|].
  unfold fleet_env, fleet_api, page_ends. cbn [api fst].
  destruct (String.eqb k "key_de"); [reflexivity|].
  unfold demo_api. simpl. destruct coll; [destruct (String.eqb lang "nl")|]; reflexivity.
Qed.

Lemma fleet_isolates_failures_witness :
  fleet_shops <> [] /\
  exists final,
    run_fleet fleet_env 2 fleet_shops empty_state = Some (Ok tt, final) /\
    List.map (fun r => dict_get r "status" JNull) (table_rows (db final) "sync_logs") =
      [JStr "success"; JStr "error"; JStr "success"] /\
    In (MsgShopError "Shop DE" "timed out") (output final).
Proof.
  split; [discriminate|].
  destruct (fleet_isolates_failures fleet_env 2 fleet_shops empty_state)
    as (outcomes & st' & Hrun & _).
  - discriminate.
  - exact fleet_api_finite.
  - exists (match run_fleet fleet_env 2 fleet_shops empty_state with
            | Some (_, final) => final
            | None => empty_state
            end).
    split; [rewrite Hrun; reflexivity|].
    split; [vm_compute; reflexivity | vm_compute; tauto].
Defined.

(** * Further properties *)

(** ** Images *)

Lemma normalize_image_normal (img : json) : image_normal (normalize_image img).
Proof. destruct img; try (left; reflexivity). right. simpl. eauto. Qed.

(** X1.  [normalize_image] is idempotent, its result is null or an object
    with exactly the three keys, it keeps the values an object has under
    those keys and reads an absent one as null. *)
Theorem normalize_image_keeps_three_fields :
  (forall img, normalize_image (normalize_image img) = normalize_image img) /\
  (forall img, image_normal (normalize_image img)) /\
  (forall d, normalize_image (JDict d) =
             JDict [("title", dict_get d "title" JNull);
                    ("thumb", dict_get d "thumb" JNull);
                    ("src", dict_get d "src" JNull)]) /\
  (forall img, (forall d, img <> JDict d) -> normalize_image img = JNull).
Proof.
  split; [|split; [|split]].
  - intros img. destruct img; reflexivity.
  - exact normalize_image_normal.
  - reflexivity.
  - intros img H. destruct img; try reflexivity. exfalso. exact (H d eq_refl).
Qed.

Lemma dict_lookup_set_eq (d : pydict) (k : string) (v : json) :
  dict_lookup (dict_set d k v) k = Some v.
Proof.
  induction d as [|[k0 v0] d IH]; simpl.
  - rewrite String.eqb_refl. reflexivity.
  - destruct (String.eqb k0 k) eqn:E; simpl; rewrite E; [reflexivity | exact IH].
Qed.

Lemma dict_lookup_set_ne (d : pydict) (k k' : string) (v : json) :
  k <> k' -> dict_lookup (dict_set d k v) k' = dict_lookup d k'.
Proof.
  intros Hne. induction d as [|[k0 v0] d IH]; simpl.
  - destruct (String.eqb k k') eqn:E; [apply String.eqb_eq in E; congruence | reflexivity].
  - destruct (String.eqb k0 k) eqn:E; simpl.
    + apply String.eqb_eq in E. subst k0.
      destruct (String.eqb k k') eqn:E'; [apply String.eqb_eq in E'; congruence | reflexivity].
    + destruct (String.eqb k0 k'); [reflexivity | exact IH].
Qed.

Lemma normalize_entity_normal (p : pydict) : entity_normal (normalize_entity p).
Proof.
  unfold entity_normal, normalize_entity. eexists. split; [apply dict_lookup_set_eq|].
  apply normalize_image_normal.
Qed.

Lemma fetch_pages_normal (fuel : nat) :
  forall (src : source) (page : nat) (acc : list pydict) (tr : list event)
         (entities : list pydict),
    fetch_pages fuel src page acc = Some (tr, Ok entities) ->
    Forall entity_normal acc -> Forall entity_normal entities.
Proof.
  induction fuel as [|fuel IH]; intros src page acc tr entities H Hacc; [discriminate|].
  cbn [fetch_pages] in H.
  destruct (request_page src page (seq 0 MAX_RETRIES)) as [tr0 [batch|e]]; [|discriminate].
  assert (Hacc' : Forall entity_normal (acc ++ List.map normalize_entity batch)).
  { apply Forall_app. split; [exact Hacc|]. apply Forall_forall. intros x Hx.
    apply list_elem_of_In in Hx. apply in_map_iff in Hx. destruct Hx as (y & <- & _).
    apply normalize_entity_normal. }
  destruct batch as [|b batch]; [inversion H; subst; exact Hacc|].
  destruct (Nat.ltb (List.length (b :: batch)) LIMIT).
  - inversion H; subst. exact Hacc'.
  - destruct (fetch_pages fuel src (S page) _) as [[tr' r']|] eqn:Hrec; [|discriminate].
    inversion H; subst. exact (IH _ _ _ _ _ Hrec Hacc').
Qed.

(** X2.  Every entity a fetch returns carries an "image" key whose value is
    null or an object with exactly title, thumb and src; this holds for the
    products and for the variants of any language and remote. *)
Theorem fetched_entities_have_normal_images
    (api_ : remote) (fuel : nat) (lang api_key api_secret : string)
    (tr : list event) (entities : list pydict) :
  fetch_products api_ fuel lang api_key api_secret = Some (tr, Ok entities) \/
  fetch_variants api_ fuel lang api_key api_secret = Some (tr, Ok entities) ->
  Forall entity_normal entities.
Proof.
  intros [H|H]; exact (fetch_pages_normal fuel _ _ _ _ _ H (List.Forall_nil _)).
Qed.

Lemma fetched_entities_have_normal_images_witness :
  exists tr entities,
    fetch_products demo_api 2 "nl" "key" "secret" = Some (tr, Ok entities) /\
    Forall entity_normal entities.
Proof.
  eexists. eexists. split; [vm_compute; reflexivity|].
  eapply (fetched_entities_have_normal_images demo_api 2 "nl" "key" "secret").
  left. vm_compute. reflexivity.
Defined.

(** ** Retries and paging for every source *)

Lemma request_page_settled (src : source) (page : nat) :
  snd (request_page src page (seq 0 MAX_RETRIES)) =
  snd (request_page (settled src) page (seq 0 MAX_RETRIES)).
Proof.
  unfold settled, first_success. simpl.
  destruct (src page 0) as [e0|b0|x0]; [|reflexivity|reflexivity].
  destruct (src page 1) as [e1|b1|x1]; [|reflexivity|reflexivity].
  destruct (src page 2) as [e2|b2|x2]; reflexivity.
Qed.

(** X3.  Failures that are retried leave no trace in the result: a fetch
    returns, raises or keeps running exactly as it does against the source
    that answers every request of a page with the first success among its
    three attempts (or with the third failure when all three fail). *)
Theorem retried_failures_do_not_change_the_result (fuel : nat) :
  forall (src : source) (page : nat) (acc : list pydict),
    option_map snd (fetch_pages fuel src page acc) =
    option_map snd (fetch_pages fuel (settled src) page acc).
Proof.
  induction fuel as [|fuel IH]; intros src page acc; [reflexivity|].
  cbn [fetch_pages]. pose proof (request_page_settled src page) as Hreq.
  destruct (request_page src page (seq 0 MAX_RETRIES)) as [tr r].
  destruct (request_page (settled src) page (seq 0 MAX_RETRIES)) as [tr' r'].
  cbn [snd] in Hreq. subst r'.
  destruct r as [batch|e]; [|reflexivity].
  destruct batch as [|b batch]; [reflexivity|].
  destruct (Nat.ltb (List.length (b :: batch)) LIMIT); [reflexivity|].
  specialize (IH src (S page) (acc ++ List.map normalize_entity (b :: batch))).
  destruct (fetch_pages fuel src (S page) _) as [[t1 r1]|];
    destruct (fetch_pages fuel (settled src) (S page) _) as [[t2 r2]|];
    simpl in IH |- *; congruence.
Qed.

(** A source that fails once on every page gives what it holds, after one
    wait of a second per page. *)
Example flaky_source_is_fetched :
  exists tr,
    fetch_pages 3 flaky 1 [] =
      Some (tr, Ok (List.map normalize_entity
                      (repeat [("id", JInt 1)] LIMIT
                       ++ [[("id", JInt 2); ("image", JBool false)]]))) /\
    sleeps_of tr = [1%Z; 1%Z] /\
    requests_of tr = [(1, 0); (1, 1); (2, 0); (2, 1)].
Proof. eexists. split; [vm_compute; reflexivity|]. split; reflexivity. Qed.

(** X4.  The paging loop has no page limit of its own: against a source
    whose every page holds at least [LIMIT] entities it never ends, whatever
    the fuel, the starting page and the entities gathered so far. *)
Theorem full_pages_never_end (src : source) :
  (forall page, exists batch, src page 0 = HttpOk batch /\ LIMIT <= List.length batch) ->
  forall (fuel page : nat) (acc : list pydict), fetch_pages fuel src page acc = None.
Proof.
  intros Hfull fuel. induction fuel as [|fuel IH]; intros page acc; [reflexivity|].
  destruct (Hfull page) as (batch & Hsrc & Hlen).
  cbn [fetch_pages]. rewrite (request_page_first_try src page batch Hsrc).
  destruct batch as [|b batch]; [unfold LIMIT in Hlen; simpl in Hlen; lia|].
  assert (Hge : Nat.ltb (List.length (b :: batch)) LIMIT = false)
    by (apply Nat.ltb_ge; exact Hlen).
  rewrite Hge, IH. reflexivity.
Qed.

Lemma full_pages_never_end_witness :
  (forall page, exists batch, endless page 0 = HttpOk batch /\ LIMIT <= List.length batch) /\
  fetch_pages 5 endless 1 [] = None.
Proof.
  assert (H : forall page, exists batch,
              endless page 0 = HttpOk batch /\ LIMIT <= List.length batch).
  { intros page. eexists. split; [reflexivity|]. rewrite List.repeat_length. lia. }
  split; [exact H|]. exact (full_pages_never_end endless H 5 1 []).
Defined.

Lemma page_requests_cons (first m : nat) :
  List.map (fun i => Request (first + i) 0) (seq 0 (S m)) =
  Request first 0 :: List.map (fun i => Request (S first + i) 0) (seq 0 m).
Proof.
  change (seq 0 (S m)) with (0 :: seq 1 m). cbn [List.map]. rewrite Nat.add_0_r. f_equal.
  rewrite <- List.seq_shift, List.map_map. apply List.map_ext. intros i. f_equal. lia.
Qed.

(** X5.  Any number of full pages followed by a short or empty page: the
    fetch sends one request per page, the last of them for the short page,
    and returns the entities gathered before followed by those of all the
    pages in page order. *)
Theorem full_pages_then_short (pages : list (list pydict)) :
  forall (src : source) (first : nat) (acc last : list pydict) (fuel : nat),
    (forall i batch, nth_error pages i = Some batch ->
                     src (first + i) 0 = HttpOk batch /\ List.length batch = LIMIT) ->
    src (first + List.length pages) 0 = HttpOk last ->
    List.length last < LIMIT ->
    List.length pages < fuel ->
    fetch_pages fuel src first acc =
      Some (List.map (fun i => Request (first + i) 0) (seq 0 (S (List.length pages))),
            Ok (acc ++ List.map normalize_entity (concat pages ++ last))).
Proof.
  induction pages as [|batch pages IH]; intros src first acc last fuel Hpages Hlast Hshort Hfuel.
  - destruct fuel as [|fuel]; [simpl in Hfuel; lia|].
    simpl in Hlast. rewrite Nat.add_0_r in Hlast.
    rewrite (fetch_pages_short src first fuel acc last Hlast Hshort).
    simpl. rewrite Nat.add_0_r. reflexivity.
  - destruct fuel as [|fuel]; [simpl in Hfuel; lia|].
    destruct (Hpages 0 batch eq_refl) as [Hsrc Hlen]. rewrite Nat.add_0_r in Hsrc.
    rewrite (fetch_pages_full src first fuel acc batch Hsrc Hlen).
    rewrite (IH src (S first) (acc ++ List.map normalize_entity batch) last fuel).
    + cbn [List.length]. rewrite (page_requests_cons first (S (List.length pages))).
      f_equal. f_equal. f_equal. cbn [concat].
      rewrite !List.map_app, <- !app_assoc. reflexivity.
    + intros i b Hi. specialize (Hpages (S i) b Hi).
      replace (S first + i) with (first + S i) by lia. exact Hpages.
    + cbn [List.length] in Hlast. replace (S first + List.length pages)
        with (first + S (List.length pages)) by lia. exact Hlast.
    + exact Hshort.
    + cbn [List.length] in Hfuel. lia.
Qed.

Lemma full_pages_then_short_witness :
  fetch_pages 4 three_full_pages 1 [] =
    Some (List.map (fun i => Request (1 + i) 0) (seq 0 4),
          Ok ([] ++ List.map normalize_entity
                      (concat [repeat [("id", JInt 1)] LIMIT; repeat [("id", JInt 2)] LIMIT;
                               repeat [("id", JInt 3)] LIMIT] ++ []))).
Proof.
  apply (full_pages_then_short
           [repeat [("id", JInt 1)] LIMIT; repeat [("id", JInt 2)] LIMIT;
            repeat [("id", JInt 3)] LIMIT] three_full_pages 1 [] [] 4).
  - intros i batch Hi. destruct i as [|[|[|i]]]; simpl in Hi.
    + inversion Hi; subst. split; reflexivity.
    + inversion Hi; subst. split; reflexivity.
    + inversion Hi; subst. split; reflexivity.
    + destruct i; discriminate.
  - reflexivity.
  - unfold LIMIT. simpl. lia.
  - simpl. lia.
Defined.

Lemma requests_of_app (tr tr' : list event) :
  requests_of (tr ++ tr') = requests_of tr ++ requests_of tr'.
Proof. unfold requests_of. apply List.flat_map_app. Qed.

Lemma sleeps_of_app (tr tr' : list event) :
  sleeps_of (tr ++ tr') = sleeps_of tr ++ sleeps_of tr'.
Proof. unfold sleeps_of. apply List.flat_map_app. Qed.

(** One page: one to three requests, attempts in order, a wait of 1s after
    the first failure and of 2s after the second. *)
Lemma request_page_shape (src : source) (page : nat) :
  exists n, 1 <= n <= MAX_RETRIES /\
    requests_of (fst (request_page src page (seq 0 MAX_RETRIES))) =
      List.map (fun a => (page, a)) (seq 0 n) /\
    sleeps_of (fst (request_page src page (seq 0 MAX_RETRIES))) =
      List.firstn (n - 1) [1%Z; 2%Z].
Proof.
  unfold MAX_RETRIES. simpl.
  destruct (src page 0) as [e0|b0|x0]; [|exists 1; repeat split; lia..].
  destruct (src page 1) as [e1|b1|x1]; [|exists 2; repeat split; lia..].
  destruct (src page 2) as [e2|b2|x2]; exists 3; repeat split; lia.
Qed.

(** X6.  Whatever the source answers, a fetch never asks for the same page
    at the same attempt twice, never makes more than three attempts at a
    page, never goes back before its starting page, and never waits for
    anything but one or two seconds. *)
Theorem fetch_requests_are_bounded (fuel : nat) :
  forall (src : source) (page : nat) (acc : list pydict) (tr : list event)
         (r : result (list pydict)),
    fetch_pages fuel src page acc = Some (tr, r) ->
    List.NoDup (requests_of tr) /\
    Forall (fun pa => page <= fst pa /\ snd pa < MAX_RETRIES) (requests_of tr) /\
    Forall (fun w => w = 1%Z \/ w = 2%Z) (sleeps_of tr).
Proof.
  induction fuel as [|fuel IH]; intros src page acc tr r H; [discriminate|].
  cbn [fetch_pages] in H.
  destruct (request_page_shape src page) as (n & Hn & Hreq & Hsleep).
  destruct (request_page src page (seq 0 MAX_RETRIES)) as [tr0 r0]. cbn [fst] in Hreq, Hsleep.
  assert (Hone : List.NoDup (requests_of tr0) /\
                 Forall (fun pa => fst pa = page /\ snd pa < MAX_RETRIES) (requests_of tr0) /\
                 Forall (fun w => w = 1%Z \/ w = 2%Z) (sleeps_of tr0)).
  { rewrite Hreq, Hsleep. split; [|split].
    - unfold MAX_RETRIES in Hn. destruct n as [|[|[|[|n]]]]; try lia; simpl;
        repeat constructor; simpl; intuition congruence.
    - apply List.Forall_forall. intros pa Hpa.
      apply in_map_iff in Hpa. destruct Hpa as (a & <- & Ha). apply in_seq in Ha.
      simpl. lia.
    - unfold MAX_RETRIES in Hn. destruct n as [|[|[|[|n]]]]; try lia; simpl;
        repeat (apply List.Forall_cons; [lia|]); apply List.Forall_nil. }
  destruct Hone as (Hnd & Hall & Hsl).
  assert (Hdone : forall r', Some (tr0, r') = Some (tr, r) ->
            List.NoDup (requests_of tr) /\
            Forall (fun pa => page <= fst pa /\ snd pa < MAX_RETRIES) (requests_of tr) /\
            Forall (fun w => w = 1%Z \/ w = 2%Z) (sleeps_of tr)).
  { intros r' Heq. inversion Heq; subst. split; [exact Hnd|]. split; [|exact Hsl].
    eapply List.Forall_impl; [|exact Hall]. simpl. intros pa [Hp Ha]. lia. }
  destruct r0 as [batch|e]; [|eauto].
  destruct batch as [|b batch]; [eauto|].
  destruct (Nat.ltb (List.length (b :: batch)) LIMIT); [eauto|].
  destruct (fetch_pages fuel src (S page) _) as [[tr' r']|] eqn:Hrec; [|discriminate].
  inversion H; subst. destruct (IH _ _ _ _ _ Hrec) as (Hnd' & Hall' & Hsl').
  rewrite requests_of_app, sleeps_of_app. split; [|split].
  - apply List.NoDup_app; [exact Hnd | exact Hnd' |].
    intros pa Hin Hin'.
    rewrite List.Forall_forall in Hall. rewrite List.Forall_forall in Hall'.
    destruct (Hall pa Hin) as [Hp _]. destruct (Hall' pa Hin') as [Hp' _]. lia.
  - apply Forall_app. split.
    + eapply List.Forall_impl; [|exact Hall]. simpl. intros pa [Hp Ha]. lia.
    + eapply List.Forall_impl; [|exact Hall']. simpl. intros pa [Hp Ha]. lia.
  - apply Forall_app. split; assumption.
Qed.

Lemma fetch_requests_are_bounded_witness :
  exists tr r,
    fetch_pages 3 flaky 1 [] = Some (tr, r) /\
    List.NoDup (requests_of tr) /\
    Forall (fun w => w = 1%Z \/ w = 2%Z) (sleeps_of tr).
Proof.
  eexists. eexists. split; [vm_compute; reflexivity|].
  edestruct (fetch_requests_are_bounded 3 flaky 1 []) as (Hnd & _ & Hsl).
  - vm_compute. reflexivity.
  - split; [exact Hnd | exact Hsl].
Defined.

(** ** The join: errors and the order of the warnings *)




Lemma group_append_fst (g : groups) (k : pykey) (v : pydict) :
  List.map fst (group_append g k v) = add_key (List.map fst g) k.
Proof.
  induction g as [|[k0 vs] g IH].
  - reflexivity.
  - cbn [group_append]. destruct (decide (k0 = k)) as [->|Hne]; cbn [List.map fst].
    + unfold add_key. rewrite bool_decide_eq_true_2 by (left). reflexivity.
    + rewrite IH. unfold add_key. destruct (decide (k ∈ List.map fst g)) as [Hin|Hnot].
      * rewrite !bool_decide_eq_true_2; [reflexivity | right; exact Hin | exact Hin].
      * rewrite !bool_decide_eq_false_2; [reflexivity | | exact Hnot].
        intros H. inversion H; subst; [congruence | contradiction].
Qed.

Lemma group_variants_fst (vs : list pydict) :
  forall (g g' : groups) (vs' : list pydict),
    group_variants vs g = Ok (g', vs') ->
    List.map fst g' =
      fold_left add_key
        (flat_map (fun v => match relation_key v with Some k => [k] | None => [] end) vs)
        (List.map fst g).
Proof.
  induction vs as [|v rest IH]; intros g g' vs' H.
  - simpl in H. inversion H; subst. reflexivity.
  - apply group_variants_cons_inv in H.
    destruct H as [(Hnone & _ & vs'' & Hrec & _) | (k0 & Hsome & vs'' & Hrec & _)].
    + cbn [flat_map]. rewrite Hnone. simpl. exact (IH _ _ _ Hrec).
    + cbn [flat_map]. rewrite Hsome. simpl. rewrite (IH _ _ _ Hrec), group_append_fst.
      reflexivity.
Qed.

(** The warning loop, line by line. *)
Lemma report_orphans_list (name : option string) (pids : gset pykey) (g : groups) :
  (forall k vs v, In (k, vs) g -> In v vs -> dict_lookup v "id" <> None) ->
  report_orphans name pids g =
    (List.map (fun kv => MsgOrphanVariants (shop_prefix name) (List.length (snd kv)) (fst kv)
                           (List.map (fun w => dict_get w "id" JNull) (snd kv)))
       (List.filter (fun kv => negb (bool_decide (fst kv ∈ pids))) g),
     Ok tt).
Proof.
  induction g as [|[k vs] g IH]; intros Hid; [reflexivity|].
  cbn [report_orphans List.filter fst snd].
  rewrite IH by (intros k0 vs0 v Hin Hv; apply (Hid k0 vs0 v); [right; exact Hin | exact Hv]).
  destruct (decide (k ∈ pids)) as [Hk|Hk].
  - rewrite bool_decide_eq_true_2 by exact Hk. reflexivity.
  - rewrite bool_decide_eq_false_2 by exact Hk. cbn [negb List.map fst snd].
    rewrite (map_result_ext (fun v => dict_getitem v "id") (fun w => dict_get w "id" JNull)).
    + reflexivity.
    + intros v Hv. unfold dict_getitem, dict_get.
      specialize (Hid k vs v (or_introl eq_refl) Hv).
      destruct (dict_lookup v "id"); [reflexivity | congruence].
Qed.

Lemma map_filter_groups {B} (W : pykey -> list pydict -> B) (G : pykey -> list pydict)
    (q q' : pykey -> bool) (l : groups) :
  (forall kv, In kv l -> snd kv = G (fst kv)) ->
  (forall kv, In kv l -> q (fst kv) = q' (fst kv)) ->
  List.map (fun kv => W (fst kv) (snd kv)) (List.filter (fun kv => q (fst kv)) l) =
  List.map (fun k => W k (G k)) (List.filter q' (List.map fst l)).
Proof.
  induction l as [|kv l IH]; intros HG Hq; [reflexivity|].
  cbn [List.filter List.map]. rewrite (Hq kv (or_introl eq_refl)).
  assert (Hrest : List.map (fun kv => W (fst kv) (snd kv)) (List.filter (fun kv => q (fst kv)) l) =
                  List.map (fun k => W k (G k)) (List.filter q' (List.map fst l))).
  { apply IH; intros; [apply HG | apply Hq]; right; assumption. }
  destruct (q' (fst kv)); cbn [List.map]; rewrite Hrest; [|reflexivity].
  rewrite (HG kv (or_introl eq_refl)). reflexivity.
Qed.

Lemma add_key_nodup (ks : list pykey) (k : pykey) :
  List.NoDup ks -> List.NoDup (add_key ks k).
Proof.
  intros Hnd. unfold add_key. destruct (decide (k ∈ ks)) as [Hin|Hnot].
  - rewrite bool_decide_eq_true_2 by exact Hin. exact Hnd.
  - rewrite bool_decide_eq_false_2 by exact Hnot.
    apply List.NoDup_app; [exact Hnd | repeat constructor; intros [] |].
    intros a Ha [<-|[]]. apply Hnot. apply list_elem_of_In. exact Ha.
Qed.

Lemma first_keys_nodup (variants : list pydict) : List.NoDup (first_keys variants).
Proof.
  unfold first_keys.
  generalize (flat_map (fun v => match relation_key v with Some k => [k] | None => [] end)
                variants).
  assert (H : forall (l ks : list pykey), List.NoDup ks -> List.NoDup (fold_left add_key l ks)).
  { induction l as [|k l IH]; intros ks Hks; [exact Hks|].
    simpl. apply IH. apply add_key_nodup. exact Hks. }
  intros l. apply H. constructor.
Qed.

(** X8.  The warnings of a join, exactly: on well-formed input
    [attach_variants] prints one line per distinct relation id that is the
    id of no product, in the order in which those ids first appear among the
    variants, each with the count and the ids of all the variants that carry
    it, and nothing else. *)
Theorem orphan_warnings_in_order_of_first_appearance
    (products variants : list pydict) (name : option string) :
  forallb has_id_key products = true ->
  forallb well_formed_variant variants = true ->
  attach_variants products variants name =
    (List.map (orphan_warning name variants) (orphan_keys products variants),
     Ok (List.map (joined variants) products, List.map after_attach variants)) /\
  List.NoDup (orphan_keys products variants).
Proof.
  intros Hp Hv. split.
  2:{ unfold orphan_keys. apply List.NoDup_filter. apply first_keys_nodup. }
  unfold attach_variants.
  destruct (group_variants_total variants Hv []) as (g & vs' & Hg). rewrite Hg.
  destruct (id_set_total products Hp) as (ids & Hids). rewrite Hids.
  rewrite (attach_all g variants vs' products Hg Hp).
  pose proof (group_variants_nodup _ _ _ _ Hg (List.NoDup_nil _)) as Hnd.
  pose proof (group_variants_get _ _ _ _ Hg) as Hget. simpl in Hget.
  pose proof (group_variants_fst _ _ _ _ Hg) as Hfst. simpl in Hfst.
  assert (Hmembers : forall kv, In kv g ->
            snd kv = List.map strip (List.filter (refers_to (fst kv)) variants)).
  { intros [k vs] Hin. simpl. rewrite <- (group_get_in g k vs Hnd Hin). apply Hget. }
  rewrite report_orphans_list.
  2:{ intros k vs v Hin Hvin. pose proof (Hmembers (k, vs) Hin) as Hm. simpl in Hm.
      rewrite Hm in Hvin. apply in_map_iff in Hvin. destruct Hvin as (w & <- & Hw). rewrite strip_id.
      apply filter_In in Hw. destruct Hw as [Hw _]. apply well_formed_variant_id.
      rewrite forallb_forall in Hv. apply Hv. exact Hw. }
  cbn [rbind]. rewrite (group_variants_after _ _ _ _ Hg). f_equal.
  unfold orphan_keys, first_keys. rewrite <- Hfst.
  assert (Hq : forall kv : pykey * list pydict, In kv g ->
            negb (bool_decide (fst kv ∈ ids)) =
            negb (existsb (fun p => bool_decide (id_key p = Some (fst kv))) products)).
  { intros [k vs] _. simpl. f_equal.
    destruct (decide (k ∈ ids)) as [Hin|Hnot].
    + rewrite bool_decide_eq_true_2 by exact Hin. symmetry.
      apply (id_set_elem _ _ k Hids) in Hin. destruct Hin as (p0 & Hp0 & Hk0).
      apply existsb_exists. exists p0. split; [exact Hp0|].
      apply bool_decide_eq_true_2. exact Hk0.
    + rewrite bool_decide_eq_false_2 by exact Hnot. symmetry.
      apply not_true_iff_false. intros Hex. apply existsb_exists in Hex.
      destruct Hex as (p0 & Hp0 & Hk0). apply bool_decide_eq_true_1 in Hk0.
      apply Hnot. apply (id_set_elem _ _ k Hids). exists p0. auto. }
  pose proof (map_filter_groups
                (fun k vs => MsgOrphanVariants (shop_prefix name) (List.length vs) k
                               (List.map (fun w => dict_get w "id" JNull) vs))
                (fun k => List.map strip (List.filter (refers_to k) variants))
                (fun k => negb (bool_decide (k ∈ ids)))
                (fun k => negb (existsb (fun p => bool_decide (id_key p = Some k)) products))
                g Hmembers Hq) as Hmf.
  cbv beta in Hmf. rewrite Hmf.
  apply List.map_ext. intros k. unfold orphan_warning.
  rewrite List.length_map, orphan_ids_strip. reflexivity.
Qed.

Lemma orphan_warnings_in_order_of_first_appearance_witness :
  attach_variants sample_products
    (mk_variant 31 9 :: sample_variants ++ [mk_variant 32 9]) (Some "nl") =
    ([MsgOrphanVariants (Some "nl") 2 (KInt 9) [JInt 31; JInt 32];
      MsgOrphanVariants (Some "nl") 2 (KInt 6) [JInt 16; JInt 17]],
     Ok (List.map (joined (mk_variant 31 9 :: sample_variants ++ [mk_variant 32 9]))
           sample_products,
         List.map after_attach (mk_variant 31 9 :: sample_variants ++ [mk_variant 32 9]))).
Proof.
  destruct (orphan_warnings_in_order_of_first_appearance sample_products
              (mk_variant 31 9 :: sample_variants ++ [mk_variant 32 9]) (Some "nl")
              eq_refl eq_refl) as [Hrun _].
  rewrite Hrun. reflexivity.
Defined.

(** ** Row building *)

Lemma product_row_shop (s : shop) (p : pydict) (r : row) :
  product_row s p = Ok r -> shop_row s r.
Proof.
  unfold product_row, dict_getitem. destruct (dict_lookup p "id"); cbn [rbind]; [|discriminate].
  intros H. inversion H. eexists. split; reflexivity.
Qed.

Lemma content_row_shop (s : shop) (lang : string) (p : pydict) (r : row) :
  content_row s lang p = Ok r ->
  shop_row s r /\ dict_lookup r "language_code" = Some (JStr lang).
Proof.
  unfold content_row, dict_getitem. destruct (dict_lookup p "id"); cbn [rbind]; [|discriminate].
  intros H. inversion H. split; [eexists; split; reflexivity | reflexivity].
Qed.

Lemma variant_row_shop (s : shop) (p v : pydict) (r : row) :
  variant_row s p v = Ok r -> shop_row s r.
Proof.
  unfold variant_row, dict_getitem.
  destruct (dict_lookup p "id"); cbn [rbind]; [|discriminate].
  destruct (dict_lookup v "id"); cbn [rbind]; [|discriminate].
  destruct (dict_lookup v "sku"); cbn [rbind]; [|discriminate].
  intros H. inversion H. eexists. split; reflexivity.
Qed.

Lemma variant_content_row_shop (s : shop) (lang : string) (v : pydict) (r : row) :
  variant_content_row s lang v = Ok r ->
  shop_row s r /\ dict_lookup r "language_code" = Some (JStr lang).
Proof.
  unfold variant_content_row, dict_getitem.
  destruct (dict_lookup v "id"); cbn [rbind]; [|discriminate].
  intros H. inversion H. split; [eexists; split; reflexivity | reflexivity].
Qed.

Lemma build_variant_rows_shape (s : shop) (lang : string) (p : pydict) (vs : list pydict) :
  forall vrs vcrs,
    build_variant_rows s lang p vs = Ok (vrs, vcrs) ->
    List.length vrs = List.length vs /\ List.length vcrs = List.length vs /\
    Forall (shop_row s) vrs /\
    Forall (fun r => shop_row s r /\ dict_lookup r "language_code" = Some (JStr lang)) vcrs.
Proof.
  induction vs as [|v vs IH]; intros vrs vcrs H.
  - simpl in H. inversion H. repeat split; constructor.
  - cbn [build_variant_rows] in H.
    destruct (variant_row s p v) as [vr|e] eqn:Hvr; cbn [rbind] in H; [|discriminate].
    destruct (variant_content_row s lang v) as [vcr|e] eqn:Hvcr; cbn [rbind] in H; [|discriminate].
    destruct (build_variant_rows s lang p vs) as [[vrs' vcrs']|e] eqn:Hrec;
      cbn [rbind] in H; [|discriminate].
    inversion H; subst. destruct (IH _ _ eq_refl) as (L1 & L2 & F1 & F2).
    cbn [List.length]. split; [congruence|]. split; [congruence|]. split.
    + constructor; [exact (variant_row_shop _ _ _ _ Hvr) | exact F1].
    + constructor; [exact (variant_content_row_shop _ _ _ _ Hvcr) | exact F2].
Qed.

Lemma build_rows_shape (s : shop) (base : string) (products : list attached) :
  forall b, build_rows s base products = Ok b ->
    List.length (product_rows b) = List.length products /\
    List.length (content_rows b) = List.length products /\
    List.length (variant_rows b) = List.length (concat (List.map variants_of products)) /\
    List.length (variant_content_rows b) =
      List.length (concat (List.map variants_of products)) /\
    Forall (shop_row s) (product_rows b) /\
    Forall (fun r => shop_row s r /\ dict_lookup r "language_code" = Some (JStr base))
           (content_rows b) /\
    Forall (shop_row s) (variant_rows b) /\
    Forall (fun r => shop_row s r /\ dict_lookup r "language_code" = Some (JStr base))
           (variant_content_rows b).
Proof.
  induction products as [|p ps IH]; intros b H.
  - simpl in H. inversion H. simpl. repeat split; constructor.
  - cbn [build_rows] in H.
    destruct (product_row s (product p)) as [pr|e] eqn:Hpr; cbn [rbind] in H; [|discriminate].
    destruct (content_row s base (product p)) as [cr|e] eqn:Hcr; cbn [rbind] in H; [|discriminate].
    destruct (build_variant_rows s base (product p) (variants_of p)) as [[vrs vcrs]|e] eqn:Hv;
      cbn [rbind] in H; [|discriminate].
    destruct (build_rows s base ps) as [b'|e]; cbn [rbind] in H; [|discriminate].
    inversion H; subst. cbn [product_rows content_rows variant_rows variant_content_rows].
    destruct (IH b' eq_refl) as (L1 & L2 & L3 & L4 & F1 & F2 & F3 & F4).
    destruct (build_variant_rows_shape _ _ _ _ _ _ Hv) as (M1 & M2 & G1 & G2).
    cbn [List.map concat List.length]. rewrite !List.length_app.
    split; [congruence|]. split; [congruence|]. split; [congruence|]. split; [congruence|].
    split; [constructor; [exact (product_row_shop _ _ _ Hpr) | exact F1]|].
    split; [constructor; [exact (content_row_shop _ _ _ _ Hcr) | exact F2]|].
    split; apply Forall_app; split; assumption.
Qed.

(** X9.  When the row building returns, there is one product row and one
    content row per product, one variant row and one variant content row
    per attached variant; every row carries the id of the shop of the run in
    its "shop_id" column and every content row carries the base language. *)
Theorem built_rows_belong_to_the_shop
    (s : shop) (base : string) (products : list attached) (b : built_rows) :
  build_rows s base products = Ok b ->
  List.length (product_rows b) = List.length products /\
  List.length (content_rows b) = List.length products /\
  List.length (variant_rows b) = List.length (concat (List.map variants_of products)) /\
  List.length (variant_content_rows b) =
    List.length (concat (List.map variants_of products)) /\
  Forall (fun r => dict_lookup r "shop_id" = Some (json_of_key (shop_id s)))
    (product_rows b ++ content_rows b ++ variant_rows b ++ variant_content_rows b) /\
  Forall (fun r => dict_lookup r "language_code" = Some (JStr base))
    (content_rows b ++ variant_content_rows b).
Proof.
  intros H. destruct (build_rows_shape s base products b H)
    as (L1 & L2 & L3 & L4 & F1 & F2 & F3 & F4).
  assert (Hshop : forall r, shop_row s r ->
            dict_lookup r "shop_id" = Some (json_of_key (shop_id s))).
  { intros r (rest & -> & _). reflexivity. }
  split; [exact L1|]. split; [exact L2|]. split; [exact L3|]. split; [exact L4|]. split.
  - rewrite !Forall_app. repeat split.
    + eapply List.Forall_impl; [|exact F1]. exact Hshop.
    + eapply List.Forall_impl; [|exact F2]. intros r [Hr _]. exact (Hshop r Hr).
    + eapply List.Forall_impl; [|exact F3]. exact Hshop.
    + eapply List.Forall_impl; [|exact F4]. intros r [Hr _]. exact (Hshop r Hr).
  - rewrite Forall_app. split.
    + eapply List.Forall_impl; [|exact F2]. intros r [_ Hr]. exact Hr.
    + eapply List.Forall_impl; [|exact F4]. intros r [_ Hr]. exact Hr.
Qed.

Lemma built_rows_belong_to_the_shop_witness :
  build_rows shop_one "nl" fetched_235 = Ok built_235 /\
  List.length (product_rows built_235) = 3 /\
  List.length (variant_rows built_235) = 1.
Proof.
  split; [reflexivity|].
  destruct (built_rows_belong_to_the_shop shop_one "nl" fetched_235 built_235 eq_refl)
    as (L1 & _ & L3 & _).
  split; [exact L1 | exact L3].
Defined.

(** ** Reasoning about the requests of a run *)

Lemma rows_if_valid_all (valid : gset pykey) (mk : pydict -> result row) (Q : row -> Prop)
    (xs : list pydict) :
  (forall x r, mk x = Ok r -> Q r) ->
  forall rows, rows_if_valid valid mk xs = Ok rows -> Forall Q rows.
Proof.
  intros Hmk. induction xs as [|x xs IH]; intros rows H.
  - simpl in H. inversion H. constructor.
  - cbn [rows_if_valid] in H. destruct (entity_key x) as [k|e]; cbn [rbind] in H; [|discriminate].
    destruct (decide (k ∈ valid)) as [Hk|Hk]; [|exact (IH rows H)].
    destruct (mk x) as [r|e] eqn:Hr; cbn [rbind] in H; [|discriminate].
    destruct (rows_if_valid valid mk xs) as [rs|e]; cbn [rbind] in H; [|discriminate].
    inversion H; subst. constructor; [exact (Hmk x r Hr) | apply IH; reflexivity].
Qed.

Section ShopRun.
Variable R : state -> state -> Prop.
Variable P : db_op -> Prop.
Variable env : environment.
Variable s : shop.
Hypothesis R_refl : forall st, R st st.
Hypothesis R_trans : forall a b c, R a b -> R b c -> R a c.
Hypothesis R_output :
  forall st ms, R st (State (db st) (requests st) (output st ++ ms) (metrics st)).
Hypothesis R_deleted :
  forall st k v, k = ProductsDeleted \/ k = VariantsDeleted ->
    R st (State (db st) (requests st) (output st) (set_counter k v (metrics st))).
Hypothesis R_metrics :
  forall st m, R st (State (db st) (requests st) (output st) m).
Hypothesis R_execute : forall op, P op -> respects R (db_execute env op).
Hypothesis P_content :
  forall t rows cols, t = "product_content" \/ t = "variant_content" ->
    Forall (shop_row s) rows -> In "shop_id" cols -> P (DbUpsert t rows cols).
Hypothesis P_core :
  forall t rows cols, t = "products" \/ t = "variants" ->
    Forall (shop_row s) rows -> In "shop_id" cols -> P (DbUpsert t rows cols).
Hypothesis P_select : forall t c, P (DbSelect t c (shop_id s)).
Hypothesis P_delete :
  forall t c ids, t = "products" \/ t = "variants" -> P (DbDelete t (shop_id s) c ids).
Hypothesis P_insert : P (DbInsert "sync_logs" (running_row s)).
Hypothesis P_update : forall fields id, P (DbUpdate "sync_logs" fields id).

Lemma run_bind_lift {A B} (x : result A) (k : A -> M B) :
  (forall a, x = Ok a -> respects R (k a)) -> respects R (bind (lift x) k).
Proof.
  intros Hk st r st' H. unfold bind, lift in H. destruct x as [a|e].
  - exact (Hk a eq_refl st r st' H).
  - inversion H; subst. apply R_refl.
Qed.

Lemma run_bulk_upsert (t : string) (rows : list row) (cols : list string) :
  P (DbUpsert t rows cols) -> respects R (bulk_upsert env t rows cols).
Proof.
  intros HP. unfold bulk_upsert. destruct rows as [|r rows]; [apply (respects_ret R R_refl)|].
  apply (respects_try R R_trans).
  - apply (respects_bind R R_trans); [apply R_execute, HP|].
    intros. apply (respects_ret R R_refl).
  - intros e. apply (respects_bind R R_trans); [apply (respects_print R R_output)|].
    intros. apply (respects_raise R R_refl).
Qed.

Lemma run_sync_language (fuel : nat) (k sec : string) (vp vv : gset pykey) (lang : string) :
  respects R (sync_language env fuel s k sec vp vv lang).
Proof.
  unfold sync_language.
  apply (respects_bind R R_trans); [apply (respects_print R R_output)|]. intros _.
  apply (respects_bind R R_trans); [apply (respects_fetch_both R env R_output)|].
  intros [lps lvs]. apply run_bind_lift. intros prows Hprows.
  apply run_bind_lift. intros vrows Hvrows.
  apply (respects_bind R R_trans).
  { destruct (Z.ltb 0 _); [apply (respects_print R R_output) | apply (respects_ret R R_refl)]. }
  intros _. apply (respects_bind R R_trans).
  { destruct (Z.ltb 0 _); [apply (respects_print R R_output) | apply (respects_ret R R_refl)]. }
  intros _. apply (respects_bind R R_trans).
  - apply run_bulk_upsert. apply P_content; [left; reflexivity | | left; reflexivity].
    apply (rows_if_valid_all vp (content_row s lang) (shop_row s) lps); [|exact Hprows].
    intros x r Hr. apply (content_row_shop s lang x r Hr).
  - intros _. apply run_bulk_upsert.
    apply P_content; [right; reflexivity | | left; reflexivity].
    apply (rows_if_valid_all vv (variant_content_row s lang) (shop_row s) lvs); [|exact Hvrows].
    intros x r Hr. apply (variant_content_row_shop s lang x r Hr).
Qed.

Lemma run_sync_languages (fuel : nat) (k sec base : string) (vp vv : gset pykey)
    (langs : list string) :
  respects R (sync_languages env fuel s k sec base vp vv langs).
Proof.
  induction langs as [|lang rest IH]; [apply (respects_ret R R_refl)|].
  cbn [sync_languages]. apply (respects_bind R R_trans); [|intros _; exact IH].
  destruct (String.eqb lang base); [apply (respects_ret R R_refl) | apply run_sync_language].
Qed.

Lemma run_cleanup (t column : string) (metric : metric) (deleted : nat -> msg)
    (ids : gset pykey) :
  t = "products" \/ t = "variants" ->
  metric = ProductsDeleted \/ metric = VariantsDeleted ->
  respects R (cleanup env s t column metric deleted ids).
Proof.
  intros Ht Hm. unfold cleanup.
  apply (respects_bind R R_trans); [apply R_execute, P_select|]. intros existing.
  apply (respects_bind R R_trans); [apply (respects_lift R R_refl)|]. intros existing_ids.
  destruct (decide (existing_ids ∖ ids = ∅)); [apply (respects_ret R R_refl)|].
  apply (respects_bind R R_trans); [apply R_execute, P_delete, Ht|]. intros _.
  apply (respects_bind R R_trans); [|intros; apply (respects_print R R_output)].
  intros st r st' H. inversion H; subst. apply R_deleted. exact Hm.
Qed.

Lemma run_cleanup_orphans (products : list attached) (b : built_rows) :
  respects R (cleanup_orphans env s products b).
Proof.
  unfold cleanup_orphans.
  apply (respects_bind R R_trans); [apply (respects_lift R R_refl)|]. intros pids.
  apply (respects_bind R R_trans); [apply run_cleanup; left; reflexivity|]. intros _.
  apply (respects_bind R R_trans); [apply (respects_lift R R_refl)|]. intros vids.
  apply (respects_bind R R_trans); [apply run_cleanup; right; reflexivity|]. intros _.
  apply (respects_ret R R_refl).
Qed.

Lemma run_persist (fuel : nat) (k sec base : string) (langs : list string)
    (products : list attached) (b : built_rows) :
  build_rows s base products = Ok b ->
  respects R (persist env fuel s k sec base langs products b).
Proof.
  intros Hb. destruct (build_rows_shape s base products b Hb)
    as (_ & _ & _ & _ & F1 & F2 & F3 & F4).
  assert (F2' : Forall (shop_row s) (content_rows b))
    by (eapply List.Forall_impl; [|exact F2]; intros r [Hr _]; exact Hr).
  assert (F4' : Forall (shop_row s) (variant_content_rows b))
    by (eapply List.Forall_impl; [|exact F4]; intros r [Hr _]; exact Hr).
  unfold persist.
  apply (respects_bind R R_trans).
  { apply run_bulk_upsert, P_core; [left; reflexivity | exact F1 | left; reflexivity]. }
  intros _. apply (respects_bind R R_trans).
  { apply run_bulk_upsert, P_content; [left; reflexivity | exact F2' | left; reflexivity]. }
  intros _. apply (respects_bind R R_trans).
  { apply run_bulk_upsert, P_core; [right; reflexivity | exact F3 | left; reflexivity]. }
  intros _. apply (respects_bind R R_trans).
  { apply run_bulk_upsert, P_content; [right; reflexivity | exact F4' | left; reflexivity]. }
  intros _. apply (respects_bind R R_trans); [apply run_cleanup_orphans|].
  intros [vp vv]. apply run_sync_languages.
Qed.

Lemma run_sync_catalogue (fuel : nat) : respects R (sync_catalogue env fuel s).
Proof.
  unfold sync_catalogue.
  apply (respects_bind R R_trans); [apply (respects_lift R R_refl)|]. intros [k sec].
  apply (respects_bind R R_trans); [apply (respects_lift R R_refl)|]. intros base.
  apply (respects_bind R R_trans); [apply (respects_fetch_both R env R_output)|].
  intros [ps vs].
  apply (respects_bind R R_trans); [apply (respects_set_metric R R_metrics)|]. intros _.
  apply (respects_bind R R_trans); [apply (respects_set_metric R R_metrics)|]. intros _.
  apply (respects_bind R R_trans); [apply (respects_print R R_output)|]. intros _.
  apply (respects_bind R R_trans); [apply (respects_run_attach R R_output)|].
  intros [aps vs'].
  apply (respects_bind R R_trans); [apply (respects_set_metric R R_metrics)|]. intros _.
  apply run_bind_lift. intros b Hb.
  apply (respects_bind R R_trans); [apply (respects_print R R_output)|]. intros _.
  apply (respects_bind R R_trans); [apply (respects_set_metric R R_metrics)|]. intros _.
  apply (respects_bind R R_trans); [apply (respects_set_metric R R_metrics)|]. intros _.
  exact (run_persist fuel k sec base (active_languages (shop_languages s)) aps b Hb).
Qed.

Lemma run_sync_shop_body (fuel : nat) (log_id : json) :
  respects R (sync_shop_body env fuel s log_id).
Proof.
  unfold sync_shop_body. apply (respects_bind R R_trans); [apply run_sync_catalogue|].
  intros _. unfold close_success.
  apply (respects_bind R R_trans); [apply (respects_get_metrics R R_refl)|]. intros m.
  apply (respects_bind R R_trans); [apply R_execute, P_update|].
  intros. apply (respects_ret R R_refl).
Qed.

Lemma run_sync_shop_handler (log_id : json) (e : exn) :
  respects R (sync_shop_handler env log_id e).
Proof.
  unfold sync_shop_handler.
  apply (respects_bind R R_trans); [apply (respects_get_metrics R R_refl)|]. intros m.
  apply (respects_bind R R_trans); [apply R_execute, P_update|].
  intros. apply (respects_raise R R_refl).
Qed.

Lemma run_sync_shop (fuel : nat) : respects R (sync_shop env fuel s).
Proof.
  unfold sync_shop.
  apply (respects_bind R R_trans); [apply (respects_print R R_output)|]. intros _.
  apply (respects_bind R R_trans); [apply R_execute, P_insert|]. intros data.
  apply (respects_bind R R_trans); [apply (respects_lift R R_refl)|]. intros log_id.
  apply (respects_bind R R_trans); [apply (respects_init_metrics R R_metrics)|]. intros _.
  apply (respects_try R R_trans);
    [apply run_sync_shop_body | intros e; apply run_sync_shop_handler].
Qed.
End ShopRun.

(** ** The requests of a run name its shop *)

Lemma sends_refl (Q : db_op -> Prop) (st : state) : sends Q st st.
Proof. exists []. split; [symmetry; apply List.app_nil_r | constructor]. Qed.

Lemma sends_trans (Q : db_op -> Prop) (a b c : state) :
  sends Q a b -> sends Q b c -> sends Q a c.
Proof.
  intros (n1 & H1 & F1) (n2 & H2 & F2). exists (n1 ++ n2). split.
  - rewrite H2, H1. symmetry. apply List.app_assoc.
  - apply Forall_app. split; assumption.
Qed.

Lemma sends_output (Q : db_op -> Prop) (st : state) (ms : list msg) :
  sends Q st (State (db st) (requests st) (output st ++ ms) (metrics st)).
Proof. exists []. split; [symmetry; apply List.app_nil_r | constructor]. Qed.

Lemma sends_metrics (Q : db_op -> Prop) (st : state) (m : counters) :
  sends Q st (State (db st) (requests st) (output st) m).
Proof. exists []. split; [symmetry; apply List.app_nil_r | constructor]. Qed.

Lemma sends_execute (Q : db_op -> Prop) (env : environment) (op : db_op) :
  Q op -> respects (sends Q) (db_execute env op).
Proof.
  intros HQ st r st' H. unfold db_execute in H. exists [op].
  destruct (db_fault env _ op).
  - inversion H; subst. split; [reflexivity | constructor; [exact HQ | constructor]].
  - destruct (db_apply op (db st)). inversion H; subst.
    split; [reflexivity | constructor; [exact HQ | constructor]].
Qed.

Lemma running_row_scoped (s : shop) : scoped s (DbInsert "sync_logs" (running_row s)).
Proof. split; reflexivity. Qed.

Lemma upsert_scoped (s : shop) (t : string) (rows : list row) (cols : list string) :
  In t ["products"; "product_content"; "variants"; "variant_content"] ->
  Forall (shop_row s) rows -> In "shop_id" cols -> scoped s (DbUpsert t rows cols).
Proof. intros. repeat split; assumption. Qed.

(** X10.  Every request a run of [sync_shop] sends to the store names the
    shop of the run: an upsert goes to one of the four catalogue tables, with
    rows that all carry the shop's id and with [shop_id] among the conflict
    columns; a select or delete is filtered by the shop's id, and a delete
    goes to [products] or [variants]; the only insert is the audit row of
    the shop and every update goes to [sync_logs].  This holds whatever the
    remote and the store answer and whether the run returns or raises. *)
Theorem every_request_names_the_shop
    (env : environment) (fuel : nat) (s : shop) (st st' : state) (r : result unit) :
  sync_shop env fuel s st = Some (r, st') ->
  sends (scoped s) st st'.
Proof.
  intros H. revert st r st' H.
  apply (run_sync_shop (sends (scoped s)) (scoped s) env s).
  - apply sends_refl.
  - apply sends_trans.
  - apply sends_output.
  - intros. apply sends_metrics.
  - apply sends_metrics.
  - apply sends_execute.
  - intros t rows cols [->| ->] Hrows Hcols; apply upsert_scoped; simpl; auto.
  - intros t rows cols [->| ->] Hrows Hcols; apply upsert_scoped; simpl; auto.
  - intros. reflexivity.
  - intros t c ids Ht. split; [exact Ht | reflexivity].
  - apply running_row_scoped.
  - intros. reflexivity.
Qed.

Lemma every_request_names_the_shop_witness :
  sync_shop demo_env 2 shop_one cleanup_state =
    Some (Ok tt, final_state demo_env 2 shop_one cleanup_state) /\
  sends (scoped shop_one) cleanup_state (final_state demo_env 2 shop_one cleanup_state).
Proof.
  split; [vm_compute; reflexivity|].
  apply (every_request_names_the_shop demo_env 2 shop_one cleanup_state _ (Ok tt)).
  vm_compute. reflexivity.
Defined.

(** ** A run leaves the rows of the other shops alone *)

Lemma key_of_json_of_key (k : pykey) : key_of (json_of_key k) = Some k.
Proof. destruct k; reflexivity. Qed.

Lemma shop_row_key (s : shop) (r : row) :
  shop_row s r -> column_key r "shop_id" = Some (shop_id s).
Proof.
  intros (rest & -> & _). unfold column_key. simpl. apply key_of_json_of_key.
Qed.

Lemma merge_lookup_absent (new : row) (k : string) :
  dict_lookup new k = None ->
  forall old, dict_lookup (merge_row old new) k = dict_lookup old k.
Proof.
  unfold merge_row. induction new as [|[k0 v0] new IH]; intros Hnone old; [reflexivity|].
  simpl in Hnone. destruct (String.eqb k0 k) eqn:E; [discriminate|].
  cbn [fold_left fst snd]. rewrite (IH Hnone). apply dict_lookup_set_ne.
  intros ->. rewrite String.eqb_refl in E. discriminate.
Qed.

Lemma merge_row_key (s : shop) (old new : row) :
  shop_row s new -> column_key (merge_row old new) "shop_id" = Some (shop_id s).
Proof.
  intros (rest & -> & Hrest). unfold column_key, merge_row. cbn [fold_left fst snd].
  pose proof (merge_lookup_absent rest "shop_id" Hrest
                (dict_set old "shop_id" (json_of_key (shop_id s)))) as H.
  unfold merge_row in H. rewrite H, dict_lookup_set_eq. apply key_of_json_of_key.
Qed.

Lemma others_own (s : shop) (r : row) (tbl : list row) :
  column_key r "shop_id" = Some (shop_id s) -> others s (r :: tbl) = others s tbl.
Proof.
  intros Hk. unfold others. cbn [List.filter]. unfold column_is.
  rewrite (bool_decide_eq_true_2 _ Hk). reflexivity.
Qed.

Lemma others_upsert_row (s : shop) (cols : list string) (new : row) (tbl : list row) :
  In "shop_id" cols -> shop_row s new ->
  others s (upsert_row cols new tbl) = others s tbl.
Proof.
  intros Hcols Hnew. induction tbl as [|r tbl IH]; cbn [upsert_row].
  - apply others_own, shop_row_key, Hnew.
  - destruct (decide (List.map (column_key r) cols = List.map (column_key new) cols))
      as [Heq|Hne].
    + pose proof (proj1 List.map_ext_in_iff Heq "shop_id" Hcols) as Hk.
      rewrite (shop_row_key s new Hnew) in Hk.
      rewrite (others_own s r tbl Hk). apply others_own, merge_row_key, Hnew.
    + unfold others in *. cbn [List.filter]. rewrite IH. reflexivity.
Qed.

Lemma others_upsert_rows (s : shop) (cols : list string) (rows : list row) :
  In "shop_id" cols -> Forall (shop_row s) rows ->
  forall tbl, others s (upsert_rows cols rows tbl) = others s tbl.
Proof.
  intros Hcols. unfold upsert_rows. induction rows as [|r rows IH]; intros HF tbl;
    [reflexivity|].
  cbn [fold_left]. rewrite IH by (inversion HF; assumption).
  apply others_upsert_row; [exact Hcols | inversion HF; assumption].
Qed.

Lemma others_delete (s : shop) (column : string) (ids : list pykey) (tbl : list row) :
  others s (List.filter (fun r => negb (deleted_by (shop_id s) column ids r)) tbl) =
  others s tbl.
Proof.
  unfold others. induction tbl as [|r tbl IH]; [reflexivity|].
  cbn [List.filter]. unfold deleted_by at 1.
  destruct (column_is r "shop_id" (shop_id s)) eqn:E; cbn [andb negb].
  - destruct (column_in r column ids); cbn [negb List.filter]; [exact IH|].
    rewrite E. exact IH.
  - cbn [List.filter]. rewrite E. cbn [negb]. rewrite IH. reflexivity.
Qed.

Lemma isolated_refl (s : shop) (st : state) : isolated s st st.
Proof. intros t _. reflexivity. Qed.

Lemma isolated_trans (s : shop) (a b c : state) :
  isolated s a b -> isolated s b c -> isolated s a c.
Proof. intros H1 H2 t Ht. rewrite (H2 t Ht). apply (H1 t Ht). Qed.

Lemma isolated_execute (s : shop) (env : environment) (op : db_op) :
  scoped s op -> respects (isolated s) (db_execute env op).
Proof.
  intros Hop st r st' H. unfold db_execute in H.
  destruct (db_fault env _ op); [inversion H; subst; intros t _; reflexivity|].
  destruct (db_apply op (db st)) as [data d'] eqn:Happly. inversion H; subst.
  intros t Ht. cbn [db].
  destruct op as [t0 rows cols|t0 c k|t0 k c ids|t0 r0|t0 fields id];
    simpl in Happly, Hop; inversion Happly; subst; clear Happly.
  - destruct Hop as (_ & Hrows & Hcols).
    destruct (decide (t0 = t)) as [->|Hne].
    + rewrite table_rows_insert. apply others_upsert_rows; assumption.
    + rewrite table_rows_insert_ne by exact Hne. reflexivity.
  - reflexivity.
  - destruct Hop as (_ & ->).
    destruct (decide (t0 = t)) as [->|Hne].
    + rewrite table_rows_insert. apply others_delete.
    + rewrite table_rows_insert_ne by exact Hne. reflexivity.
  - destruct Hop as (-> & _). rewrite table_rows_insert_ne by congruence. reflexivity.
  - rewrite table_rows_insert_ne by congruence. reflexivity.
Qed.

(** X11.  Whatever the remote and the store answer, and whether the run
    returns or raises, a run of [sync_shop] for a shop leaves the rows of
    every other shop as they were, in this order, in every table other than
    the audit table: its upserts merge into and append rows of its own shop
    only, and its deletes are filtered by its shop id. *)
Theorem run_leaves_other_shops_alone
    (env : environment) (fuel : nat) (s : shop) (st st' : state) (r : result unit) :
  sync_shop env fuel s st = Some (r, st') ->
  forall t, t <> "sync_logs" ->
    others s (table_rows (db st') t) = others s (table_rows (db st) t).
Proof.
  intros H. revert st r st' H.
  apply (run_sync_shop (isolated s) (scoped s) env s).
  - apply isolated_refl.
  - apply isolated_trans.
  - intros st ms t _. reflexivity.
  - intros st k v _ t _. reflexivity.
  - intros st m t _. reflexivity.
  - apply isolated_execute.
  - intros t rows cols [->| ->] Hrows Hcols; apply upsert_scoped; simpl; auto.
  - intros t rows cols [->| ->] Hrows Hcols; apply upsert_scoped; simpl; auto.
  - intros. reflexivity.
  - intros t c ids Ht. split; [exact Ht | reflexivity].
  - apply running_row_scoped.
  - intros. reflexivity.
Qed.

Lemma run_leaves_other_shops_alone_witness :
  sync_shop demo_env 2 shop_one cleanup_state =
    Some (Ok tt, final_state demo_env 2 shop_one cleanup_state) /\
  others shop_one (table_rows (db cleanup_state) "products") =
    [stored_product 2 1; stored_product 2 4] /\
  others shop_one
    (table_rows (db (final_state demo_env 2 shop_one cleanup_state)) "products") =
    [stored_product 2 1; stored_product 2 4].
Proof.
  split; [vm_compute; reflexivity|]. split; [vm_compute; reflexivity|].
  rewrite (run_leaves_other_shops_alone demo_env 2 shop_one cleanup_state _ (Ok tt)).
  - vm_compute. reflexivity.
  - vm_compute. reflexivity.
  - discriminate.
Defined.

(** ** The secondary languages *)

Lemma content_only_refl (s : shop) (st : state) : content_only s st st.
Proof. split; [reflexivity|]. split; [reflexivity | apply sends_refl]. Qed.

Lemma content_only_trans (s : shop) (a b c : state) :
  content_only s a b -> content_only s b c -> content_only s a c.
Proof.
  intros (M1 & T1 & S1) (M2 & T2 & S2). split; [congruence|]. split.
  - intros t H1 H2. rewrite (T2 t H1 H2). apply (T1 t H1 H2).
  - apply (sends_trans _ a b c S1 S2).
Qed.

Lemma content_only_execute (s : shop) (env : environment) (op : db_op) :
  content_upsert s op -> respects (content_only s) (db_execute env op).
Proof.
  intros Hop st r st' H. split; [|split].
  - unfold db_execute in H. destruct (db_fault env _ op); [inversion H; reflexivity|].
    destruct (db_apply op (db st)). inversion H. reflexivity.
  - intros t H1 H2. unfold db_execute in H.
    destruct (db_fault env _ op); [inversion H; reflexivity|].
    destruct op as [t0 rows cols| | | |]; simpl in Hop; try contradiction.
    cbn [db_apply] in H. inversion H; subst. cbn [db].
    apply table_rows_insert_ne. destruct Hop as ([->| ->] & _); congruence.
  - exact (sends_execute (content_upsert s) env op Hop st r st' H).
Qed.

(** X12.  The loop over the secondary languages, whatever the remote and the
    store answer and whether it returns or raises, sends nothing but upserts
    of rows of the shop into [product_content] and [variant_content]: it
    deletes nothing, leaves every other table as it was, and changes no
    counter of the run (the numbers of filtered entities are only printed). *)
Theorem secondary_languages_touch_content_only
    (env : environment) (fuel : nat) (s : shop) (k sec base : string)
    (vp vv : gset pykey) (langs : list string) (st st' : state) (r : result unit) :
  sync_languages env fuel s k sec base vp vv langs st = Some (r, st') ->
  metrics st' = metrics st /\
  (forall t, t <> "product_content" -> t <> "variant_content" ->
     table_rows (db st') t = table_rows (db st) t) /\
  sends (content_upsert s) st st'.
Proof.
  intros H. revert st r st' H.
  apply (run_sync_languages (content_only s) (content_upsert s) env s).
  - apply content_only_refl.
  - apply content_only_trans.
  - intros st ms. split; [reflexivity|]. split; [reflexivity | apply sends_output].
  - apply content_only_execute.
  - intros t rows cols Ht Hrows _. split; assumption.
Qed.

(** X13.  The language loop skips the base language: it behaves as the loop
    over the active languages with the base language removed. *)
Theorem language_loop_skips_the_base_language
    (env : environment) (fuel : nat) (s : shop) (k sec base : string)
    (vp vv : gset pykey) (langs : list string) (st : state) :
  sync_languages env fuel s k sec base vp vv langs st =
  sync_languages env fuel s k sec base vp vv
    (List.filter (fun l => negb (String.eqb l base)) langs) st.
Proof.
  revert st. induction langs as [|lang rest IH]; intros st; [reflexivity|].
  cbn [sync_languages List.filter]. destruct (String.eqb lang base) eqn:E; cbn [negb].
  - unfold bind at 1. unfold ret. apply IH.
  - cbn [sync_languages]. rewrite E. unfold bind at 1 2.
    destruct (sync_language env fuel s k sec vp vv lang st) as [[[[]|e] st1]|];
      [apply IH | reflexivity | reflexivity].
Qed.

Lemma secondary_languages_touch_content_only_witness :
  exists st',
    sync_languages demo_env 2 shop_one "key" "secret" "nl" {[KInt 10]} {[KInt 100]}
      ["nl"; "de"] empty_state = Some (Ok tt, st') /\
    metrics st' = metrics empty_state /\
    table_rows (db st') "products" = [] /\
    List.map op_table (requests st') = ["product_content"; "variant_content"].
Proof.
  exists (match sync_languages demo_env 2 shop_one "key" "secret" "nl" {[KInt 10]}
                  {[KInt 100]} ["nl"; "de"] empty_state with
          | Some (_, st') => st'
          | None => empty_state
          end).
  split; [vm_compute; reflexivity|].
  destruct (secondary_languages_touch_content_only demo_env 2 shop_one "key" "secret" "nl"
              {[KInt 10]} {[KInt 100]} ["nl"; "de"] empty_state
              (match sync_languages demo_env 2 shop_one "key" "secret" "nl" {[KInt 10]}
                       {[KInt 100]} ["nl"; "de"] empty_state with
               | Some (_, st') => st'
               | None => empty_state
               end) (Ok tt)) as (Hm & Ht & _).
  - vm_compute. reflexivity.
  - split; [exact Hm|]. split.
    + rewrite Ht by discriminate. reflexivity.
    + vm_compute. reflexivity.
Defined.

(** ** The counters of a run *)

Lemma bind_ok_inv {A B} (m : M A) (k : A -> M B) (st st' : state) (b : B) :
  bind m k st = Some (Ok b, st') ->
  exists a st1, m st = Some (Ok a, st1) /\ k a st1 = Some (Ok b, st').
Proof.
  unfold bind. destruct (m st) as [[[a|e] st1]|]; intros H; try discriminate.
  exists a, st1. split; [reflexivity | exact H].
Qed.

Lemma lift_ok_inv {A} (x : result A) (st st' : state) (a : A) :
  lift x st = Some (Ok a, st') -> x = Ok a /\ st' = st.
Proof. unfold lift. intros H. inversion H. split; reflexivity. Qed.

Lemma map_result_length {A B} (f : A -> result B) (l : list A) (bs : list B) :
  map_result f l = Ok bs -> List.length bs = List.length l.
Proof.
  intros H. apply map_result_inv in H. induction H; simpl; congruence.
Qed.

Lemma group_variants_length (vs : list pydict) :
  forall (g g' : groups) (vs' : list pydict),
    group_variants vs g = Ok (g', vs') -> List.length vs' = List.length vs.
Proof.
  induction vs as [|v rest IH]; intros g g' vs' H.
  - simpl in H. inversion H. reflexivity.
  - apply group_variants_cons_inv in H.
    destruct H as [(_ & _ & vs'' & Hrec & ->) | (k0 & _ & vs'' & Hrec & ->)];
      simpl; f_equal; eapply IH; exact Hrec.
Qed.

Lemma run_attach_inv (ps vs : list pydict) (name : string) (st st' : state)
    (aps : list attached) (vs' : list pydict) :
  run_attach ps vs name st = Some (Ok (aps, vs'), st') ->
  metrics st' = metrics st /\ List.length aps = List.length ps /\
  List.length vs' = List.length vs.
Proof.
  unfold run_attach, attach_variants.
  destruct (group_variants vs []) as [[g vs0]|e] eqn:Hg; [|intros H; inversion H].
  destruct (id_set ps) as [ids|e]; [|intros H; inversion H].
  destruct (map_result (attach_one g) ps) as [aps0|e] eqn:Hmap; [|intros H; inversion H].
  destruct (report_orphans (Some name) ids g) as [out [[]|e]]; cbn [rbind];
    intros H; inversion H; subst.
  split; [reflexivity|]. split.
  - apply (map_result_length _ _ _ Hmap).
  - apply (group_variants_length _ _ _ _ Hg).
Qed.

Lemma attached_count (aps : list attached) :
  fold_right Z.add 0%Z (List.map (fun p => Z.of_nat (List.length (variants_of p))) aps) =
  Z.of_nat (List.length (concat (List.map variants_of aps))).
Proof.
  induction aps as [|p aps IH]; [reflexivity|].
  cbn [List.map fold_right concat]. rewrite IH, List.length_app. lia.
Qed.

Lemma same_counts_refl (st : state) : same_counts st st.
Proof. repeat split. Qed.

Lemma same_counts_trans (a b c : state) :
  same_counts a b -> same_counts b c -> same_counts a c.
Proof. unfold same_counts. intuition congruence. Qed.

Lemma same_counts_execute (env : environment) (op : db_op) :
  respects same_counts (db_execute env op).
Proof.
  intros st r st' H. unfold db_execute in H.
  destruct (db_fault env _ op); [inversion H; repeat split|].
  destruct (db_apply op (db st)). inversion H. repeat split.
Qed.

Lemma persist_same_counts (env : environment) (fuel : nat) (s : shop)
    (k sec base : string) (langs : list string) (products : list attached)
    (b : built_rows) :
  build_rows s base products = Ok b ->
  respects same_counts (persist env fuel s k sec base langs products b).
Proof.
  apply (run_persist same_counts (fun _ => True) env s same_counts_refl same_counts_trans).
  - intros st ms. repeat split.
  - intros st c v [->| ->]; repeat split.
  - intros op _. apply same_counts_execute.
  - auto.
  - auto.
  - auto.
  - auto.
Qed.

(** X14.  When the catalogue steps of a run return, the counters of the run
    satisfy [products_synced = products_fetched] and
    [variants_synced + variants_filtered = variants_fetched], whatever the
    remote returned: every fetched product gets a row, and a fetched variant
    is either counted as synced, once for every product row it is attached
    to, or counted as filtered. *)
Theorem counters_add_up
    (env : environment) (fuel : nat) (s : shop) (st st' : state) :
  sync_catalogue env fuel s st = Some (Ok tt, st') ->
  products_synced (metrics st') = products_fetched (metrics st') /\
  (variants_synced (metrics st') + variants_filtered (metrics st') =
   variants_fetched (metrics st'))%Z.
Proof.
  intros H. unfold sync_catalogue in H.
  apply bind_ok_inv in H. destruct H as ([k sec] & st1 & H1 & H).
  apply bind_ok_inv in H. destruct H as (base & st2 & H2 & H).
  apply bind_ok_inv in H. destruct H as ([ps vs] & st3 & H3 & H).
  apply bind_ok_inv in H. destruct H as ([] & st4 & H4 & H).
  apply bind_ok_inv in H. destruct H as ([] & st5 & H5 & H).
  apply bind_ok_inv in H. destruct H as ([] & st6 & H6 & H).
  apply bind_ok_inv in H. destruct H as ([aps vs'] & st7 & H7 & H).
  apply bind_ok_inv in H. destruct H as ([] & st8 & H8 & H).
  apply bind_ok_inv in H. destruct H as (b & st9 & H9 & H).
  apply bind_ok_inv in H. destruct H as ([] & st10 & H10 & H).
  apply bind_ok_inv in H. destruct H as ([] & st11 & H11 & H).
  apply bind_ok_inv in H. destruct H as ([] & st12 & H12 & H).
  apply lift_ok_inv in H9. destruct H9 as [Hb ->].
  pose proof (persist_same_counts env fuel s k sec base
                (active_languages (shop_languages s)) aps b Hb st12 (Ok tt) st' H)
    as (C1 & C2 & C3 & C4 & C5).
  rewrite C1, C2, C3, C4, C5.
  apply run_attach_inv in H7. destruct H7 as (M7 & La & Lv).
  destruct (build_rows_shape s base aps b Hb) as (Lp & _ & Lvr & _).
  unfold set_metric in H4, H5, H8, H11, H12. unfold print in H6, H10.
  inversion H12; subst st12. inversion H11; subst st11. inversion H10; subst st10.
  inversion H8; subst st8. inversion H6; subst st6. inversion H5; subst st5.
  inversion H4; subst st4. cbn [metrics set_counter products_fetched variants_fetched
    products_synced variants_synced variants_filtered].
  rewrite M7. cbn [metrics set_counter products_fetched variants_fetched
    products_synced variants_synced variants_filtered].
  unfold variants_filtered_count. rewrite attached_count, Lp, La, Lvr, Lv. lia.
Qed.

Lemma counters_add_up_witness :
  exists st',
    sync_catalogue demo_env 2 shop_one empty_state = Some (Ok tt, st') /\
    metrics st' = Counters 2 3 2 2 0 0 1 /\
    products_synced (metrics st') = products_fetched (metrics st') /\
    (variants_synced (metrics st') + variants_filtered (metrics st') =
     variants_fetched (metrics st'))%Z.
Proof.
  exists (match sync_catalogue demo_env 2 shop_one empty_state with
          | Some (_, st') => st'
          | None => empty_state
          end).
  split; [vm_compute; reflexivity|]. split; [vm_compute; reflexivity|].
  apply (counters_add_up demo_env 2 shop_one empty_state). vm_compute. reflexivity.
Defined.

(** ** How a run ends *)

Lemma audit_row_succeeded (s : shop) (st : state) (m : counters) :
  merge_row (audit_row s st) (success_fields m) = success_row s (audit_id st) m.
Proof. reflexivity. Qed.

Lemma sync_shop_return (env : environment) (fuel : nat) (s : shop) (st st1 : state) :
  db_fault env (List.length (requests st)) (DbInsert "sync_logs" (running_row s)) = None ->
  sync_catalogue env fuel s (opened s st) = Some (Ok tt, st1) ->
  db_fault env (List.length (requests st1))
    (DbUpdate "sync_logs" (success_fields (metrics st1)) (audit_id st)) = None ->
  sync_shop env fuel s st =
    Some (Ok tt,
          State (<["sync_logs" := table_rows (db st) "sync_logs"
                                  ++ [success_row s (audit_id st) (metrics st1)]]> (db st1))
                (requests st1
                 ++ [DbUpdate "sync_logs" (success_fields (metrics st1)) (audit_id st)])
                (output st1) (metrics st1)).
Proof.
  intros Hins Hcat Hupd. rewrite (sync_shop_opened env fuel s st Hins).
  unfold try_except, sync_shop_body. unfold bind at 1. rewrite Hcat.
  unfold close_success, bind, get_metrics, db_execute. rewrite Hupd. cbn [db_apply].
  pose proof (sync_catalogue_same_logs _ _ _ _ _ _ Hcat) as Hlogs. unfold same_logs in Hlogs.
  rewrite Hlogs. unfold opened at 1. cbn [db]. rewrite table_rows_insert.
  rewrite update_audit_row, audit_row_succeeded. reflexivity.
Qed.

(** X15.  The audit row is open and the catalogue steps return, leaving the
    state [st1]: if the store accepts the closing update, the run returns
    after one more request, which turns the audit row of the run into the
    success row: status "success", the seven counters of [st1] and no
    [error_message]; the other rows of the audit table, the other tables,
    the printed lines and the counters are those of [st1]. *)
Theorem successful_run_closes_audit_row
    (env : environment) (fuel : nat) (s : shop) (st st1 : state) :
  db_fault env (List.length (requests st)) (DbInsert "sync_logs" (running_row s)) = None ->
  sync_catalogue env fuel s (opened s st) = Some (Ok tt, st1) ->
  db_fault env (List.length (requests st1))
    (DbUpdate "sync_logs" (success_fields (metrics st1)) (audit_id st)) = None ->
  exists st2,
    sync_shop env fuel s st = Some (Ok tt, st2) /\
    requests st2 =
      requests st1 ++ [DbUpdate "sync_logs" (success_fields (metrics st1)) (audit_id st)] /\
    table_rows (db st2) "sync_logs" =
      table_rows (db st) "sync_logs" ++ [success_row s (audit_id st) (metrics st1)] /\
    dict_lookup (success_row s (audit_id st) (metrics st1)) "status" =
      Some (JStr "success") /\
    dict_lookup (success_row s (audit_id st) (metrics st1)) "error_message" = None /\
    (forall k v, In (k, v) (metrics_fields (metrics st1)) ->
                 dict_lookup (success_row s (audit_id st) (metrics st1)) k = Some v) /\
    (forall t, t <> "sync_logs" -> table_rows (db st2) t = table_rows (db st1) t) /\
    output st2 = output st1 /\ metrics st2 = metrics st1.
Proof.
  intros Hins Hcat Hupd. eexists.
  split; [exact (sync_shop_return env fuel s st st1 Hins Hcat Hupd)|].
  cbn [db requests output metrics]. split; [reflexivity|].
  split; [apply table_rows_insert|].
  split; [reflexivity|]. split; [reflexivity|]. split; [|split; [|split; reflexivity]].
  - intros k v Hin. simpl in Hin.
    repeat (destruct Hin as [Heq|Hin]; [inversion Heq; subst; reflexivity|]). destruct Hin.
  - intros t Ht. apply table_rows_insert_ne. congruence.
Qed.

Lemma successful_run_closes_audit_row_witness :
  exists st2,
    sync_shop demo_env 2 shop_one empty_state = Some (Ok tt, st2) /\
    table_rows (db st2) "sync_logs" =
      [success_row shop_one (JInt 1) (Counters 2 3 2 2 0 0 1)].
Proof.
  destruct (successful_run_closes_audit_row demo_env 2 shop_one empty_state
              (match sync_catalogue demo_env 2 shop_one (opened shop_one empty_state) with
               | Some (_, st1) => st1
               | None => empty_state
               end))
    as (st2 & Hrun & _ & Hlogs & _).
  - reflexivity.
  - vm_compute. reflexivity.
  - reflexivity.
  - exists st2. split; [exact Hrun|]. rewrite Hlogs. vm_compute. reflexivity.
Defined.

(** X16.  The [try] block raises [e] and the store refuses the update of the
    [except] block: the run raises the error of the store in place of [e],
    and the audit row of the run is left as it was inserted, with status
    "running". *)
Theorem refused_error_update_leaves_the_row_running
    (env : environment) (fuel : nat) (s : shop) (st st1 : state) (e : exn) (err : string) :
  db_fault env (List.length (requests st)) (DbInsert "sync_logs" (running_row s)) = None ->
  sync_shop_body env fuel s (audit_id st) (opened s st) = Some (Raise e, st1) ->
  db_fault env (List.length (requests st1))
    (DbUpdate "sync_logs" (error_fields e (metrics st1)) (audit_id st)) = Some err ->
  exists st2,
    sync_shop env fuel s st = Some (Raise (APIError err), st2) /\
    requests st2 =
      requests st1 ++ [DbUpdate "sync_logs" (error_fields e (metrics st1)) (audit_id st)] /\
    table_rows (db st2) "sync_logs" = table_rows (db st) "sync_logs" ++ [audit_row s st] /\
    dict_lookup (audit_row s st) "status" = Some (JStr "running") /\
    db st2 = db st1.
Proof.
  intros Hins Hbody Hupd. rewrite (sync_shop_opened env fuel s st Hins).
  unfold try_except. rewrite Hbody.
  unfold sync_shop_handler, bind, get_metrics, db_execute. rewrite Hupd.
  eexists. split; [reflexivity|]. cbn [db requests]. split; [reflexivity|].
  split; [|split; reflexivity].
  pose proof (body_raise_same_logs _ _ _ _ _ _ _ Hbody) as Hlogs. unfold same_logs in Hlogs.
  rewrite Hlogs. unfold opened. cbn [db]. apply table_rows_insert.
Qed.

Lemma refused_error_update_leaves_the_row_running_witness :
  exists st2,
    sync_shop refusing_update_env 2 shop_one empty_state =
      Some (Raise (APIError "connection lost"), st2) /\
    table_rows (db st2) "sync_logs" =
      [[("shop_id", JInt 1); ("status", JStr "running"); ("id", JInt 1)]].
Proof.
  destruct (refused_error_update_leaves_the_row_running refusing_update_env 2 shop_one
              empty_state (opened shop_one empty_state)
              (RuntimeError "Missing API credentials for shop TLD=NL") "connection lost")
    as (st2 & Hrun & _ & Hlogs & _).
  - reflexivity.
  - vm_compute. reflexivity.
  - reflexivity.
  - exists st2. split; [exact Hrun|]. rewrite Hlogs. vm_compute. reflexivity.
Defined.

(** X17.  The closing update is part of the [try] block: when the catalogue
    steps return and the store refuses the success update but accepts the
    error update, the run raises the error of the store and its audit row
    ends with status "error", that error as message and the counters of the
    completed catalogue steps. *)
Theorem refused_success_update_is_audited_as_error
    (env : environment) (fuel : nat) (s : shop) (st st1 : state) (err : string) :
  db_fault env (List.length (requests st)) (DbInsert "sync_logs" (running_row s)) = None ->
  sync_catalogue env fuel s (opened s st) = Some (Ok tt, st1) ->
  db_fault env (List.length (requests st1))
    (DbUpdate "sync_logs" (success_fields (metrics st1)) (audit_id st)) = Some err ->
  db_fault env (S (List.length (requests st1)))
    (DbUpdate "sync_logs" (error_fields (APIError err) (metrics st1)) (audit_id st)) = None ->
  exists st2,
    sync_shop env fuel s st = Some (Raise (APIError err), st2) /\
    requests st2 =
      requests st1 ++
      [DbUpdate "sync_logs" (success_fields (metrics st1)) (audit_id st);
       DbUpdate "sync_logs" (error_fields (APIError err) (metrics st1)) (audit_id st)] /\
    table_rows (db st2) "sync_logs" =
      table_rows (db st) "sync_logs" ++ [error_row s (audit_id st) (APIError err) (metrics st1)] /\
    (forall t, t <> "sync_logs" -> table_rows (db st2) t = table_rows (db st1) t).
Proof.
  intros Hins Hcat Hsucc Herr.
  assert (Hbody : sync_shop_body env fuel s (audit_id st) (opened s st) =
                  Some (Raise (APIError err),
                        State (db st1)
                          (requests st1 ++ [DbUpdate "sync_logs" (success_fields (metrics st1))
                                              (audit_id st)])
                          (output st1) (metrics st1))).
  { unfold sync_shop_body. unfold bind at 1. rewrite Hcat.
    unfold close_success, bind, get_metrics, db_execute. rewrite Hsucc. reflexivity. }
  eexists. split.
  - apply (sync_shop_raise env fuel s st _ (APIError err) Hins Hbody).
    cbn [requests metrics]. rewrite List.length_app. cbn [List.length].
    rewrite Nat.add_1_r. exact Herr.
  - cbn [db requests metrics]. split; [rewrite <- List.app_assoc; reflexivity|].
    split; [apply table_rows_insert|].
    intros t Ht. apply table_rows_insert_ne. congruence.
Qed.

Lemma refused_success_update_is_audited_as_error_witness :
  exists st2,
    sync_shop refusing_success_env 2 shop_one empty_state =
      Some (Raise (APIError "connection lost"), st2) /\
    table_rows (db st2) "sync_logs" =
      [error_row shop_one (JInt 1) (APIError "connection lost") (Counters 2 3 2 2 0 0 1)].
Proof.
  destruct (refused_success_update_is_audited_as_error refusing_success_env 2 shop_one
              empty_state
              (match sync_catalogue refusing_success_env 2 shop_one
                       (opened shop_one empty_state) with
               | Some (_, st1) => st1
               | None => empty_state
               end) "connection lost")
    as (st2 & Hrun & _ & Hlogs & _).
  - reflexivity.
  - vm_compute. reflexivity.
  - vm_compute. reflexivity.
  - vm_compute. reflexivity.
  - exists st2. split; [exact Hrun|]. rewrite Hlogs. vm_compute. reflexivity.
Defined.

(** X18.  The insert of the audit row comes before the [try] block: when the
    store refuses it, the run raises the error of the store at once; it has
    sent that one request, fetched nothing and written nothing, and no audit
    row records the attempt. *)
Theorem refused_audit_insert_ends_the_run
    (env : environment) (fuel : nat) (s : shop) (st : state) (err : string) :
  db_fault env (List.length (requests st)) (DbInsert "sync_logs" (running_row s)) = Some err ->
  sync_shop env fuel s st =
    Some (Raise (APIError err),
          State (db st) (requests st ++ [DbInsert "sync_logs" (running_row s)])
                (output st ++ [MsgSyncing (shop_name s)]) (metrics st)).
Proof.
  intros Hins. unfold sync_shop, bind, print, db_execute. cbn [db requests output metrics].
  rewrite Hins. reflexivity.
Qed.

Lemma refused_audit_insert_ends_the_run_witness :
  sync_shop refusing_insert_env 0 shop_one cleanup_state =
    Some (Raise (APIError "connection lost"),
          State cleanup_db [DbInsert "sync_logs" (running_row shop_one)]
                [MsgSyncing "Shop NL"] (Counters 0 0 0 0 0 0 0)).
Proof.
  apply (refused_audit_insert_ends_the_run refusing_insert_env 0 shop_one cleanup_state
           "connection lost").
  reflexivity.
Defined.

(** ** Failures before the first fetch *)

Lemma sync_shop_fails_at_once (env : environment) (fuel : nat) (s : shop) (st : state)
    (e : exn) :
  sync_catalogue env fuel s (opened s st) = Some (Raise e, opened s st) ->
  db_fault env (List.length (requests st)) (DbInsert "sync_logs" (running_row s)) = None ->
  db_fault env (S (List.length (requests st)))
    (DbUpdate "sync_logs" (error_fields e (Counters 0 0 0 0 0 0 0)) (audit_id st)) = None ->
  exists st2,
    sync_shop env fuel s st = Some (Raise e, st2) /\
    requests st2 =
      requests st ++
      [DbInsert "sync_logs" (running_row s);
       DbUpdate "sync_logs" (error_fields e (Counters 0 0 0 0 0 0 0)) (audit_id st)] /\
    output st2 = output st ++ [MsgSyncing (shop_name s)] /\
    table_rows (db st2) "sync_logs" =
      table_rows (db st) "sync_logs"
      ++ [error_row s (audit_id st) e (Counters 0 0 0 0 0 0 0)] /\
    (forall t, t <> "sync_logs" -> table_rows (db st2) t = table_rows (db st) t).
Proof.
  intros Hcat Hins Hupd.
  assert (Hbody : sync_shop_body env fuel s (audit_id st) (opened s st) =
                  Some (Raise e, opened s st)).
  { unfold sync_shop_body. unfold bind at 1. rewrite Hcat. reflexivity. }
  eexists. split.
  - apply (sync_shop_raise env fuel s st _ e Hins Hbody).
    unfold opened. cbn [requests metrics]. rewrite List.length_app. cbn [List.length].
    rewrite Nat.add_1_r. exact Hupd.
  - unfold opened. cbn [db requests output metrics].
    split; [rewrite <- List.app_assoc; reflexivity|]. split; [reflexivity|].
    split; [apply table_rows_insert|].
    intros t Ht. rewrite !table_rows_insert_ne by congruence. reflexivity.
Qed.

(** X19.  For a shop whose TLD is ASCII text: when the key or the secret of
    the shop is not set, or is the empty string, in the environment variable
    named after the upper-cased TLD, the
    run raises [RuntimeError] before anything is fetched, whatever the
    fuel: on a store that accepts them it sends two requests, the insert of
    the audit row and the update that closes it with status "error", the
    message of the exception and seven zero counters, and it leaves every
    other table alone. *)
Theorem missing_credentials_fail_before_any_fetch
    (env : environment) (fuel : nat) (s : shop) (st : state) :
  ascii_text (tld s) = true ->
  env_missing (getenv env (key_variable s))
    || env_missing (getenv env (secret_variable s)) = true ->
  let e := RuntimeError ("Missing API credentials for shop TLD=" +:+ upper (tld s)) in
  db_fault env (List.length (requests st)) (DbInsert "sync_logs" (running_row s)) = None ->
  db_fault env (S (List.length (requests st)))
    (DbUpdate "sync_logs" (error_fields e (Counters 0 0 0 0 0 0 0)) (audit_id st)) = None ->
  exists st2,
    sync_shop env fuel s st = Some (Raise e, st2) /\
    requests st2 =
      requests st ++
      [DbInsert "sync_logs" (running_row s);
       DbUpdate "sync_logs" (error_fields e (Counters 0 0 0 0 0 0 0)) (audit_id st)] /\
    output st2 = output st ++ [MsgSyncing (shop_name s)] /\
    table_rows (db st2) "sync_logs" =
      table_rows (db st) "sync_logs"
      ++ [error_row s (audit_id st) e (Counters 0 0 0 0 0 0 0)] /\
    (forall t, t <> "sync_logs" -> table_rows (db st2) t = table_rows (db st) t).
Proof.
  intros _ Hmiss e. apply sync_shop_fails_at_once.
  unfold sync_catalogue, bind, lift, resolve_credentials.
  unfold key_variable, secret_variable in Hmiss. rewrite Hmiss. reflexivity.
Qed.

Lemma missing_credentials_fail_before_any_fetch_witness :
  exists st2,
    sync_shop healthy_env 0 shop_one cleanup_state =
      Some (Raise (RuntimeError "Missing API credentials for shop TLD=NL"), st2) /\
    List.map op_table (requests st2) = ["sync_logs"; "sync_logs"] /\
    table_rows (db st2) "products" = table_rows cleanup_db "products".
Proof.
  destruct (missing_credentials_fail_before_any_fetch healthy_env 0 shop_one cleanup_state)
    as (st2 & Hrun & Hreq & _ & _ & Hrest).
  - reflexivity.
  - reflexivity.
  - reflexivity.
  - reflexivity.
  - exists st2. split; [exact Hrun|]. split; [rewrite Hreq; reflexivity|].
    apply Hrest. discriminate.
Defined.

(** X20.  When the credentials are set and no language of the shop is marked
    as default, [next] raises [StopIteration] before anything is fetched:
    the run raises it again after closing the audit row with status "error"
    and the empty string as message, the text of that exception. *)
Theorem missing_default_language_is_audited_without_message
    (env : environment) (fuel : nat) (s : shop) (st : state) :
  env_missing (getenv env (key_variable s))
    || env_missing (getenv env (secret_variable s)) = false ->
  List.find is_default (shop_languages s) = None ->
  db_fault env (List.length (requests st)) (DbInsert "sync_logs" (running_row s)) = None ->
  db_fault env (S (List.length (requests st)))
    (DbUpdate "sync_logs" (error_fields StopIteration (Counters 0 0 0 0 0 0 0))
       (audit_id st)) = None ->
  exists st2,
    sync_shop env fuel s st = Some (Raise StopIteration, st2) /\
    requests st2 =
      requests st ++
      [DbInsert "sync_logs" (running_row s);
       DbUpdate "sync_logs" (error_fields StopIteration (Counters 0 0 0 0 0 0 0))
         (audit_id st)] /\
    output st2 = output st ++ [MsgSyncing (shop_name s)] /\
    table_rows (db st2) "sync_logs" =
      table_rows (db st) "sync_logs"
      ++ [error_row s (audit_id st) StopIteration (Counters 0 0 0 0 0 0 0)] /\
    dict_lookup (error_row s (audit_id st) StopIteration (Counters 0 0 0 0 0 0 0))
      "error_message" = Some (JStr "").
Proof.
  intros Hcreds Hfind Hins Hupd.
  destruct (sync_shop_fails_at_once env fuel s st StopIteration) as (st2 & H1 & H2 & H3 & H4 & _).
  - unfold sync_catalogue, bind, lift, resolve_credentials, base_language.
    unfold key_variable, secret_variable in Hcreds. rewrite Hcreds, Hfind. reflexivity.
  - exact Hins.
  - exact Hupd.
  - exists st2. repeat (split; [assumption|]). reflexivity.
Qed.

Lemma missing_default_language_is_audited_without_message_witness :
  exists st2,
    sync_shop demo_env 0 shop_no_default empty_state = Some (Raise StopIteration, st2) /\
    List.map (fun r => dict_get r "error_message" JNull) (table_rows (db st2) "sync_logs") =
      [JStr ""].
Proof.
  destruct (missing_default_language_is_audited_without_message demo_env 0 shop_no_default
              empty_state) as (st2 & Hrun & _ & _ & Hlogs & _).
  - reflexivity.
  - reflexivity.
  - reflexivity.
  - reflexivity.
  - exists st2. split; [exact Hrun|]. rewrite Hlogs. reflexivity.
Defined.

(** ** One audit row per shop *)

Lemma inserts_snoc (ops : list db_op) (op : db_op) :
  no_insert op -> inserts (ops ++ [op]) = inserts ops.
Proof.
  intros H. unfold inserts. rewrite List.filter_app.
  destruct op; simpl in H; try contradiction; simpl; apply List.app_nil_r.
Qed.

Lemma same_inserts_refl (st : state) : same_inserts st st.
Proof. reflexivity. Qed.

Lemma same_inserts_trans (a b c : state) :
  same_inserts a b -> same_inserts b c -> same_inserts a c.
Proof. unfold same_inserts. congruence. Qed.

Lemma same_inserts_execute (env : environment) (op : db_op) :
  no_insert op -> respects same_inserts (db_execute env op).
Proof.
  intros Hop st r st' H. unfold db_execute in H. unfold same_inserts.
  destruct (db_fault env _ op).
  - inversion H; subst. cbn [requests]. apply inserts_snoc, Hop.
  - destruct (db_apply op (db st)). inversion H; subst. cbn [requests].
    apply inserts_snoc, Hop.
Qed.

Lemma sync_shop_inserts (env : environment) (fuel : nat) (s : shop)
    (st st1 : state) (r : result unit) :
  sync_shop env fuel s st = Some (r, st1) ->
  inserts (requests st1) =
  inserts (requests st) ++ [DbInsert "sync_logs" (running_row s)].
Proof.
  intros H. unfold sync_shop in H. unfold bind at 1 in H. unfold print in H.
  unfold bind at 1 in H.
  destruct (db_execute env (DbInsert "sync_logs" (running_row s)) _)
    as [[[data|e] st0]|] eqn:Hexec; [| |discriminate].
  - assert (Hin : inserts (requests st0) =
                  inserts (requests st) ++ [DbInsert "sync_logs" (running_row s)]).
    { unfold db_execute in Hexec. cbn [db requests output metrics] in Hexec.
      destruct (db_fault env _ _); [discriminate|].
      destruct (db_apply _ _). inversion Hexec; subst. cbn [requests].
      unfold inserts. rewrite List.filter_app. reflexivity. }
    assert (Hrest : same_inserts st0 st1).
    { revert H. generalize st0 r st1.
      change (respects same_inserts
                (log_id <- lift (first_id data) ;;
                 init_metrics ;;
                 try_except (sync_shop_body env fuel s log_id) (sync_shop_handler env log_id))).
      apply (respects_bind same_inserts same_inserts_trans).
      { apply (respects_lift same_inserts same_inserts_refl). }
      intros log_id. apply (respects_bind same_inserts same_inserts_trans).
      { apply respects_init_metrics. intros st2 m. reflexivity. }
      intros _. apply (respects_try same_inserts same_inserts_trans).
      - apply (run_sync_shop_body same_inserts no_insert env s same_inserts_refl
                 same_inserts_trans); try (intros; exact I).
        + intros st2 ms. reflexivity.
        + intros st2 k v _. reflexivity.
        + intros st2 m. reflexivity.
        + apply same_inserts_execute.
      - intros e. apply (run_sync_shop_handler same_inserts no_insert env same_inserts_refl
                           same_inserts_trans (same_inserts_execute env)).
        intros. exact I. }
    unfold same_inserts in Hrest. rewrite Hrest. exact Hin.
  - inversion H; subst. unfold db_execute in Hexec. cbn [db requests output metrics] in Hexec.
    destruct (db_fault env _ _).
    + inversion Hexec; subst. cbn [requests]. unfold inserts. rewrite List.filter_app.
      reflexivity.
    + destruct (db_apply _ _). discriminate.
Qed.

Lemma run_shops_inserts (env : environment) (fuel : nat) (shops : list shop) :
  forall (st st' : state) (r : result unit),
    run_shops env fuel shops st = Some (r, st') ->
    inserts (requests st') =
    inserts (requests st)
    ++ List.map (fun s => DbInsert "sync_logs" (running_row s)) shops.
Proof.
  induction shops as [|s rest IH]; intros st st' r H.
  - inversion H; subst. symmetry. apply List.app_nil_r.
  - cbn [run_shops] in H. unfold bind at 1, run_one, try_except in H.
    destruct (sync_shop env fuel s st) as [[[[]|e] st1]|] eqn:Hs; [| |discriminate].
    + rewrite (IH _ _ _ H), (sync_shop_inserts env fuel s st st1 _ Hs).
      rewrite <- List.app_assoc. reflexivity.
    + unfold print in H. rewrite (IH _ _ _ H). cbn [requests].
      rewrite (sync_shop_inserts env fuel s st st1 _ Hs).
      rewrite <- List.app_assoc. reflexivity.
Qed.

(** X21.  However the runs of the shops end, the fleet sends exactly one
    insert request per shop of the roster, the audit row of that shop with
    status "running", in roster order in the sequential schedule, and no
    other insert: no shop is retried and no run opens a second audit row. *)
Theorem fleet_opens_one_audit_row_per_shop
    (env : environment) (fuel : nat) (shops : list shop) (st st' : state) (r : result unit) :
  run_fleet env fuel shops st = Some (r, st') ->
  inserts (requests st') =
  inserts (requests st) ++ List.map (fun s => DbInsert "sync_logs" (running_row s)) shops.
Proof.
  intros H. destruct shops as [|s rest].
  - inversion H; subst. symmetry. apply List.app_nil_r.
  - unfold run_fleet, bind in H.
    destruct (run_shops env fuel (s :: rest) st) as [[[[]|e] st1]|] eqn:Hr; [| |discriminate].
    + unfold print in H. inversion H; subst. cbn [requests].
      apply (run_shops_inserts env fuel (s :: rest) st st1 _ Hr).
    + inversion H; subst. apply (run_shops_inserts env fuel (s :: rest) st st' _ Hr).
Qed.

Lemma fleet_opens_one_audit_row_per_shop_witness :
  exists r st',
    run_fleet fleet_env 2 fleet_shops empty_state = Some (r, st') /\
    inserts (requests st') =
      List.map (fun s => DbInsert "sync_logs" (running_row s)) fleet_shops.
Proof.
  exists (Ok tt), (match run_fleet fleet_env 2 fleet_shops empty_state with
                   | Some (_, st') => st'
                   | None => empty_state
                   end).
  split; [vm_compute; reflexivity|].
  apply (fleet_opens_one_audit_row_per_shop fleet_env 2 fleet_shops empty_state _ (Ok tt)).
  vm_compute. reflexivity.
Defined.

(** ** The upsert helper *)

(** X22.  [bulk_upsert] never sends more than one request, and none for an
    empty list of rows.  When it returns it has printed nothing and the
    table holds the upserted rows; when it raises, the exception is the
    error of the store for that request, the tables are as they were, and
    one line with the number of rows, the table and the error has been
    printed. *)
Theorem bulk_upsert_outcomes
    (env : environment) (t : string) (rows : list row) (cols : list string)
    (st st' : state) (r : result unit) :
  bulk_upsert env t rows cols st = Some (r, st') ->
  requests st' = requests st ++ upsert_request t rows cols /\
  metrics st' = metrics st /\
  match r with
  | Ok _ => db st' = after_upsert t rows cols (db st) /\ output st' = output st
  | Raise e =>
      rows <> [] /\ db st' = db st /\
      output st' = output st ++ [MsgUpsertFailed (List.length rows) t (exn_str e)] /\
      exists err, e = APIError err /\
        db_fault env (List.length (requests st)) (DbUpsert t rows cols) = Some err
  end.
Proof.
  intros H. destruct rows as [|r0 rows].
  - inversion H; subst. split; [symmetry; apply List.app_nil_r|]. repeat split.
  - unfold bulk_upsert, try_except, bind, db_execute in H.
    destruct (db_fault env (List.length (requests st)) (DbUpsert t (r0 :: rows) cols))
      as [err|] eqn:Hf.
    + unfold print, raise in H. inversion H; subst. cbn [db requests output metrics].
      split; [reflexivity|]. split; [reflexivity|]. split; [discriminate|].
      split; [reflexivity|]. split; [reflexivity|]. exists err. split; reflexivity.
    + cbn [db_apply] in H. unfold ret in H. inversion H; subst. repeat split.
Qed.

Lemma bulk_upsert_outcomes_witness :
  exists st',
    bulk_upsert failing_upsert_env "variants" [stored_variant 1 41] ["shop_id"] cleanup_state =
      Some (Raise (APIError "constraint violated"), st') /\
    db st' = cleanup_db /\
    output st' = [MsgUpsertFailed 1 "variants" "constraint violated"].
Proof.
  exists (match bulk_upsert failing_upsert_env "variants" [stored_variant 1 41] ["shop_id"]
                  cleanup_state with
          | Some (_, st') => st'
          | None => cleanup_state
          end).
  split; [reflexivity|].
  destruct (bulk_upsert_outcomes failing_upsert_env "variants" [stored_variant 1 41]
              ["shop_id"] cleanup_state
              (match bulk_upsert failing_upsert_env "variants" [stored_variant 1 41]
                       ["shop_id"] cleanup_state with
               | Some (_, st') => st'
               | None => cleanup_state
               end) (Raise (APIError "constraint violated")))
    as (_ & _ & _ & Hdb & Hout & _).
  - reflexivity.
  - split; [exact Hdb | exact Hout].
Defined.

(** ** What a fetch raises *)

Lemma request_page_raise (src : source) (page : nat) (e : exn) :
  snd (request_page src page (seq 0 MAX_RETRIES)) = Raise e ->
  (exists e0 e1 e2,
     src page 0 = HttpFail e0 /\ src page 1 = HttpFail e1 /\ src page 2 = HttpFail e2 /\
     e = RequestException e2) \/
  first_success src page = HttpBad e.
Proof.
  unfold MAX_RETRIES, first_success. simpl.
  destruct (src page 0) as [e0|b0|x0]; [|discriminate|simpl; intros H; right; congruence].
  destruct (src page 1) as [e1|b1|x1]; [|discriminate|simpl; intros H; right; congruence].
  destruct (src page 2) as [e2|b2|x2]; [|discriminate|simpl; intros H; right; congruence].
  simpl. intros H. inversion H. left. exists e0, e1, e2. repeat split.
Qed.

Lemma request_page_ok (src : source) (page : nat) (batch : list pydict) :
  snd (request_page src page (seq 0 MAX_RETRIES)) = Ok batch ->
  first_success src page = HttpOk batch.
Proof.
  unfold MAX_RETRIES, first_success. simpl.
  destruct (src page 0) as [e0|b0|x0]; [|simpl; congruence..].
  destruct (src page 1) as [e1|b1|x1]; [|simpl; congruence..].
  destruct (src page 2) as [e2|b2|x2]; simpl; congruence.
Qed.

(** X23.  A fetch raises in two ways only.  Either some page has failed at
    all three attempts, and the exception is the failure of the third
    attempt; or the first attempt at some page that did not fail was
    answered with a body that could not be read, and the exception is the
    one raised while reading it, outside the retry loop.  In both cases
    every page before that one was answered with a full page, and the
    entities of those pages are not returned. *)
Theorem fetch_raises_at_one_page (fuel : nat) :
  forall (src : source) (page : nat) (acc : list pydict) (tr : list event) (e : exn),
    fetch_pages fuel src page acc = Some (tr, Raise e) ->
    exists p,
      page <= p /\
      ((exists e0 e1 e2,
          src p 0 = HttpFail e0 /\ src p 1 = HttpFail e1 /\ src p 2 = HttpFail e2 /\
          e = RequestException e2) \/
       first_success src p = HttpBad e) /\
      forall q, page <= q < p ->
        exists batch, first_success src q = HttpOk batch /\ LIMIT <= List.length batch.
Proof.
  induction fuel as [|fuel IH]; intros src page acc tr e H; [discriminate|].
  cbn [fetch_pages] in H.
  pose proof (request_page_raise src page) as Hraise.
  pose proof (request_page_ok src page) as Hok.
  destruct (request_page src page (seq 0 MAX_RETRIES)) as [tr0 r0]. cbn [snd] in Hraise, Hok.
  destruct r0 as [batch|e'].
  - destruct batch as [|b batch]; [discriminate|].
    destruct (Nat.ltb (List.length (b :: batch)) LIMIT) eqn:Hlen; [discriminate|].
    destruct (fetch_pages fuel src (S page) _) as [[tr' r']|] eqn:Hrec; [|discriminate].
    inversion H; subst.
    destruct (IH _ _ _ _ _ Hrec) as (p & Hp & Hwhy & Hfull).
    exists p. split; [lia|]. split; [exact Hwhy|].
    intros q Hq. destruct (Nat.eq_dec q page) as [->|Hne].
    + exists (b :: batch). split; [apply Hok; reflexivity|].
      apply Nat.ltb_ge in Hlen. exact Hlen.
    + apply Hfull. lia.
  - inversion H; subst. exists page. split; [lia|]. split; [exact (Hraise e eq_refl)|].
    intros q Hq. lia.
Qed.

Lemma fetch_raises_at_one_page_witness :
  fetch_pages 2 unreadable_second_page 1 [] =
    Some ([Request 1 0; Request 2 0; Print (MsgRetry 1 3 1 "timed out"); Sleep 1; Request 2 1],
          Raise (AttributeError "list" "get")) /\
  exists p,
    1 <= p /\
    ((exists e0 e1 e2,
        unreadable_second_page p 0 = HttpFail e0 /\ unreadable_second_page p 1 = HttpFail e1 /\
        unreadable_second_page p 2 = HttpFail e2 /\
        AttributeError "list" "get" = RequestException e2) \/
     first_success unreadable_second_page p = HttpBad (AttributeError "list" "get")) /\
    forall q, 1 <= q < p ->
      exists batch, first_success unreadable_second_page q = HttpOk batch /\
                    LIMIT <= List.length batch.
Proof.
  split; [vm_compute; reflexivity|].
  apply (fetch_raises_at_one_page 2 unreadable_second_page 1 []
           [Request 1 0; Request 2 0; Print (MsgRetry 1 3 1 "timed out"); Sleep 1;
            Request 2 1]).
  vm_compute. reflexivity.
Defined.
